(** * SEBL-Complaint: the layer-2 complaint classification pipeline

    A shallow embedding of [app/backend/layer2/routes.py] (sessions, the
    shared classification cache, the classifier adapter, the priority
    formula, the two processing loops and the request handlers) and of the
    feedback bookkeeping of [layer1/backend/main.py], together with the
    part of the Python runtime these functions rely on (exceptions, [int],
    [round], [str.strip], [json.loads], [json.dumps], [hashlib.md5]).

    Conventions.
    - A Python [str] is represented by its UTF-8 encoding, a Rocq [string].
    - A Python [float] is a binary64 number, a [spec_float] with precision
      53 and maximal exponent 1024.
    - A call that may raise returns a [result]: [Ok v] or [Raise e].
    - The external model is an oracle: the n-th call of
      [generate_content] is answered by [gemini n]. *)

From Stdlib Require Import ZArith String Ascii List Bool Lia Permutation.
From Stdlib Require Import Floats.SpecFloat.
From stdpp Require Import gmap strings list fin_maps sorting.

Set Warnings "-register-all".
Open Scope string_scope.
Open Scope Z_scope.

(** * Part 1. The Python runtime *)

Module Py.

(** ** Exceptions *)

(** The exception classes that occur in the modelled code.  [UpstreamError]
    stands for any other subclass of [Exception], such as the errors of the
    Gemini client when the service cannot be reached. *)
Inductive exn_class :=
  | JSONDecodeError
  | KeyError
  | ValueError
  | TypeError
  | AttributeError
  | OverflowError
  | ZeroDivisionError
  | UpstreamError.

Record exn := Exn { exn_cls : exn_class; exn_msg : string }.

(** [str(e)] *)
Definition str_of_exn (e : exn) : string := exn_msg e.

Inductive result (A : Type) :=
  | Ok (a : A)
  | Raise (e : exn).
Arguments Ok {A} a.
Arguments Raise {A} e.

#[export] Instance result_ret : MRet result := fun A a => Ok a.
#[export] Instance result_bind : MBind result := fun A B k r =>
  match r with
  | Ok a => k a
  | Raise e => Raise e
  end.

Definition raise {A} (c : exn_class) (msg : string) : result A :=
  Raise (Exn c msg).

(** ** Floats *)

Definition prec : Z := 53.
Definition emax : Z := 1024.

Abbreviation float := spec_float.

(** [float(n)] for an integer that a double represents exactly. *)
Definition float_of_Z (n : Z) : float := binary_normalize prec emax n 0 false.

(** [p / c] on two ints (true division): the quotient correctly rounded to
    the nearest double, [ZeroDivisionError] for [c = 0] and
    [OverflowError] when the rounded quotient leaves the range of a
    double. *)
Definition int_truediv (p c : Z) : result float :=
  match c with
  | Z0 => raise ZeroDivisionError "division by zero"
  | _ =>
    match p with
    | Z0 => Ok (S754_zero (c <? 0))
    | _ =>
      match SFdiv prec emax
              (S754_finite (p <? 0) (Z.to_pos (Z.abs p)) 0)
              (S754_finite (c <? 0) (Z.to_pos (Z.abs c)) 0) with
      | S754_infinity _ =>
          raise OverflowError "integer division result too large for a float"
      | q => Ok q
      end
    end
  end.

(** Nearest integer to [n / d], ties to the even one ([0 <= n], [0 < d]). *)
Definition round_half_even_div (n d : Z) : Z :=
  let q := n / d in
  match (2 * (n mod d)) ?= d with
  | Lt => q
  | Gt => q + 1
  | Eq => if Z.even q then q else q + 1
  end.

(** The number of hundredths nearest to [m * 2^e]. *)
Definition hundredths (m : positive) (e : Z) : Z :=
  if 0 <=? e then 100 * Zpos m * 2 ^ e
  else round_half_even_div (100 * Zpos m) (2 ^ (- e)).

(** [round(x, 2)] on a float: the exact value of [x] is rounded to two
    decimal places, ties to even, and the double nearest to that decimal
    is returned; zeros, infinities and NaN round to themselves. *)
Definition round2 (x : float) : result float :=
  match x with
  | S754_finite s m e =>
    match hundredths m e with
    | Zpos h =>
      match SFdiv prec emax (S754_finite s h 0) (S754_finite false 100 0) with
      | S754_infinity _ =>
          raise OverflowError "rounded value too large to represent"
      | r => Ok r
      end
    | _ => Ok (S754_zero s)
    end
  | _ => Ok x
  end.

(** [x >= n] and [x < n] for a float [x] and an int [n] that a double
    represents exactly; both are [False] when [x] is NaN. *)
Definition float_ge_int (x : float) (n : Z) : bool := SFleb (float_of_Z n) x.
Definition float_lt_int (x : float) (n : Z) : bool := SFltb x (float_of_Z n).

(** [int(x)] on a float: truncation towards zero. *)
Definition int_of_float (x : float) : result Z :=
  match x with
  | S754_zero _ => Ok 0
  | S754_finite s m e =>
      let a := if 0 <=? e then Zpos m * 2 ^ e else Zpos m / 2 ^ (- e) in
      Ok (if s then - a else a)
  | S754_infinity _ =>
      raise OverflowError "cannot convert float infinity to integer"
  | S754_nan => raise ValueError "cannot convert float NaN to integer"
  end.

(** ** Strings *)

Definition code (a : ascii) : Z := Z.of_N (N_of_ascii a).
Definition chr (c : Z) : ascii := ascii_of_N (Z.to_N c).

Fixpoint rev_string (acc s : string) : string :=
  match s with
  | EmptyString => acc
  | String a r => rev_string (String a acc) r
  end.

Definition reverse (s : string) : string := rev_string "" s.

Fixpoint drop (n : nat) (s : string) : string :=
  match n, s with
  | S k, String _ r => drop k r
  | _, _ => s
  end.

(** [s.startswith(p)] and [s.endswith(p)] *)
Definition startswith (s p : string) : bool := String.prefix p s.
Definition endswith (s p : string) : bool :=
  String.prefix (reverse p) (reverse s).

(** [s[n:]] and [s[:-n]] for [n] ASCII characters *)
Definition slice_from (n : nat) (s : string) : string := drop n s.
Definition slice_to_minus (n : nat) (s : string) : string :=
  reverse (drop n (reverse s)).

(** The code points Python counts as whitespace, by the bytes of their
    UTF-8 encoding: U+0009..000D, U+001C..0020; U+0085, U+00A0; U+1680,
    U+2000..200A, U+2028, U+2029, U+202F, U+205F, U+3000. *)
Definition space1 (a : Z) : bool :=
  ((9 <=? a) && (a <=? 13)) || ((28 <=? a) && (a <=? 32)).
Definition space2 (a b : Z) : bool :=
  (a =? 194) && ((b =? 133) || (b =? 160)).
Definition space3 (a b c : Z) : bool :=
  ((a =? 225) && (b =? 154) && (c =? 128))
  || ((a =? 226) && (b =? 128)
      && (((128 <=? c) && (c <=? 138)) || (c =? 168) || (c =? 169) || (c =? 175)))
  || ((a =? 226) && (b =? 129) && (c =? 159))
  || ((a =? 227) && (b =? 128) && (c =? 128)).

(** Removes leading whitespace; with [back] the string is read from its
    end, so the bytes of a character come in reverse order. *)
Fixpoint strip_front (back : bool) (s : string) : string :=
  match s with
  | String a s1 =>
    if space1 (code a) then strip_front back s1
    else
      match s1 with
      | String b s2 =>
        if (if back then space2 (code b) (code a) else space2 (code a) (code b))
        then strip_front back s2
        else
          match s2 with
          | String c s3 =>
            if (if back then space3 (code c) (code b) (code a)
                else space3 (code a) (code b) (code c))
            then strip_front back s3
            else s
          | EmptyString => s
          end
      | EmptyString => s
      end
  | EmptyString => s
  end.

(** [s.strip()] *)
Definition strip (s : string) : string :=
  reverse (strip_front true (reverse (strip_front false s))).

Definition is_digit (a : ascii) : bool := (48 <=? code a) && (code a <=? 57).
Definition digit_value (a : ascii) : Z := code a - 48.

(** The longest prefix of decimal digits: its value, its length, the rest. *)
Fixpoint span_digits (acc : Z) (n : Z) (s : string) : Z * Z * string :=
  match s with
  | String a r =>
    if is_digit a then span_digits (10 * acc + digit_value a) (n + 1) r
    else (acc, n, s)
  | EmptyString => (acc, n, s)
  end.

(** [sys.int_info.default_max_str_digits] *)
Definition max_str_digits : Z := 4300.

(** Digits with single underscores between them. *)
Fixpoint literal_digits (acc n : Z) (after_digit : bool) (s : string)
  : option (Z * Z) :=
  match s with
  | EmptyString => if after_digit then Some (acc, n) else None
  | String a r =>
    if is_digit a then literal_digits (10 * acc + digit_value a) (n + 1) true r
    else if (code a =? 95) && after_digit then literal_digits acc n false r
    else None
  end.

(** [int(s)] on a str, base 10: surrounding whitespace, a sign, decimal
    digits.  Only the ASCII digits are recognised here (Python also takes
    the decimal digits of other scripts). *)
Definition int_of_str (s : string) : result Z :=
  let t := strip s in
  let '(neg, d) :=
    match t with
    | String a r =>
      if code a =? 45 then (true, r)
      else if code a =? 43 then (false, r) else (false, t)
    | EmptyString => (false, t)
    end in
  match literal_digits 0 0 false d with
  | Some (v, n) =>
    if max_str_digits <? n
    then raise ValueError "Exceeds the limit (4300 digits) for integer string conversion"
    else Ok (if neg then - v else v)
  | None => raise ValueError ("invalid literal for int() with base 10: " ++ s)
  end.

(** ** Values *)

(** The values [json.loads] produces. A dict keeps its items in insertion
    order, one item per key. *)
Inductive pyval :=
  | PyNone
  | PyBool (b : bool)
  | PyInt (n : Z)
  | PyFloat (f : float)
  | PyStr (s : string)
  | PyList (l : list pyval)
  | PyDict (d : list (string * pyval)).

Abbreviation dict := (list (string * pyval)).

(** [d.get(k)] *)
Fixpoint dict_get (k : string) (d : dict) : option pyval :=
  match d with
  | [] => None
  | (k', v) :: r => if String.eqb k k' then Some v else dict_get k r
  end.

(** [d[k] = v] *)
Fixpoint dict_set (k : string) (v : pyval) (d : dict) : dict :=
  match d with
  | [] => [(k, v)]
  | (k', v') :: r =>
    if String.eqb k k' then (k', v) :: r else (k', v') :: dict_set k v r
  end.

(** [d[k]] *)
Definition dict_item (k : string) (d : dict) : result pyval :=
  match dict_get k d with
  | Some v => Ok v
  | None => raise KeyError ("'" ++ k ++ "'")
  end.

(** [dict(pairs)] *)
Definition dict_of_pairs (pairs : list (string * pyval)) : dict :=
  fold_left (fun d kv => dict_set (fst kv) (snd kv) d) pairs [].

Definition type_name (v : pyval) : string :=
  match v with
  | PyNone => "NoneType"
  | PyBool _ => "bool"
  | PyInt _ => "int"
  | PyFloat _ => "float"
  | PyStr _ => "str"
  | PyList _ => "list"
  | PyDict _ => "dict"
  end.

(** [int(v)] *)
Definition int (v : pyval) : result Z :=
  match v with
  | PyBool b => Ok (if b then 1 else 0)
  | PyInt n => Ok n
  | PyFloat f => int_of_float f
  | PyStr s => int_of_str s
  | _ =>
    raise TypeError
      ("int() argument must be a string, a bytes-like object or a real number, not '"
         ++ type_name v ++ "'")
  end.

(** ** UTF-8 *)

(** The UTF-8 encoding of a code point (a lone surrogate is encoded like
    any other three-byte code point). *)
Definition utf8 (cp : Z) : string :=
  if cp <? 128 then String (chr cp) ""
  else if cp <? 2048 then
    String (chr (192 + cp / 64)) (String (chr (128 + cp mod 64)) "")
  else if cp <? 65536 then
    String (chr (224 + cp / 4096))
      (String (chr (128 + (cp / 64) mod 64))
         (String (chr (128 + cp mod 64)) ""))
  else
    String (chr (240 + cp / 262144))
      (String (chr (128 + (cp / 4096) mod 64))
         (String (chr (128 + (cp / 64) mod 64))
            (String (chr (128 + cp mod 64)) ""))).

(** ** json.loads *)

Definition json_error {A} (msg : string) : result A := raise JSONDecodeError msg.

(** JSON whitespace: space, tab, line feed, carriage return. *)
Definition is_ws (a : ascii) : bool :=
  let c := code a in (c =? 32) || (c =? 9) || (c =? 10) || (c =? 13).

Fixpoint skip_ws (s : string) : string :=
  match s with
  | String a r => if is_ws a then skip_ws r else s
  | EmptyString => s
  end.

Definition hex_value (a : ascii) : option Z :=
  let c := code a in
  if (48 <=? c) && (c <=? 57) then Some (c - 48)
  else if (65 <=? c) && (c <=? 70) then Some (c - 55)
  else if (97 <=? c) && (c <=? 102) then Some (c - 87)
  else None.

(** Four hexadecimal digits. *)
Definition hex4 (s : string) : option (Z * string) :=
  match s with
  | String a (String b (String c (String d r))) =>
    match hex_value a, hex_value b, hex_value c, hex_value d with
    | Some x, Some y, Some z, Some w => Some (((x * 16 + y) * 16 + z) * 16 + w, r)
    | _, _, _, _ => None
    end
  | _ => None
  end.

(** The character a one-letter escape stands for. *)
Definition backslash (a : ascii) : option Z :=
  let c := code a in
  if c =? 34 then Some 34          (* quote *)
  else if c =? 92 then Some 92     (* backslash *)
  else if c =? 47 then Some 47     (* slash *)
  else if c =? 98 then Some 8      (* b *)
  else if c =? 102 then Some 12    (* f *)
  else if c =? 110 then Some 10    (* n *)
  else if c =? 114 then Some 13    (* r *)
  else if c =? 116 then Some 9     (* t *)
  else None.

(** [scanstring] in strict mode: [s] starts after the opening quote; the
    result is the decoded string and the text after the closing quote.
    [acc] holds the decoded prefix, reversed. *)
Fixpoint scanstring (fuel : nat) (acc : string) (s : string)
  : result (string * string) :=
  match fuel with
  | O => json_error "Unterminated string"
  | S fuel' =>
    match s with
    | EmptyString => json_error "Unterminated string starting at"
    | String a r =>
      let c := code a in
      if c =? 34 then Ok (reverse acc, r)
      else if c =? 92 then
        match r with
        | EmptyString => json_error "Unterminated string starting at"
        | String e r1 =>
          if code e =? 117 then
            match hex4 r1 with
            | None => json_error "Invalid \uXXXX escape"
            | Some (uni, r2) =>
              if (55296 <=? uni) && (uni <=? 56319) && startswith r2 "\u" then
                match hex4 (drop 2 r2) with
                | None => json_error "Invalid \uXXXX escape"
                | Some (uni2, r3) =>
                  if (56320 <=? uni2) && (uni2 <=? 57343) then
                    scanstring fuel'
                      (rev_string acc
                         (utf8 (65536 + ((uni - 55296) * 1024 + (uni2 - 56320)))))
                      r3
                  else scanstring fuel' (rev_string acc (utf8 uni)) r2
                end
              else scanstring fuel' (rev_string acc (utf8 uni)) r2
            end
          else
            match backslash e with
            | Some x => scanstring fuel' (String (chr x) acc) r1
            | None => json_error "Invalid \escape"
            end
        end
      else if c <? 32 then json_error "Invalid control character at"
      else scanstring fuel' (String a acc) r
    end
  end.

(** [float(lit)] for the literal with digits [d] (integer and fraction
    part together, [nd] digits) and decimal exponent [e]: the double
    nearest to [d * 10^e]. Literals far outside the range of a double are
    settled without building the power of ten. *)
Definition float_of_decimal (neg : bool) (d nd e : Z) : float :=
  match d with
  | Zpos dp =>
    if 400 <? e then S754_infinity neg
    else if e <? - (400 + nd) then S754_zero neg
    else if 0 <=? e then
      binary_normalize prec emax (if neg then - (d * 10 ^ e) else d * 10 ^ e) 0 neg
    else
      SFdiv prec emax (S754_finite neg dp 0)
        (S754_finite false (Z.to_pos (10 ^ (- e))) 0)
  | _ => S754_zero neg
  end.

(** [NUMBER_RE]: an optional minus sign, then [0] or a digit from 1 to 9
    followed by digits; optionally a dot and at least one digit;
    optionally [e] or [E], an optional sign and at least one digit.
    [None] when the text does not start with a number. *)
Definition match_number (s : string) : option (result pyval * string) :=
  let '(neg, s0) :=
    match s with
    | String a r => if code a =? 45 then (true, r) else (false, s)
    | EmptyString => (false, s)
    end in
  match s0 with
  | String a r0 =>
    if is_digit a then
      let '(ip, ni, s1) :=
        if code a =? 48 then (0, 1, r0) else span_digits 0 0 s0 in
      let '(fp, nf, s2) :=
        match s1 with
        | String dot (String f _ as r1) =>
          if (code dot =? 46) && is_digit f then span_digits ip 0 r1
          else (ip, 0, s1)
        | _ => (ip, 0, s1)
        end in
      let exponent (t : string) : option (Z * string) :=
        match t with
        | String f _ =>
          if is_digit f then
            let '(v, _, rest) := span_digits 0 0 t in Some (v, rest)
          else None
        | EmptyString => None
        end in
      let ex : option (Z * string) :=
        match s2 with
        | String e r2 =>
          if (code e =? 101) || (code e =? 69) then
            match r2 with
            | String sg r3 =>
              if code sg =? 45 then
                match exponent r3 with
                | Some (v, rest) => Some (- v, rest)
                | None => None
                end
              else if code sg =? 43 then exponent r3
              else exponent r2
            | EmptyString => None
            end
          else None
        | EmptyString => None
        end in
      match ex with
      | Some (e, s3) =>
        Some (Ok (PyFloat (float_of_decimal neg fp (ni + nf) (e - nf))), s3)
      | None =>
        if 0 <? nf
        then Some (Ok (PyFloat (float_of_decimal neg fp (ni + nf) (- nf))), s2)
        else if max_str_digits <? ni
        then Some (raise ValueError
                     "Exceeds the limit (4300 digits) for integer string conversion", s2)
        else Some (Ok (PyInt (if neg then - ip else ip)), s2)
      end
    else None
  | EmptyString => None
  end.

(** [scan_once] with [JSONObject] and [JSONArray]. [parse_members] starts
    after the opening quote of a key, [parse_elems] at a value; [acc]
    holds the items read so far, reversed. *)
Fixpoint scan_once (fuel : nat) (s : string) {struct fuel}
  : result (pyval * string) :=
  match fuel with
  | O => json_error "Expecting value"
  | S fuel' =>
    match s with
    | EmptyString => json_error "Expecting value"
    | String a r =>
      let c := code a in
      if c =? 34 then
        '(str, rest) ← scanstring (S (String.length r)) "" r; Ok (PyStr str, rest)
      else if c =? 123 then
        match skip_ws r with
        | String b r1 =>
          if code b =? 125 then Ok (PyDict [], r1)
          else if code b =? 34 then parse_members fuel' [] r1
          else json_error "Expecting property name enclosed in double quotes"
        | EmptyString =>
            json_error "Expecting property name enclosed in double quotes"
        end
      else if c =? 91 then
        match skip_ws r with
        | String b r1 as r0 =>
          if code b =? 93 then Ok (PyList [], r1) else parse_elems fuel' [] r0
        | EmptyString => json_error "Expecting value"
        end
      else if startswith s "null" then Ok (PyNone, drop 4 s)
      else if startswith s "true" then Ok (PyBool true, drop 4 s)
      else if startswith s "false" then Ok (PyBool false, drop 5 s)
      else
        match match_number s with
        | Some (v, rest) => x ← v; Ok (x, rest)
        | None =>
          if startswith s "NaN" then Ok (PyFloat S754_nan, drop 3 s)
          else if startswith s "Infinity"
          then Ok (PyFloat (S754_infinity false), drop 8 s)
          else if startswith s "-Infinity"
          then Ok (PyFloat (S754_infinity true), drop 9 s)
          else json_error "Expecting value"
        end
    end
  end
with parse_elems (fuel : nat) (acc : list pyval) (s : string) {struct fuel}
  : result (pyval * string) :=
  match fuel with
  | O => json_error "Expecting value"
  | S fuel' =>
    '(v, s1) ← scan_once fuel' s;
    match skip_ws s1 with
    | String b r =>
      if code b =? 93 then Ok (PyList (rev (v :: acc)), r)
      else if code b =? 44 then parse_elems fuel' (v :: acc) (skip_ws r)
      else json_error "Expecting ',' delimiter"
    | EmptyString => json_error "Expecting ',' delimiter"
    end
  end
with parse_members (fuel : nat) (acc : list (string * pyval)) (s : string)
  {struct fuel} : result (pyval * string) :=
  match fuel with
  | O => json_error "Expecting value"
  | S fuel' =>
    '(key, s1) ← scanstring (S (String.length s)) "" s;
    match skip_ws s1 with
    | String colon s2 =>
      if code colon =? 58 then
        '(v, s3) ← scan_once fuel' (skip_ws s2);
        match skip_ws s3 with
        | String b r =>
          if code b =? 125
          then Ok (PyDict (dict_of_pairs (rev ((key, v) :: acc))), r)
          else if code b =? 44 then
            match skip_ws r with
            | String q r1 =>
              if code q =? 34 then parse_members fuel' ((key, v) :: acc) r1
              else json_error "Expecting property name enclosed in double quotes"
            | EmptyString =>
                json_error "Expecting property name enclosed in double quotes"
            end
          else json_error "Expecting ',' delimiter"
        | EmptyString => json_error "Expecting ',' delimiter"
        end
      else json_error "Expecting ':' delimiter"
    | EmptyString => json_error "Expecting ':' delimiter"
    end
  end.

(** [json.loads(s)]: one value between optional whitespace.  (Nesting
    deeper than the interpreter's recursion limit is not modelled.) *)
Definition json_loads (s : string) : result pyval :=
  '(v, rest) ← scan_once (S (String.length s)) (skip_ws s);
  match skip_ws rest with
  | EmptyString => Ok v
  | String _ _ => json_error "Extra data"
  end.

(** ** json.dumps *)

Definition hex_digit (n : Z) : ascii :=
  if n <? 10 then chr (48 + n) else chr (87 + n).

(** [\uXXXX] with lower-case hexadecimal digits. *)
Definition u_escape (u : Z) : string :=
  "\u" ++ String (hex_digit (u / 4096))
            (String (hex_digit ((u / 256) mod 16))
               (String (hex_digit ((u / 16) mod 16))
                  (String (hex_digit (u mod 16)) ""))).

(** The escape of one code point under [ensure_ascii]. *)
Definition escape_code_point (cp : Z) : string :=
  if cp =? 34 then "\" ++ String (chr 34) ""
  else if cp =? 92 then "\\"
  else if cp =? 10 then "\n"
  else if cp =? 13 then "\r"
  else if cp =? 9 then "\t"
  else if cp =? 8 then "\b"
  else if cp =? 12 then "\f"
  else if (32 <=? cp) && (cp <=? 126) then String (chr cp) ""
  else if cp <? 65536 then u_escape cp
  else
    let v := cp - 65536 in
    u_escape (55296 + v / 1024) ++ u_escape (56320 + v mod 1024).

(** The escaped characters of a str, read from its UTF-8 encoding. *)
Fixpoint escape_chars (s : string) : string :=
  match s with
  | EmptyString => ""
  | String a s1 =>
    let c := code a in
    if c <? 192 then escape_code_point c ++ escape_chars s1
    else
      match s1 with
      | EmptyString => escape_code_point c
      | String b s2 =>
        if c <? 224 then
          escape_code_point ((c - 192) * 64 + (code b - 128)) ++ escape_chars s2
        else
          match s2 with
          | EmptyString => escape_code_point c
          | String d s3 =>
            if c <? 240 then
              escape_code_point
                (((c - 224) * 64 + (code b - 128)) * 64 + (code d - 128))
              ++ escape_chars s3
            else
              match s3 with
              | EmptyString => escape_code_point c
              | String e s4 =>
                escape_code_point
                  ((((c - 240) * 64 + (code b - 128)) * 64 + (code d - 128)) * 64
                   + (code e - 128))
                ++ escape_chars s4
              end
          end
      end
  end.

(** [encode_basestring_ascii] *)
Definition encode_basestring_ascii (s : string) : string :=
  String (chr 34) (escape_chars s) ++ String (chr 34) "".

(** [", ".join(l)] *)
Definition join (sep : string) (l : list string) : string := String.concat sep l.

(** A row of a table read by [csv.DictReader]: column name to field, [None]
    for a field the line did not have. *)
Abbreviation row := (list (string * option string)).

Definition item_le (x y : string * option string) : Prop :=
  String.le (fst x) (fst y).

#[export] Instance item_le_dec : RelDecision item_le :=
  fun x y => String.le_dec (fst x) (fst y).

(** [sorted(d.items())]: the keys of a dict are distinct, so the items are
    ordered by their keys. *)
Definition sorted_items (d : row) : row := merge_sort item_le d.

Definition dumps_field (v : option string) : string :=
  match v with
  | Some s => encode_basestring_ascii s
  | None => "null"
  end.

Definition dumps_item (kv : string * option string) : string :=
  encode_basestring_ascii (fst kv) ++ ": " ++ dumps_field (snd kv).

Definition dumps_row (d : row) : string :=
  "{" ++ join ", " (map dumps_item (sorted_items d)) ++ "}".

(** [json.dumps(table, sort_keys=True)] on a list of rows. *)
Definition json_dumps_sorted (table : list row) : string :=
  "[" ++ join ", " (map dumps_row table) ++ "]".

(** ** hashlib.md5 *)

Definition md5_K : list Z :=
  [ 0xd76aa478; 0xe8c7b756; 0x242070db; 0xc1bdceee;
    0xf57c0faf; 0x4787c62a; 0xa8304613; 0xfd469501;
    0x698098d8; 0x8b44f7af; 0xffff5bb1; 0x895cd7be;
    0x6b901122; 0xfd987193; 0xa679438e; 0x49b40821;
    0xf61e2562; 0xc040b340; 0x265e5a51; 0xe9b6c7aa;
    0xd62f105d; 0x02441453; 0xd8a1e681; 0xe7d3fbc8;
    0x21e1cde6; 0xc33707d6; 0xf4d50d87; 0x455a14ed;
    0xa9e3e905; 0xfcefa3f8; 0x676f02d9; 0x8d2a4c8a;
    0xfffa3942; 0x8771f681; 0x6d9d6122; 0xfde5380c;
    0xa4beea44; 0x4bdecfa9; 0xf6bb4b60; 0xbebfbc70;
    0x289b7ec6; 0xeaa127fa; 0xd4ef3085; 0x04881d05;
    0xd9d4d039; 0xe6db99e5; 0x1fa27cf8; 0xc4ac5665;
    0xf4292244; 0x432aff97; 0xab9423a7; 0xfc93a039;
    0x655b59c3; 0x8f0ccc92; 0xffeff47d; 0x85845dd1;
    0x6fa87e4f; 0xfe2ce6e0; 0xa3014314; 0x4e0811a1;
    0xf7537e82; 0xbd3af235; 0x2ad7d2bb; 0xeb86d391 ].

Definition md5_shift : list Z :=
  [ 7; 12; 17; 22; 7; 12; 17; 22; 7; 12; 17; 22; 7; 12; 17; 22;
    5; 9; 14; 20; 5; 9; 14; 20; 5; 9; 14; 20; 5; 9; 14; 20;
    4; 11; 16; 23; 4; 11; 16; 23; 4; 11; 16; 23; 4; 11; 16; 23;
    6; 10; 15; 21; 6; 10; 15; 21; 6; 10; 15; 21; 6; 10; 15; 21 ].

Definition w32 (x : Z) : Z := x mod 2 ^ 32.
Definition not32 (x : Z) : Z := 2 ^ 32 - 1 - x.
Definition rotl32 (x c : Z) : Z :=
  w32 (Z.lor (Z.shiftl x c) (Z.shiftr x (32 - c))).

Definition md5_state : Type := Z * Z * Z * Z.

(** One of the 64 operations on a block of sixteen words. *)
Definition md5_op (M : list Z) (st : md5_state) (i : nat) : md5_state :=
  let '(a, b, c, d) := st in
  let j := Z.of_nat i in
  let '(f, g) :=
    if j <? 16 then (Z.lor (Z.land b c) (Z.land (not32 b) d), j)
    else if j <? 32 then (Z.lor (Z.land d b) (Z.land (not32 d) c), (5 * j + 1) mod 16)
    else if j <? 48 then (Z.lxor (Z.lxor b c) d, (3 * j + 5) mod 16)
    else (Z.lxor c (Z.lor b (not32 d)), (7 * j) mod 16) in
  let x := w32 (f + a + nth i md5_K 0 + nth (Z.to_nat g) M 0) in
  (d, w32 (b + rotl32 x (nth i md5_shift 0)), b, c).

(** Little-endian words of a list of bytes. *)
Fixpoint words_le (bytes : list Z) : list Z :=
  match bytes with
  | b0 :: b1 :: b2 :: b3 :: r =>
      (b0 + 256 * (b1 + 256 * (b2 + 256 * b3))) :: words_le r
  | _ => []
  end.

Definition md5_block (st : md5_state) (block : list Z) : md5_state :=
  let '(a0, b0, c0, d0) := st in
  let '(a, b, c, d) := fold_left (md5_op (words_le block)) (seq 0 64) st in
  (w32 (a0 + a), w32 (b0 + b), w32 (c0 + c), w32 (d0 + d)).

Fixpoint md5_blocks (fuel : nat) (st : md5_state) (bytes : list Z) : md5_state :=
  match fuel, bytes with
  | S fuel', _ :: _ =>
      md5_blocks fuel' (md5_block st (firstn 64 bytes)) (skipn 64 bytes)
  | _, _ => st
  end.

Definition bytes_le (n : nat) (x : Z) : list Z :=
  map (fun k => (x / 256 ^ Z.of_nat k) mod 256) (seq 0 n).

(** The message followed by the bit 1, zeros up to 56 modulo 64 bytes and
    the length in bits as a 64-bit little-endian number. *)
Definition md5_pad (msg : list Z) : list Z :=
  let n := Z.of_nat (List.length msg) in
  let zeros := Z.to_nat ((55 - n) mod 64) in
  msg ++ [128] ++ repeat 0 zeros ++ bytes_le 8 ((8 * n) mod 2 ^ 64).

Definition hex_byte (b : Z) : string :=
  String (hex_digit (b / 16)) (String (hex_digit (b mod 16)) "").

(** [hashlib.md5(data).hexdigest()] *)
Definition md5_hexdigest (data : string) : string :=
  let msg := md5_pad (map code (list_ascii_of_string data)) in
  let '(a, b, c, d) :=
    md5_blocks (List.length msg) (0x67452301, 0xefcdab89, 0x98badcfe, 0x10325476) msg in
  String.concat "" (map hex_byte (bytes_le 4 a ++ bytes_le 4 b ++ bytes_le 4 c ++ bytes_le 4 d)).

End Py.

(** * Part 2. Layer 2: [app/backend/layer2/routes.py] *)

Module Layer2.
Import Py.

(** ** Data *)

(** [ProcessingSession.status] takes the four values ["pending"],
    ["processing"], ["completed"] and ["error"]. *)
Inductive Status := pending | processing | completed | error.

Definition status_name (s : Status) : string :=
  match s with
  | pending => "pending"
  | processing => "processing"
  | completed => "completed"
  | error => "error"
  end.

#[export] Instance Status_eq_dec : EqDecision Status.
Proof. solve_decision. Defined.

(** The dict built at lines 196-206 and 288-298. *)
Record ResultRow := {
  complaint : string;
  risk_code : pyval;
  risk_description : pyval;
  impact_score : Z;
  urgency_score : Z;
  frequency_score : Z;
  controllability_score : Z;
  priority_score : float;
  priority_level : string
}.

(** The attributes of a [ProcessingSession]; instants are abstract ([Z]).
    The attribute [model] is the oracle of the environment below. *)
Record ProcessingSession := {
  session_id : string;
  created_at : Z;
  complaints : list string;
  risk_table : list row;
  results : list ResultRow;
  status : Status;
  total_rows : nat;
  processed_rows : nat;
  start_time : option Z;
  end_time : option Z;
  error_message : option string
}.

Definition set_results (v : list ResultRow) (s : ProcessingSession) :=
  {| session_id := session_id s; created_at := created_at s;
     complaints := complaints s; risk_table := risk_table s;
     results := v; status := status s; total_rows := total_rows s;
     processed_rows := processed_rows s; start_time := start_time s;
     end_time := end_time s; error_message := error_message s |}.

Definition set_status (v : Status) (s : ProcessingSession) :=
  {| session_id := session_id s; created_at := created_at s;
     complaints := complaints s; risk_table := risk_table s;
     results := results s; status := v; total_rows := total_rows s;
     processed_rows := processed_rows s; start_time := start_time s;
     end_time := end_time s; error_message := error_message s |}.

Definition set_processed_rows (v : nat) (s : ProcessingSession) :=
  {| session_id := session_id s; created_at := created_at s;
     complaints := complaints s; risk_table := risk_table s;
     results := results s; status := status s; total_rows := total_rows s;
     processed_rows := v; start_time := start_time s;
     end_time := end_time s; error_message := error_message s |}.

Definition set_start_time (v : option Z) (s : ProcessingSession) :=
  {| session_id := session_id s; created_at := created_at s;
     complaints := complaints s; risk_table := risk_table s;
     results := results s; status := status s; total_rows := total_rows s;
     processed_rows := processed_rows s; start_time := v;
     end_time := end_time s; error_message := error_message s |}.

Definition set_end_time (v : option Z) (s : ProcessingSession) :=
  {| session_id := session_id s; created_at := created_at s;
     complaints := complaints s; risk_table := risk_table s;
     results := results s; status := status s; total_rows := total_rows s;
     processed_rows := processed_rows s; start_time := start_time s;
     end_time := v; error_message := error_message s |}.

Definition set_error_message (v : option string) (s : ProcessingSession) :=
  {| session_id := session_id s; created_at := created_at s;
     complaints := complaints s; risk_table := risk_table s;
     results := results s; status := status s; total_rows := total_rows s;
     processed_rows := processed_rows s; start_time := start_time s;
     end_time := end_time s; error_message := v |}.

(** [ProcessingSession.__init__], lines 70-82. *)
Definition new_session (id : string) (t : Z) : ProcessingSession :=
  {| session_id := id; created_at := t; complaints := []; risk_table := [];
     results := []; status := pending; total_rows := 0; processed_rows := 0;
     start_time := None; end_time := None; error_message := None |}.

(** What [get_classification_prompt] is given, and the text appended to
    what it returns. The reference tables [TABLE8] to [TABLE11] are fixed
    when the module is loaded, so a prompt is determined by these. *)
Record Prompt := {
  prompt_complaint : string;
  prompt_risk_table : list row;
  prompt_suffix : string
}.

Definition get_classification_prompt (c : string) (t : list row) : Prompt :=
  {| prompt_complaint := c; prompt_risk_table := t; prompt_suffix := "" |}.

Definition prompt_add (p : Prompt) (text : string) : Prompt :=
  {| prompt_complaint := prompt_complaint p;
     prompt_risk_table := prompt_risk_table p;
     prompt_suffix := prompt_suffix p ++ text |}.

(** The module-level cache and the world outside the process:
    - [classification_cache], line 50;
    - [gemini n] is what the [n]-th call of
      [self.model.generate_content(prompt)] followed by [response.text]
      gives, a text or an exception;
    - [prompts] are the calls made so far;
    - [now] is the clock read by [datetime.now()]. *)
Record Env := {
  classification_cache : gmap string dict;
  gemini : nat -> result string;
  prompts : list Prompt;
  now : Z
}.

Definition set_cache (c : gmap string dict) (w : Env) : Env :=
  {| classification_cache := c; gemini := gemini w;
     prompts := prompts w; now := now w |}.

(** [datetime.now()] *)
Definition datetime_now (w : Env) : Z * Env :=
  (now w,
   {| classification_cache := classification_cache w; gemini := gemini w;
      prompts := prompts w; now := now w + 1 |}).

(** [self.model.generate_content(prompt)] and [response.text] *)
Definition generate_content (p : Prompt) (w : Env) : result string * Env :=
  (gemini w (length (prompts w)),
   {| classification_cache := classification_cache w; gemini := gemini w;
      prompts := prompts w ++ [p]; now := now w |}).

(** ** The scoring engine *)

(** [calculate_priority], lines 158-174. *)
Definition calculate_priority (impact urgency frequency controllability : Z)
  : result (float * string) :=
  priority_score ← int_truediv (impact * urgency * frequency) controllability;
  priority_score ← round2 priority_score;
  let priority_level :=
    if float_ge_int priority_score 60 then "P1 - Critical"
    else if float_ge_int priority_score 40 then "P2 - High"
    else if float_ge_int priority_score 20 then "P3 - Medium"
    else "P4 - Low" in
  Ok (priority_score, priority_level).

(** ** The classifier adapter *)

(** [get_cache_key], lines 99-104. *)
Definition get_cache_key (self : ProcessingSession) (complaint : string) : string :=
  let risk_table_str := json_dumps_sorted (risk_table self) in
  let combined := complaint ++ "|" ++ risk_table_str in
  md5_hexdigest combined.

(** [result[key] = max(1, min(5, int(result.get(key, 3))))] *)
Definition clamp_score (key : string) (result : dict) : Py.result dict :=
  n ← int (default (PyInt 3) (dict_get key result));
  Ok (dict_set key (PyInt (Z.max 1 (Z.min 5 n))) result).

(** Lines 123-132, and the same statements at lines 250-259: the text of
    the response without surrounding whitespace and markdown fence. *)
Definition clean_response (response_text : string) : string :=
  let response_text := strip response_text in
  let response_text :=
    if startswith response_text "```json" then slice_from 7 response_text
    else response_text in
  let response_text :=
    if startswith response_text "```" then slice_from 3 response_text
    else response_text in
  let response_text :=
    if endswith response_text "```" then slice_to_minus 3 response_text
    else response_text in
  strip response_text.

(** Lines 137-140 and 264-267. [result.get] exists only on a dict. *)
Definition clamp_scores (result : pyval) : Py.result dict :=
  match result with
  | PyDict result =>
    result ← clamp_score "impact_score" result;
    result ← clamp_score "urgency_score" result;
    result ← clamp_score "frequency_score" result;
    clamp_score "controllability_score" result
  | _ =>
    raise AttributeError
      ("'" ++ type_name result ++ "' object has no attribute 'get'")
  end.

(** What both loops do with the text of a response inside their [try]:
    lines 123-140 and 250-267. *)
Definition parse_response (response_text : string) : Py.result dict :=
  json_loads (clean_response response_text) ≫= clamp_scores.

(** [except (json.JSONDecodeError, KeyError, ValueError)] *)
Definition caught (e : exn) : bool :=
  match exn_cls e with
  | JSONDecodeError | KeyError | ValueError => true
  | _ => false
  end.

(** The dict of lines 149-156 and 270-277. *)
Definition fallback : dict :=
  [ ("risk_code", PyStr "ER-03");
    ("risk_description", PyStr "Unable to classify");
    ("impact_score", PyInt 3);
    ("urgency_score", PyInt 3);
    ("frequency_score", PyInt 3);
    ("controllability_score", PyInt 3) ].

(** [classify_complaint], lines 106-156. *)
Definition classify_complaint (self : ProcessingSession) (complaint : string)
    (w : Env) : result dict * Env :=
  let cache_key := get_cache_key self complaint in
  match classification_cache w !! cache_key with
  | Some cached => (Ok cached, w)
  | None =>
    let prompt := get_classification_prompt complaint (risk_table self) in
    let '(response, w) := generate_content prompt w in
    match response ≫= parse_response with
    | Ok result =>
        (Ok result, set_cache (<[cache_key := result]> (classification_cache w)) w)
    | Raise e => if caught e then (Ok fallback, w) else (Raise e, w)
    end
  end.

(** ** The processing loops *)

(** An argument of [calculate_priority] read from a classification. The
    scores of a classification are ints; the arithmetic of Python on other
    values is not modelled beyond its [TypeError]. *)
Definition score_arg (v : pyval) : result Z :=
  match v with
  | PyInt n => Ok n
  | PyBool b => Ok (if b then 1 else 0)
  | _ => raise TypeError ("unsupported operand type: '" ++ type_name v ++ "'")
  end.

(** Lines 188-206, and with other variable names lines 280-298. *)
Definition build_row (complaint : string) (classification : dict)
  : result ResultRow :=
  impact ← dict_item "impact_score" classification ≫= score_arg;
  urgency ← dict_item "urgency_score" classification ≫= score_arg;
  frequency ← dict_item "frequency_score" classification ≫= score_arg;
  controllability ← dict_item "controllability_score" classification ≫= score_arg;
  '(priority_score, priority_level) ←
    calculate_priority impact urgency frequency controllability;
  risk_code ← dict_item "risk_code" classification;
  risk_description ← dict_item "risk_description" classification;
  Ok {| complaint := complaint;
        risk_code := risk_code;
        risk_description := risk_description;
        impact_score := impact;
        urgency_score := urgency;
        frequency_score := frequency;
        controllability_score := controllability;
        priority_score := priority_score;
        priority_level := priority_level |}.

(** [self.results.append(result); self.processed_rows = i + 1] *)
Definition append_result (i : nat) (r : ResultRow) (self : ProcessingSession)
  : ProcessingSession :=
  set_processed_rows (i + 1) (set_results (results self ++ [r]) self).

(** One iteration of the loop of [process_complaints], lines 184-209. *)
Definition process_iteration (self : ProcessingSession) (i : nat)
    (complaint : string) (w : Env) : result ProcessingSession * Env :=
  let '(classification, w) := classify_complaint self complaint w in
  (row ← classification ≫= build_row complaint; Ok (append_result i row self), w).

(** [feedback_context], lines 229-230. *)
Definition feedback_context (feedback : string) : string :=
  String (chr 10) "User Feedback: " ++ feedback ++ String (chr 10) ""
  ++ "Please use this feedback to adjust your scoring and classifications when re-analyzing the complaints.".

(** One iteration of the loop of [reprocess_with_feedback], lines
    234-301. *)
Definition reprocess_iteration (feedback : string) (self : ProcessingSession)
    (i : nat) (complaint : string) (w : Env) : result ProcessingSession * Env :=
  let cache_key := get_cache_key self complaint in
  let w :=
    match classification_cache w !! cache_key with
    | Some _ => set_cache (delete cache_key (classification_cache w)) w
    | None => w
    end in
  let prompt :=
    prompt_add (get_classification_prompt complaint (risk_table self))
               (feedback_context feedback) in
  let '(response, w) := generate_content prompt w in
  let result :=
    match response ≫= parse_response with
    | Ok result => Ok result
    | Raise e => if caught e then Ok fallback else Raise e
    end in
  (row ← result ≫= build_row complaint; Ok (append_result i row self), w).

(** The statements before the [try] of both loops, lines 178-180 and
    224-226. *)
Definition begin_run (self : ProcessingSession) (w : Env)
  : ProcessingSession * Env :=
  let self := set_status processing self in
  let '(t, w) := datetime_now w in
  let self := set_start_time (Some t) self in
  (set_results [] self, w).

(** After the loop, lines 214-215 and 306-307. *)
Definition end_run (self : ProcessingSession) (w : Env)
  : ProcessingSession * Env :=
  let self := set_status completed self in
  let '(t, w) := datetime_now w in
  (set_end_time (Some t) self, w).

(** [except Exception as e], lines 217-220 and 309-312. *)
Definition fail_run (e : exn) (self : ProcessingSession) (w : Env)
  : ProcessingSession * Env :=
  let self := set_status error self in
  let self := set_error_message (Some (str_of_exn e)) self in
  let '(t, w) := datetime_now w in
  (set_end_time (Some t) self, w).

(** A run is one of the two coroutines; [None] is [process_complaints] and
    [Some feedback] is [reprocess_with_feedback(feedback)]. *)
Definition iteration (kind : option string) :=
  match kind with
  | None => process_iteration
  | Some feedback => reprocess_iteration feedback
  end.

(** The [for] loop over [enumerate(self.complaints)] from index [i] on; it
    stops at the first exception, which it returns with the session as
    it is then. *)
Fixpoint run_loop (kind : option string) (self : ProcessingSession) (i : nat)
    (todo : list string) (w : Env) : ProcessingSession * option exn * Env :=
  match todo with
  | [] => (self, None, w)
  | complaint :: todo =>
    match iteration kind self i complaint w with
    | (Ok self, w) => run_loop kind self (S i) todo w
    | (Raise e, w) => (self, Some e, w)
    end
  end.

(** A whole run, when nothing else happens to the session meanwhile. *)
Definition run (kind : option string) (self : ProcessingSession) (w : Env)
  : ProcessingSession * Env :=
  let '(self, w) := begin_run self w in
  match run_loop kind self 0 (complaints self) w with
  | (self, None, w) => end_run self w
  | (self, Some e, w) => fail_run e self w
  end.

(** [process_complaints], lines 176-220. *)
Definition process_complaints : ProcessingSession -> Env -> ProcessingSession * Env :=
  run None.

(** [reprocess_with_feedback], lines 222-312. *)
Definition reprocess_with_feedback (feedback : string)
  : ProcessingSession -> Env -> ProcessingSession * Env :=
  run (Some feedback).

(** ** The service: session store, background tasks, request handlers *)

(** A coroutine started by [background_tasks.add_task]. It holds the
    session object, not its id. [task_next] is [None] until the coroutine
    has started and [Some i] while it is suspended in
    [asyncio.sleep(0.1)] with [i] the index of the next complaint. *)
Record Task := {
  task_self : nat;
  task_kind : option string;
  task_next : option nat
}.

(** The process: the session objects by address, the module-level dict
    [sessions] (line 49) from session id to object, the cache and the
    outside world, and the coroutines in flight. *)
Record System := {
  heap : list ProcessingSession;
  sessions : gmap string nat;
  env : Env;
  tasks : list Task
}.

Definition initial (g : nat -> result string) (t0 : Z) : System :=
  {| heap := []; sessions := ∅;
     env := {| classification_cache := ∅; gemini := g; prompts := []; now := t0 |};
     tasks := [] |}.

(** A coroutine runs without interruption up to its next [await]: from
    its start through the first iteration, from one [asyncio.sleep] to
    the next, or from the last one to the end.  The result is the
    session, the environment and what is left of the coroutine. *)
Definition run_block (t : Task) (self : ProcessingSession) (w : Env)
  : ProcessingSession * Env * option Task :=
  let '(self, w, i) :=
    match task_next t with
    | None => let '(self, w) := begin_run self w in (self, w, 0%nat)
    | Some i => (self, w, i)
    end in
  match complaints self !! i with
  | Some complaint =>
    match iteration (task_kind t) self i complaint w with
    | (Ok self, w) =>
        (self, w,
         Some {| task_self := task_self t; task_kind := task_kind t;
                 task_next := Some (S i) |})
    | (Raise e, w) => let '(self, w) := fail_run e self w in (self, w, None)
    end
  | None => let '(self, w) := end_run self w in (self, w, None)
  end.

(** The event loop resumes the [n]-th coroutine. *)
Definition run_task (n : nat) (st : System) : System :=
  match tasks st !! n with
  | Some t =>
    match heap st !! task_self t with
    | Some self =>
      let '(self, w, t') := run_block t self (env st) in
      {| heap := <[task_self t := self]> (heap st);
         sessions := sessions st;
         env := w;
         tasks := match t' with
                  | Some t' => <[n := t']> (tasks st)
                  | None => delete n (tasks st)
                  end |}
    | None => st
    end
  | None => st
  end.

Inductive Response (A : Type) :=
  | OK (body : A)
  | HTTPException (status_code : Z) (detail : string).
Arguments OK {A} body.
Arguments HTTPException {A} status_code detail.

(** [sessions[session_id]] after the test [session_id not in sessions]. *)
Definition find_session (id : string) (st : System)
  : option (nat * ProcessingSession) :=
  a ← sessions st !! id; self ← heap st !! a; Some (a, self).

Definition add_task (t : Task) (st : System) : System :=
  {| heap := heap st; sessions := sessions st; env := env st;
     tasks := tasks st ++ [t] |}.

Definition set_env (w : Env) (st : System) : System :=
  {| heap := heap st; sessions := sessions st; env := w; tasks := tasks st |}.

Record UploadResponse := {
  up_session_id : string;
  up_complaints_count : nat;
  up_risk_table_loaded : bool
}.

(** [upload_files], lines 345-401, from the point where the two files are
    decoded: [session_id] is the identifier drawn by [uuid.uuid4()],
    [complaints] and [risk_table] are the lists read from the files. *)
Definition upload_files (session_id : string) (complaints : list string)
    (risk_table : list row) (st : System) : Response UploadResponse * System :=
  let session :=
    {| Layer2.session_id := session_id; created_at := now (env st);
       Layer2.complaints := complaints; Layer2.risk_table := risk_table;
       results := []; status := pending; total_rows := length complaints;
       processed_rows := 0; start_time := None; end_time := None;
       error_message := None |} in
  (OK {| up_session_id := session_id;
         up_complaints_count := total_rows session;
         up_risk_table_loaded := bool_decide (0 < length risk_table)%nat |},
   {| heap := heap st ++ [session];
      sessions := <[session_id := length (heap st)]> (sessions st);
      env := snd (datetime_now (env st));
      tasks := tasks st |}).

(** [start_processing], lines 404-431; the body is [total_rows]. *)
Definition start_processing (session_id : string) (st : System)
  : Response nat * System :=
  match find_session session_id st with
  | None => (HTTPException 404 "Session not found", st)
  | Some (a, session) =>
    if decide (status session = processing)
    then (HTTPException 400 "Processing already in progress", st)
    else if bool_decide (Layer2.complaints session = [])
    then (HTTPException 400 "No complaints to process", st)
    else if bool_decide (Layer2.risk_table session = [])
    then (HTTPException 400 "No risk table loaded", st)
    else
      (OK (total_rows session),
       add_task {| task_self := a; task_kind := None; task_next := None |} st)
  end.

(** [regenerate_results], lines 525-549; the body is the feedback. *)
Definition regenerate_results (session_id : string) (feedback : string)
    (st : System) : Response string * System :=
  match find_session session_id st with
  | None => (HTTPException 404 "Session not found", st)
  | Some (a, session) =>
    if bool_decide (results session = [])
    then (HTTPException 400 "No results to regenerate", st)
    else if String.eqb (strip feedback) ""
    then (HTTPException 400 "Please provide feedback", st)
    else
      (OK feedback,
       add_task {| task_self := a; task_kind := Some feedback; task_next := None |} st)
  end.

Record ProgressResponse := {
  pr_status : string;
  pr_total_rows : nat;
  pr_processed_rows : nat;
  pr_elapsed_seconds : Z;
  pr_error_message : option string
}.

(** [ProcessingSession.get_progress], lines 84-97. *)
Definition session_progress (self : ProcessingSession) (w : Env)
  : ProgressResponse * Env :=
  let '(elapsed, w) :=
    match start_time self with
    | Some start =>
      match end_time self with
      | Some e => (e - start, w)
      | None => let '(t, w) := datetime_now w in (t - start, w)
      end
    | None => (0, w)
    end in
  ({| pr_status := status_name (status self);
      pr_total_rows := total_rows self;
      pr_processed_rows := processed_rows self;
      pr_elapsed_seconds := elapsed;
      pr_error_message := error_message self |}, w).

(** [get_progress], lines 434-443. *)
Definition get_progress (session_id : string) (st : System)
  : Response ProgressResponse * System :=
  match find_session session_id st with
  | None => (HTTPException 404 "Session not found", st)
  | Some (_, session) =>
    let '(progress, w) := session_progress session (env st) in
    (OK progress, set_env w st)
  end.

Record ResultsResponse := {
  rr_session_id : string;
  rr_total_processed : nat;
  rr_results : list ResultRow;
  rr_processing_time_seconds : Z
}.

Definition not_complete (s : Status) : string :=
  "Processing not complete. Current status: " ++ status_name s.

(** [get_results], lines 446-465. Subtracting from a missing timestamp is
    a [TypeError], which the framework answers with status 500. *)
Definition get_results (session_id : string) (st : System)
  : Response ResultsResponse * System :=
  match find_session session_id st with
  | None => (HTTPException 404 "Session not found", st)
  | Some (_, session) =>
    if decide (status session = completed) then
      match start_time session, end_time session with
      | Some start, Some e =>
        (OK {| rr_session_id := session_id;
               rr_total_processed := length (results session);
               rr_results := results session;
               rr_processing_time_seconds := e - start |}, st)
      | _, _ => (HTTPException 500 "Internal Server Error", st)
      end
    else (HTTPException 400 (not_complete (status session)), st)
  end.

(** A field handed to [csv.DictWriter.writerow]. *)
Inductive Cell :=
  | CellStr (s : string)
  | CellVal (v : pyval)
  | CellInt (n : Z)
  | CellFloat (f : float).

Definition fieldnames : list string :=
  [ "Complaint"; "Risk Code"; "Risk Description";
    "Impact Score"; "Urgency Score"; "Frequency Score"; "Controllability Score";
    "Priority Score"; "Priority Level" ].

(** The dict written for one result, lines 493-503. *)
Definition csv_record (r : ResultRow) : list (string * Cell) :=
  [ ("Complaint", CellStr (complaint r));
    ("Risk Code", CellVal (risk_code r));
    ("Risk Description", CellVal (risk_description r));
    ("Impact Score", CellInt (impact_score r));
    ("Urgency Score", CellInt (urgency_score r));
    ("Frequency Score", CellInt (frequency_score r));
    ("Controllability Score", CellInt (controllability_score r));
    ("Priority Score", CellFloat (priority_score r));
    ("Priority Level", CellStr (priority_level r)) ].

(** [download_results], lines 468-512. The body is the header and the
    records given to the CSV writer, in the order they are written; how
    the writer spells them as text is not modelled. *)
Definition download_results (session_id : string) (st : System)
  : Response (list string * list (list (string * Cell))) * System :=
  match find_session session_id st with
  | None => (HTTPException 404 "Session not found", st)
  | Some (_, session) =>
    if decide (status session = completed)
    then (OK (fieldnames, map csv_record (results session)),
          set_env (snd (datetime_now (env st))) st)
    else (HTTPException 400 (not_complete (status session)), st)
  end.

(** [delete_session], lines 515-522. *)
Definition delete_session (session_id : string) (st : System)
  : Response unit * System :=
  match sessions st !! session_id with
  | None => (HTTPException 404 "Session not found", st)
  | Some _ =>
    (OK tt,
     {| heap := heap st; sessions := delete session_id (sessions st);
        env := env st; tasks := tasks st |})
  end.

(** [get_cache_stats], lines 552-558. *)
Definition get_cache_stats (st : System) : Response (nat * nat) * System :=
  (OK (size (classification_cache (env st)), size (sessions st)), st).

(** [clear_cache], lines 561-565. *)
Definition clear_cache (st : System) : Response unit * System :=
  (OK tt, set_env (set_cache ∅ (env st)) st).

Inductive Request :=
  | Upload (session_id : string) (complaints : list string) (risk_table : list row)
  | StartProcessing (session_id : string)
  | GetProgress (session_id : string)
  | GetResults (session_id : string)
  | DownloadResults (session_id : string)
  | DeleteSession (session_id : string)
  | RegenerateResults (session_id : string) (feedback : string)
  | GetCacheStats
  | ClearCache.

(** The state after a request is handled. *)
Definition handle (r : Request) (st : System) : System :=
  match r with
  | Upload id cs t => snd (upload_files id cs t st)
  | StartProcessing id => snd (start_processing id st)
  | GetProgress id => snd (get_progress id st)
  | GetResults id => snd (get_results id st)
  | DownloadResults id => snd (download_results id st)
  | DeleteSession id => snd (delete_session id st)
  | RegenerateResults id fb => snd (regenerate_results id fb st)
  | GetCacheStats => snd (get_cache_stats st)
  | ClearCache => snd (clear_cache st)
  end.

(** The process handles a request or resumes a coroutine. *)
Inductive step : System -> System -> Prop :=
  | step_request (r : Request) (st : System) : step st (handle r st)
  | step_task (n : nat) (st : System) : step st (run_task n st).

(** The states the process can be in, whatever the model answers. *)
Inductive reachable : System -> Prop :=
  | reachable_initial g t0 : reachable (initial g t0)
  | reachable_step st st' : reachable st -> step st st' -> reachable st'.

(** The coroutines in flight on the session object at address [a]. *)
Definition runs_in_flight (a : nat) (st : System) : list Task :=
  filter (fun t => task_self t = a) (tasks st).

End Layer2.

(** * Part 3. Layer 1: the dataset session of [layer1/backend/main.py] *)

Module Layer1.
Import Py.

(** [s.split(sep)] for a non-empty separator. [cur] is the current piece,
    reversed. *)
Fixpoint split_from (fuel : nat) (sep : string) (cur : string) (s : string)
  : list string :=
  match fuel, s with
  | S fuel', String a r =>
    if startswith s sep
    then reverse cur :: split_from fuel' sep "" (drop (String.length sep) s)
    else split_from fuel' sep (String a cur) r
  | _, _ => [reverse cur]
  end.

Definition split (s sep : string) : list string :=
  split_from (S (String.length s)) sep "" s.

(** [sep in s] *)
Definition contains (s sep : string) : bool :=
  bool_decide (1 < length (split s sep))%nat.

(** The entries of [feedback_history] and [dataset_iterations]. *)
Record FeedbackEntry := {
  fb_iteration : nat;
  fb_feedback : string;
  fb_timestamp : Z
}.

Record DatasetIteration := {
  ds_iteration : nat;
  ds_dataset : string;
  ds_feedback : option string;
  ds_timestamp : Z
}.

(** The attributes of a [Session], lines 98-114. *)
Record Session := {
  session_id : string;
  created_at : Z;
  conversation_history : list (string * string);
  collected_data : dict;
  generated_dataset : option string;
  dataset_iterations : list DatasetIteration;
  feedback_history : list FeedbackEntry;
  current_iteration : nat
}.

(** The model and the clock. *)
Record Env := {
  gemini : nat -> result string;
  calls : nat;
  now : Z
}.

Definition datetime_now (w : Env) : Z * Env :=
  (now w, {| gemini := gemini w; calls := calls w; now := now w + 1 |}).

Definition generate_content (w : Env) : result string * Env :=
  (gemini w (calls w), {| gemini := gemini w; calls := S (calls w); now := now w |}).

(** [Session.__init__] *)
Definition new_session (id : string) (t : Z) : Session :=
  {| session_id := id; created_at := t; conversation_history := [];
     collected_data :=
       [ ("industry", PyNone); ("business_description", PyNone);
         ("target_customers", PyNone); ("main_products_services", PyNone);
         ("common_pain_points", PyNone); ("specific_terminology", PyNone) ];
     generated_dataset := None; dataset_iterations := [];
     feedback_history := []; current_iteration := 0 |}.

(** [is_data_complete], lines 151-154. *)
Definition is_data_complete (self : Session) : bool :=
  forallb
    (fun field =>
       match dict_get field (collected_data self) with
       | None | Some PyNone => false
       | Some _ => true
       end)
    [ "industry"; "business_description"; "target_customers";
      "main_products_services" ].

(** Lines 209-215 and 248-254: the text of the response without its
    markdown fence. *)
Definition clean_csv (text : string) : string :=
  let csv_content := strip text in
  if contains csv_content "```csv"
  then strip (nth 0 (split (nth 1 (split csv_content "```csv") "") "```") "")
  else if contains csv_content "```"
  then strip (nth 0 (split (nth 1 (split csv_content "```") "") "```") "")
  else csv_content.

(** [generate_dataset], lines 201-224. *)
Definition generate_dataset (self : Session) (w : Env)
  : result (option string) * Session * Env :=
  if negb (is_data_complete self) then (Ok None, self, w)
  else
    let '(response, w) := generate_content w in
    match response with
    | Raise e => (Raise e, self, w)
    | Ok text =>
      let csv_content := clean_csv text in
      let '(t, w) := datetime_now w in
      (Ok (Some csv_content),
       {| session_id := session_id self; created_at := created_at self;
          conversation_history := conversation_history self;
          collected_data := collected_data self;
          generated_dataset := Some csv_content;
          dataset_iterations :=
            dataset_iterations self
            ++ [ {| ds_iteration := current_iteration self;
                    ds_dataset := csv_content; ds_feedback := None;
                    ds_timestamp := t |} ];
          feedback_history := feedback_history self;
          current_iteration := current_iteration self |}, w)
    end.

(** [regenerate_dataset], lines 226-263. *)
Definition regenerate_dataset (feedback : string) (self : Session) (w : Env)
  : result (option string) * Session * Env :=
  if negb (is_data_complete self) then (Ok None, self, w)
  else
    let '(t, w) := datetime_now w in
    let self :=
      {| session_id := session_id self; created_at := created_at self;
         conversation_history := conversation_history self;
         collected_data := collected_data self;
         generated_dataset := generated_dataset self;
         dataset_iterations := dataset_iterations self;
         feedback_history :=
           feedback_history self
           ++ [ {| fb_iteration := current_iteration self;
                   fb_feedback := feedback; fb_timestamp := t |} ];
         current_iteration := current_iteration self + 1 |} in
    let '(response, w) := generate_content w in
    match response with
    | Raise e => (Raise e, self, w)
    | Ok text =>
      let csv_content := clean_csv text in
      let '(t, w) := datetime_now w in
      (Ok (Some csv_content),
       {| session_id := session_id self; created_at := created_at self;
          conversation_history := conversation_history self;
          collected_data := collected_data self;
          generated_dataset := Some csv_content;
          dataset_iterations :=
            dataset_iterations self
            ++ [ {| ds_iteration := current_iteration self;
                    ds_dataset := csv_content; ds_feedback := Some feedback;
                    ds_timestamp := t |} ];
          feedback_history := feedback_history self;
          current_iteration := current_iteration self |}, w)
    end.

End Layer1.

(** * Part 3b. Layer 2: reading the uploaded complaints

    [upload_files], lines 366-382, from the rows that [csv.reader] gives
    for the complaints file. *)

Module Layer2Upload.
Import Py.

(** The string has ASCII characters only. *)
Fixpoint is_ascii (s : string) : bool :=
  match s with
  | EmptyString => true
  | String a r => (code a <? 128) && is_ascii r
  end.

(** [s.lower()] for an ASCII string. *)
Fixpoint lower (s : string) : string :=
  match s with
  | EmptyString => ""
  | String a r =>
    String (if (65 <=? code a) && (code a <=? 90) then chr (code a + 32) else a)
           (lower r)
  end.

(** [any(c.isdigit() for c in s)] for an ASCII string. *)
Fixpoint any_digit (s : string) : bool :=
  match s with
  | EmptyString => false
  | String a r => is_digit a || any_digit r
  end.

(** [keyword in s], for a keyword that is not empty: the keyword is a
    prefix of [s] or of what follows one of its characters. *)
Fixpoint find_in (s keyword : string) : bool :=
  startswith s keyword
  || match s with
     | EmptyString => false
     | String _ r => find_in r keyword
     end.

Definition header_keywords : list string :=
  [ "complaint"; "text"; "message"; "review"; "comment";
    "feedback"; "description"; "content"; "negative"; "issue";
    "problem"; "concern"; "note"; "remark"; "observation" ].

(** The condition of line 378 on [first_row]. *)
Definition looks_like_header (first_row : string) : bool :=
  existsb (find_in first_row) header_keywords
  || ((String.length first_row <? 30)%nat && negb (any_digit first_row)).

(** An element of the list comprehension of line 381. *)
Definition complaint_of_row (row : list string) : option string :=
  match row with
  | cell :: _ => if String.eqb (strip cell) "" then None else Some (strip cell)
  | [] => None
  end.

(** Lines 367-381: the complaints read from the rows of the file. The
    case mapping and the digits of characters beyond ASCII are not
    modelled: the result is [None] when the first cell of the first row
    has such a character. *)
Definition complaints_of_rows (rows : list (list string)) : option (list string) :=
  match rows with
  | [] => Some []
  | row0 :: rest =>
    let cell := match row0 with cell :: _ => cell | [] => "" end in
    if is_ascii cell then
      let first_row := strip (lower cell) in
      let rows := if looks_like_header first_row then rest else rows in
      Some (omap complaint_of_row rows)
    else None
  end.

(** [upload_files], lines 345-401, from the rows of the complaints file
    and the rows of the risk table. *)
Definition upload_rows (session_id : string) (rows : list (list string))
    (risk_table : list row) (st : Layer2.System)
  : option (Layer2.Response Layer2.UploadResponse * Layer2.System) :=
  complaints ← complaints_of_rows rows;
  Some (Layer2.upload_files session_id complaints risk_table st).

End Layer2Upload.

(** * Part 4. Statements

    The predicates and the concrete data the theorems of part 5 are
    stated with. *)

Import Py Layer2.

(** ** Floats *)

Definition is_nan (x : float) : bool :=
  match x with
  | S754_nan => true
  | _ => false
  end.

(** The order of [SFcompare] seen through a key: the sign class, then the
    exponent, then the mantissa. *)
Definition float_key (x : float) : Z * Z * Z :=
  match x with
  | S754_nan => (0, 0, 0)
  | S754_zero _ => (0, 0, 0)
  | S754_infinity s => (if s then -2 else 2, 0, 0)
  | S754_finite s m e => if s then (-1, - e, - Zpos m) else (1, e, Zpos m)
  end.

Definition key_compare (x y : Z * Z * Z) : comparison :=
  let '(a1, b1, c1) := x in
  let '(a2, b2, c2) := y in
  match a1 ?= a2 with
  | Eq => match b1 ?= b2 with Eq => c1 ?= c2 | r => r end
  | r => r
  end.

(** A zero, or a finite number of magnitude below [2^K] whose exponent
    is one of a double. *)
Definition finite_below (K : Z) (x : float) : Prop :=
  match x with
  | S754_zero _ => True
  | S754_finite _ m e => e <= 971 /\ Zpos m < 2 ^ (K - e)
  | _ => False
  end.

(** ** Priority bands *)

(** The level the chain of comparisons of lines 165-172 gives. *)
Definition level_of (score : float) : string :=
  if float_ge_int score 60 then "P1 - Critical"
  else if float_ge_int score 40 then "P2 - High"
  else if float_ge_int score 20 then "P3 - Medium"
  else "P4 - Low".

(** The four bands of the module docstring, lines 9-13. *)
Definition in_band (score : float) (level : string) : Prop :=
  (float_ge_int score 60 = true /\ level = "P1 - Critical")
  \/ (float_ge_int score 40 = true /\ float_lt_int score 60 = true
      /\ level = "P2 - High")
  \/ (float_ge_int score 20 = true /\ float_lt_int score 40 = true
      /\ level = "P3 - Medium")
  \/ (float_lt_int score 20 = true /\ level = "P4 - Low").

(** ** Classifications and rows *)

Definition score_keys : list string :=
  [ "impact_score"; "urgency_score"; "frequency_score"; "controllability_score" ].

Definition valid_score (n : Z) : Prop := 1 <= n <= 5.

Definition score_ok (d : dict) (key : string) : Prop :=
  exists n, dict_get key d = Some (PyInt n) /\ valid_score n.

Definition classification_ok (d : dict) : Prop := Forall (score_ok d) score_keys.

Definition row_ok (r : ResultRow) : Prop :=
  valid_score (impact_score r) /\ valid_score (urgency_score r)
  /\ valid_score (frequency_score r) /\ valid_score (controllability_score r).

Definition cache_ok (c : gmap string dict) : Prop :=
  forall key d, c !! key = Some d -> classification_ok d.

(** The score under [key] as [int] sees it at lines 137-140. *)
Definition score_int (d : dict) (key : string) : result Z :=
  int (default (PyInt 3) (dict_get key d)).

(** A computation that raises nothing but what the adapter catches. *)
Definition only_caught {A} (r : result A) : Prop :=
  forall e, r = Raise e -> caught e = true.

(** The row of a complaint that fell back to the default classification. *)
Definition fallback_row (complaint : string) : ResultRow :=
  {| Layer2.complaint := complaint;
     risk_code := PyStr "ER-03";
     risk_description := PyStr "Unable to classify";
     impact_score := 3; urgency_score := 3; frequency_score := 3;
     controllability_score := 3;
     priority_score := float_of_Z 9;
     priority_level := "P4 - Low" |}.

Definition scores_of (d : dict) : list (option pyval) :=
  map (fun k => dict_get k d) score_keys.

Definition row_scores (r : ResultRow) : list Z :=
  [impact_score r; urgency_score r; frequency_score r; controllability_score r].

(** ** The cache *)

(** The fingerprint of the complaint and risk table of a prompt. *)
Definition prompt_key (p : Prompt) : string :=
  md5_hexdigest (prompt_complaint p ++ "|" ++ json_dumps_sorted (prompt_risk_table p)).

(** [d] is the decoded answer to a call made without feedback for the
    complaint and risk table with fingerprint [key]. *)
Definition live_result (w : Env) (key : string) (d : dict) : Prop :=
  exists n p text,
    prompts w !! n = Some p /\ prompt_suffix p = "" /\ prompt_key p = key
    /\ gemini w n = Ok text /\ parse_response text = Ok d.

Definition cache_live (w : Env) : Prop :=
  forall key d, classification_cache w !! key = Some d -> live_result w key d.

(** From [w] to [w'] the model is the same, calls were only added, and
    every new cache entry is a live result. *)
Definition evolves (w w' : Env) : Prop :=
  gemini w' = gemini w
  /\ prompts w `prefix_of` prompts w'
  /\ forall key d, classification_cache w' !! key = Some d ->
       classification_cache w !! key = Some d \/ live_result w' key d.

(** Two dicts of a risk table are equal in Python when they hold the same
    items, in whatever order the keys were inserted. *)
Definition same_row (r1 r2 : row) : Prop := NoDup (fst <$> r1) /\ r1 ≡ₚ r2.

Definition same_table (t1 t2 : list row) : Prop := Forall2 same_row t1 t2.

(** ** Sessions and the service *)

Definition session_ok (self : ProcessingSession) : Prop := Forall row_ok (results self).

(** A completed session has both its timestamps. *)
Definition times_ok (self : ProcessingSession) : Prop :=
  status self = completed -> is_Some (start_time self) /\ is_Some (end_time self).

(** A coroutine that has started has set the start time of its session. *)
Definition task_ok (objects : list ProcessingSession) (t : Task) : Prop :=
  exists self, objects !! task_self t = Some self
               /\ (is_Some (task_next t) -> is_Some (start_time self)).

Definition invariant (st : System) : Prop :=
  cache_live (env st)
  /\ Forall session_ok (heap st)
  /\ Forall times_ok (heap st)
  /\ Forall (task_ok (heap st)) (tasks st).

(** Two environments in which the model is at the same point. *)
Definition same_calls (w1 w2 : Env) : Prop :=
  gemini w1 = gemini w2 /\ length (prompts w1) = length (prompts w2)
  /\ now w1 = now w2.

(** A layer-2 session that counted its feedback runs and logged their
    feedback text would have two such observations. *)
Definition feedback_is_recorded : Prop :=
  exists (iteration : ProcessingSession -> nat)
         (feedback_log : ProcessingSession -> list string),
    forall feedback self w,
      status self = completed -> results self <> [] -> strip feedback <> "" ->
      let self' := fst (reprocess_with_feedback feedback self w) in
      iteration self' = S (iteration self)
      /\ feedback_log self' = (feedback_log self ++ [feedback])%list.

(** ** Concrete data *)

(** Text with an apostrophe wherever the JSON text has a double quote. *)
Fixpoint json_text (s : string) : string :=
  match s with
  | EmptyString => ""
  | String a r => String (if code a =? 39 then chr 34 else a) (json_text r)
  end.

Definition example_table : list row :=
  [ [ ("Risk Code", Some "OP-01"); ("Impact Score", Some "3");
      ("Description", Some "Late delivery") ] ].

(** The same risk table, its keys inserted in another order. *)
Definition reordered_table : list row :=
  [ [ ("Impact Score", Some "3"); ("Risk Code", Some "OP-01");
      ("Description", Some "Late delivery") ] ].

Definition example_session : ProcessingSession :=
  {| session_id := "s1"; created_at := 0; complaints := ["late"; "rude"];
     risk_table := example_table; results := []; status := pending;
     total_rows := 2; processed_rows := 0; start_time := None; end_time := None;
     error_message := None |}.

Definition reordered_session : ProcessingSession :=
  {| session_id := "s2"; created_at := 0; complaints := ["rude"];
     risk_table := reordered_table; results := []; status := pending;
     total_rows := 1; processed_rows := 0; start_time := None; end_time := None;
     error_message := None |}.

(** An environment with an empty cache in which the model answers by [g]. *)
Definition env_with (g : nat -> result string) : Env :=
  {| classification_cache := ∅; gemini := g; prompts := []; now := 1 |}.

Definition out_of_range_response : string :=
  json_text "{'risk_code': 'OP-01', 'risk_description': 'Late delivery', 'impact_score': 9, 'urgency_score': -1, 'frequency_score': 3, 'controllability_score': 3}".

Definition in_range_response : string :=
  json_text "```json
{'risk_code': 'OP-02', 'risk_description': 'Rude staff', 'impact_score': 4, 'urgency_score': 4, 'frequency_score': 2, 'controllability_score': 1}
```".

Definition missing_scores_response : string :=
  json_text "{'risk_code': 'OP-01', 'risk_description': 'Late delivery'}".

Definition unparsable_response : string := "Sorry, I cannot help with that.".

(** A model that answers the first call with text that is no JSON, the
    second with a classification, and cannot be reached after that. *)
Definition retry_answers (n : nat) : result string :=
  match n with
  | 0%nat => Ok unparsable_response
  | 1%nat => Ok in_range_response
  | _ => raise UpstreamError "503 Service Unavailable"
  end.

(** The service after an upload, a start request and the first step of
    the run: the session is processing and has one row. *)
Definition mid_run : System :=
  run_task 0
    (handle (StartProcessing "s1")
       (handle (Upload "s1" ["late"; "rude"] example_table)
          (initial retry_answers 0))).

(** The same service when the run is over. *)
Definition done_run : System := run_task 0 (run_task 0 mid_run).

Definition done_session : ProcessingSession :=
  default example_session (heap done_run !! 0%nat).

(** The session and the environment after a first run of
    [process_complaints]. *)
Definition completed_session : ProcessingSession :=
  fst (process_complaints example_session (env_with retry_answers)).

Definition completed_env : Env :=
  snd (process_complaints example_session (env_with retry_answers)).

(** A layer-1 session whose checklist is complete and that has a dataset. *)
Definition dataset_session : Layer1.Session :=
  {| Layer1.session_id := "d1"; Layer1.created_at := 0;
     Layer1.conversation_history := [];
     Layer1.collected_data :=
       [ ("industry", PyStr "retail"); ("business_description", PyStr "shop");
         ("target_customers", PyStr "consumers");
         ("main_products_services", PyStr "groceries");
         ("common_pain_points", PyNone); ("specific_terminology", PyNone) ];
     Layer1.generated_dataset := Some "Risk Code,Impact Score,Description";
     Layer1.dataset_iterations := [];
     Layer1.feedback_history := [];
     Layer1.current_iteration := 0 |}.

Definition dataset_env : Layer1.Env :=
  {| Layer1.gemini := fun _ => Ok "Risk Code,Impact Score,Description";
     Layer1.calls := 0; Layer1.now := 7 |}.

(** * Part 4b. Further statements

    The predicates and the concrete data of the theorems of part 6. *)

Import Layer2Upload.

(** ** Sound sessions *)

(** The priority of a row is the one [calculate_priority] gives for its
    four scores. *)
Definition row_consistent (r : ResultRow) : Prop :=
  calculate_priority (impact_score r) (urgency_score r) (frequency_score r)
                     (controllability_score r)
  = Ok (priority_score r, priority_level r).

(** The session is as [upload_files] made it, but for its status. *)
Definition untouched (self : ProcessingSession) : Prop :=
  results self = [] /\ processed_rows self = 0%nat /\ start_time self = None
  /\ end_time self = None /\ error_message self = None.

Definition session_sound (self : ProcessingSession) : Prop :=
  Forall row_consistent (results self)
  /\ total_rows self = length (complaints self)
  /\ (processed_rows self <= total_rows self)%nat
  /\ (status self = pending -> untouched self)
  /\ (status self = error -> is_Some (error_message self) /\ is_Some (end_time self)).

(** A coroutine that has started is in flight on the object at [a]. *)
Definition has_run_in_flight (st : System) (a : nat) : Prop :=
  exists t, t ∈ tasks st /\ task_self t = a /\ is_Some (task_next t).

Definition sound (st : System) : Prop :=
  Forall session_sound (heap st)
  /\ (forall a self, heap st !! a = Some self -> status self = processing ->
        has_run_in_flight st a)
  /\ (forall t self, t ∈ tasks st -> is_Some (task_next t) ->
        heap st !! task_self t = Some self -> status self <> pending)
  /\ (forall t, t ∈ tasks st -> (task_self t < length (heap st))%nat)
  /\ (forall id a, sessions st !! id = Some a -> (a < length (heap st))%nat).

Definition priority_levels : list string :=
  [ "P1 - Critical"; "P2 - High"; "P3 - Medium"; "P4 - Low" ].

(** The service when the completed session of [done_run] has been started
    again and the model could not be reached. *)
Definition failed_rerun : System :=
  run_task 0 (handle (StartProcessing "s1") done_run).

Definition failed_session : ProcessingSession :=
  default example_session (heap failed_rerun !! 0%nat).

(** The characters of [s] are ASCII whitespace: tab, line feed, vertical
    tab, form feed, carriage return, the separators U+001C to U+001F and
    the space. *)
Fixpoint is_blank (s : string) : bool :=
  match s with
  | EmptyString => true
  | String a r => space1 (code a) && is_blank r
  end.

(** The state without the entry of [id] in [sessions]. *)
Definition forget (id : string) (st : System) : System :=
  {| heap := heap st; sessions := delete id (sessions st);
     env := env st; tasks := tasks st |}.

Definition not_found {A} : Response A := HTTPException 404 "Session not found".

(** The level by the thresholds on the exact quotient [p / c], for
    [0 < c]. *)
Definition exact_level (p c : Z) : string :=
  if 60 * c <=? p then "P1 - Critical"
  else if 40 * c <=? p then "P2 - High"
  else if 20 * c <=? p then "P3 - Medium"
  else "P4 - Low".

(** 1 for the most urgent level, 4 for the least. *)
Definition level_rank (level : string) : nat :=
  if String.eqb level "P1 - Critical" then 1
  else if String.eqb level "P2 - High" then 2
  else if String.eqb level "P3 - Medium" then 3
  else 4.

(** The level [calculate_priority] gives, when it gives one. *)
Definition priority_level_of (i u f c : Z) : option string :=
  match calculate_priority i u f c with
  | Ok (_, level) => Some level
  | Raise _ => None
  end.

Definition score_range : list Z := [1; 2; 3; 4; 5].

(** On all tuples of scores from 1 to 5, the level is the exact one. *)
Definition levels_exact_on_range : bool :=
  forallb (fun i => forallb (fun u => forallb (fun f => forallb (fun c =>
    match priority_level_of i u f c with
    | Some level => String.eqb level (exact_level (i * u * f) c)
    | None => false
    end) score_range) score_range) score_range) score_range.

(** [s] does not begin with whitespace (does not end with it, for the
    reversed string and [back]). *)
Definition no_lead (back : bool) (s : string) : bool :=
  match s with
  | String a s1 =>
    negb (space1 (code a))
    && match s1 with
       | String b s2 =>
         negb (if back then space2 (code b) (code a) else space2 (code a) (code b))
         && match s2 with
            | String c _ =>
              negb (if back then space3 (code c) (code b) (code a)
                    else space3 (code a) (code b) (code c))
            | EmptyString => true
            end
       | EmptyString => true
       end
  | EmptyString => true
  end.

(** The text begins with an opening brace and ends with a closing one,
    as the text of a JSON object does. *)
Definition braced (body : string) : Prop :=
  startswith body "{" = true /\ endswith body "}" = true.

(** The counter of a layer-1 session is the number of feedback texts it
    has logged, the entries of the log are numbered from 0, and no dataset
    has a number beyond the counter. *)
Definition counted (self : Layer1.Session) : Prop :=
  Layer1.current_iteration self = length (Layer1.feedback_history self)
  /\ (forall k e, Layer1.feedback_history self !! k = Some e ->
                  Layer1.fb_iteration e = k)
  /\ Forall (fun d => (Layer1.ds_iteration d <= Layer1.current_iteration self)%nat)
            (Layer1.dataset_iterations self).

(** The service after the upload of [example_session]. *)
Definition uploaded : System :=
  handle (Upload "s1" ["late"; "rude"] example_table) (initial retry_answers 0).

(** The rows of a complaints file: a header, a complaint between spaces,
    an empty line, a blank cell, and a row of two cells. *)
Definition example_rows : list (list string) :=
  [ ["Complaint"]; [" late "]; []; ["  "]; ["rude"; "x"] ].

(** * Part 5. Properties *)

(** ** The order of floats *)

Lemma compare_cont_Eq (p q : positive) :
  PosDef.Pos.compare_cont Eq p q = Pos.compare p q.
Proof. reflexivity. Qed.

Lemma SFcompare_antisym (a b : float) :
  SFcompare b a = option_map CompOpp (SFcompare a b).
Proof.
  destruct a as [sa|sa| |sa ma ea], b as [sb|sb| |sb mb eb]; simpl; try reflexivity;
    try (destruct sa; reflexivity); try (destruct sb; reflexivity);
    try (destruct sa, sb; reflexivity).
  rewrite !compare_cont_Eq, (Z.compare_antisym ea eb), (Pos.compare_antisym ma mb).
  destruct sa, sb; simpl; try reflexivity;
    destruct (ea ?= eb); simpl; try reflexivity;
    destruct (ma ?= mb)%positive; reflexivity.
Qed.

Lemma SFleb_negb_ltb (a b : float) :
  is_nan a = false -> is_nan b = false -> SFleb a b = negb (SFltb b a).
Proof.
  intros Ha Hb. unfold SFleb, SFltb. rewrite (SFcompare_antisym a b).
  destruct (SFcompare a b) as [[]|] eqn:E; simpl; try reflexivity.
  destruct a, b; simpl in *; try discriminate;
    repeat match goal with s : bool |- _ => destruct s end; discriminate.
Qed.

Lemma SFcompare_key (a b : float) :
  is_nan a = false -> is_nan b = false ->
  SFcompare a b = Some (key_compare (float_key a) (float_key b)).
Proof.
  intros Ha Hb.
  destruct a as [sa|sa| |sa ma ea], b as [sb|sb| |sb mb eb]; try discriminate;
    simpl; try (destruct sa; reflexivity); try (destruct sb; reflexivity);
    try (destruct sa, sb; reflexivity).
  rewrite compare_cont_Eq.
  destruct sa, sb; try reflexivity; unfold float_key, key_compare.
  rewrite Z.compare_refl, Z.compare_opp, (Z.compare_antisym ea eb).
  destruct (ea ?= eb); reflexivity.
Qed.

Lemma key_compare_le_trans (x y z : Z * Z * Z) :
  key_compare x y <> Gt -> key_compare y z <> Gt -> key_compare x z <> Gt.
Proof.
  destruct x as [[a1 b1] c1], y as [[a2 b2] c2], z as [[a3 b3] c3]. unfold key_compare.
  destruct (Z.compare_spec a1 a2), (Z.compare_spec a2 a3), (Z.compare_spec a1 a3);
    try lia; try congruence;
  destruct (Z.compare_spec b1 b2), (Z.compare_spec b2 b3), (Z.compare_spec b1 b3);
    try lia; try congruence;
  destruct (Z.compare_spec c1 c2), (Z.compare_spec c2 c3), (Z.compare_spec c1 c3);
    try lia; try congruence.
Qed.

Lemma SFleb_key (a b : float) :
  is_nan a = false -> is_nan b = false ->
  SFleb a b = true <-> key_compare (float_key a) (float_key b) <> Gt.
Proof.
  intros Ha Hb. unfold SFleb. rewrite (SFcompare_key a b Ha Hb).
  destruct (key_compare _ _); split; congruence.
Qed.

Lemma SFleb_not_nan (a b : float) :
  SFleb a b = true -> is_nan a = false /\ is_nan b = false.
Proof. destruct a, b; simpl; try discriminate; auto. Qed.

Lemma SFleb_trans (a b c : float) :
  SFleb a b = true -> SFleb b c = true -> SFleb a c = true.
Proof.
  intros H1 H2.
  destruct (SFleb_not_nan _ _ H1) as [Ha Hb], (SFleb_not_nan _ _ H2) as [_ Hc].
  apply SFleb_key; auto. apply SFleb_key in H1, H2; auto.
  eapply key_compare_le_trans; eauto.
Qed.

(** ** Rounding to a double: no NaN, and no overflow below [2^1023] *)

Lemma shr_1_nonneg mrs : 0 <= shr_m mrs -> 0 <= shr_m (shr_1 mrs).
Proof.
  destruct mrs as [m r s]. simpl. intros H.
  destruct m as [|p|p]; simpl; try lia; destruct p; simpl; lia.
Qed.

Lemma iter_pos_inv {A} (P : A -> Prop) (f : A -> A) :
  (forall x, P x -> P (f x)) -> forall n x, P x -> P (SpecFloat.iter_pos f n x).
Proof.
  intros Hf. induction n as [n IH|n IH|]; simpl; intros x Hx; auto.
Qed.

Lemma shr_nonneg mrs e n : 0 <= shr_m mrs -> 0 <= shr_m (fst (shr mrs e n)).
Proof.
  intros H. unfold shr. destruct n; simpl; auto.
  apply (iter_pos_inv (fun r => 0 <= shr_m r)); auto using shr_1_nonneg.
Qed.

Lemma shr_fexp_nonneg m e l :
  0 <= m -> 0 <= shr_m (fst (shr_fexp prec emax m e l)).
Proof.
  intros H. unfold shr_fexp. apply shr_nonneg.
  destruct l as [|[]]; simpl; exact H.
Qed.

Lemma round_nearest_even_nonneg m l : 0 <= m -> 0 <= round_nearest_even m l.
Proof.
  intros H. unfold round_nearest_even.
  destruct l as [|[]]; try lia. destruct (Z.even m); lia.
Qed.

Lemma binary_round_aux_not_nan s m e l :
  0 <= m -> is_nan (binary_round_aux prec emax s m e l) = false.
Proof.
  intros H. unfold binary_round_aux.
  pose proof (shr_fexp_nonneg m e l H) as H1.
  destruct (shr_fexp prec emax m e l) as [mrs' e'] eqn:E1. simpl in H1.
  pose proof (shr_fexp_nonneg _ e' loc_Exact
                (round_nearest_even_nonneg _ (loc_of_shr_record mrs') H1)) as H2.
  destruct (shr_fexp prec emax _ e' loc_Exact) as [mrs'' e''] eqn:E2. simpl in H2.
  destruct (shr_m mrs''); try lia; try reflexivity.
  destruct (e'' <=? emax - prec); reflexivity.
Qed.

Lemma SFdiv_finite_not_nan s1 m1 e1 s2 m2 e2 :
  is_nan (SFdiv prec emax (S754_finite s1 m1 e1) (S754_finite s2 m2 e2)) = false.
Proof.
  unfold SFdiv, SFdiv_core_binary.
  set (m' := match _ - _ - _ with Z0 => Zpos m1 | Zpos _ => _ | Zneg _ => _ end).
  assert (0 <= m') as Hm'.
  { subst m'. destruct (_ - _ - _); try lia. apply Z.shiftl_nonneg. lia. }
  pose proof (Z.div_pos m' (Zpos m2) Hm' eq_refl) as Hq.
  unfold Z.div in Hq. destruct (Z.div_eucl m' (Zpos m2)) as [q r].
  apply binary_round_aux_not_nan. exact Hq.
Qed.

Ltac case_SFdiv H :=
  match type of H with
  | context [SFdiv ?a ?b (S754_finite ?s1 ?m1 ?e1) (S754_finite ?s2 ?m2 ?e2)] =>
    let Hn := fresh "Hn" in
    pose proof (SFdiv_finite_not_nan s1 m1 e1 s2 m2 e2) as Hn;
    destruct (SFdiv a b (S754_finite s1 m1 e1) (S754_finite s2 m2 e2));
    try discriminate H; try discriminate Hn
  end.

Lemma int_truediv_not_nan p c q : int_truediv p c = Ok q -> is_nan q = false.
Proof.
  unfold int_truediv. intros H.
  destruct c; [discriminate H| |];
    (destruct p; [injection H as <-; reflexivity| |]);
    cbv beta iota in H; case_SFdiv H; injection H as <-; reflexivity.
Qed.

Lemma round2_not_nan x r : is_nan x = false -> round2 x = Ok r -> is_nan r = false.
Proof.
  unfold round2. intros Hx H.
  destruct x as [s|s| |s m e]; try discriminate Hx; try (injection H as <-; reflexivity).
  destruct (hundredths m e); try (injection H as <-; reflexivity).
  case_SFdiv H; injection H as <-; reflexivity.
Qed.

Lemma digits2_pos_bounds p :
  2 ^ (Zpos (digits2_pos p) - 1) <= Zpos p < 2 ^ Zpos (digits2_pos p).
Proof.
  induction p as [p IH|p IH|]; simpl digits2_pos.
  - rewrite (Pos2Z.inj_succ (digits2_pos p)), (Pos2Z.inj_xI p).
    replace (Z.succ (Zpos (digits2_pos p)) - 1) with (Z.succ (Zpos (digits2_pos p) - 1)) by lia.
    rewrite !Z.pow_succ_r by lia. lia.
  - rewrite (Pos2Z.inj_succ (digits2_pos p)), (Pos2Z.inj_xO p).
    replace (Z.succ (Zpos (digits2_pos p)) - 1) with (Z.succ (Zpos (digits2_pos p) - 1)) by lia.
    rewrite !Z.pow_succ_r by lia. lia.
  - simpl. lia.
Qed.

Lemma Zdigits2_le m k : 0 <= m -> 0 <= k -> m < 2 ^ k -> Zdigits2 m <= k.
Proof.
  intros Hm Hk H. destruct m as [|p|p]; simpl; try lia.
  destruct (digits2_pos_bounds p) as [Hlo _].
  destruct (Z_le_gt_dec (Zpos (digits2_pos p)) k) as [|Hgt]; [assumption|].
  assert (2 ^ k <= 2 ^ (Zpos (digits2_pos p) - 1)) by (apply Z.pow_le_mono_r; lia).
  lia.
Qed.

Lemma shr_1_m r : 0 <= shr_m r -> shr_m (shr_1 r) = Z.div2 (shr_m r).
Proof.
  destruct r as [m a b]. simpl. intros H.
  destruct m as [|p|p]; try lia; try reflexivity; destruct p; reflexivity.
Qed.

Lemma iter_pos_count {A} (Q : Z -> A -> Prop) (f : A -> A) :
  (forall k x, 0 <= k -> Q k x -> Q (k + 1) (f x)) ->
  forall n k x, 0 <= k -> Q k x -> Q (k + Zpos n) (SpecFloat.iter_pos f n x).
Proof.
  intros Hf. induction n as [n IH|n IH|]; intros k x Hk Hx; simpl.
  - replace (k + Zpos n~1) with (k + 1 + Zpos n + Zpos n) by lia.
    apply IH; [lia|]. apply IH; [lia|]. apply Hf; auto.
  - replace (k + Zpos n~0) with (k + Zpos n + Zpos n) by lia.
    apply IH; [lia|]. apply IH; auto.
  - apply Hf; auto.
Qed.

Lemma shr_1_step (m0 : Z) k x :
  0 <= k -> 0 <= shr_m x /\ shr_m x * 2 ^ k <= m0 ->
  0 <= shr_m (shr_1 x) /\ shr_m (shr_1 x) * 2 ^ (k + 1) <= m0.
Proof.
  intros Hk [H1 H2]. rewrite shr_1_m by assumption.
  rewrite Z.div2_div, Z.pow_add_r by lia.
  pose proof (Z.div_pos (shr_m x) 2 H1 eq_refl).
  pose proof (Z.mul_div_le (shr_m x) 2 eq_refl).
  split; [assumption|].
  change (2 ^ 1) with 2.
  assert (0 <= 2 ^ k) by (apply Z.pow_nonneg; lia). nia.
Qed.

Lemma shr_bound r e n :
  0 <= shr_m r ->
  0 <= shr_m (fst (shr r e n))
  /\ snd (shr r e n) = e + Z.max 0 n
  /\ shr_m (fst (shr r e n)) * 2 ^ Z.max 0 n <= shr_m r.
Proof.
  intros Hr. unfold shr. destruct n as [|p|p].
  - cbn [fst snd]. change (Z.max 0 0) with 0. rewrite Z.pow_0_r. lia.
  - cbn [fst snd]. replace (Z.max 0 (Zpos p)) with (Zpos p) by lia.
    destruct (iter_pos_count
                (fun k x => 0 <= shr_m x /\ shr_m x * 2 ^ k <= shr_m r) shr_1
                (shr_1_step (shr_m r)) p 0 r) as [H1 H2]; [lia| |].
    + rewrite Z.pow_0_r. lia.
    + rewrite Z.add_0_l in H2. auto.
  - cbn [fst snd]. change (Z.max 0 (Zneg p)) with 0. rewrite Z.pow_0_r. lia.
Qed.

Lemma fexp_eq x : fexp prec emax x = Z.max (x - 53) (-1074).
Proof. reflexivity. Qed.

Lemma shr_record_of_loc_m m l : shr_m (shr_record_of_loc m l) = m.
Proof. destruct l as [|[]]; reflexivity. Qed.

(** A mantissa below [2^(K - e)] stays so when it is brought to the
    exponent of its format, and that exponent is no overflow. *)
Lemma shr_fexp_bound m e l K :
  0 <= m -> e <= 971 -> 972 <= K <= 1024 -> m < 2 ^ (K - e) ->
  0 <= shr_m (fst (shr_fexp prec emax m e l))
  /\ snd (shr_fexp prec emax m e l) <= 971
  /\ shr_m (fst (shr_fexp prec emax m e l)) < 2 ^ (K - snd (shr_fexp prec emax m e l)).
Proof.
  intros Hm He HK Hlt. unfold shr_fexp.
  pose proof (Zdigits2_le m (K - e) Hm ltac:(lia) Hlt) as Hd.
  rewrite fexp_eq.
  set (n := Z.max (Zdigits2 m + e - 53) (-1074) - e).
  destruct (shr_bound (shr_record_of_loc m l) e n) as (H1 & H2 & H3).
  { rewrite shr_record_of_loc_m. exact Hm. }
  rewrite shr_record_of_loc_m in H3. rewrite H2.
  set (m1 := shr_m (fst (shr (shr_record_of_loc m l) e n))) in *.
  split; [exact H1|]. split; [subst n; lia|].
  assert (0 <= Z.max 0 n) as Hn by lia.
  assert (Z.max 0 n <= K - e) as Hn' by (subst n; lia).
  replace (K - e) with ((K - (e + Z.max 0 n)) + Z.max 0 n) in Hlt by lia.
  rewrite Z.pow_add_r in Hlt by lia.
  assert (0 < 2 ^ Z.max 0 n) by (apply Z.pow_pos_nonneg; lia).
  nia.
Qed.

Lemma round_nearest_even_le m l : round_nearest_even m l <= m + 1.
Proof.
  unfold round_nearest_even. destruct l as [|[]]; try lia. destruct (Z.even m); lia.
Qed.

Lemma binary_round_aux_bound s m e l K :
  0 <= m -> e <= 971 -> 972 <= K <= 1023 -> m < 2 ^ (K - e) ->
  finite_below (K + 1) (binary_round_aux prec emax s m e l).
Proof.
  intros Hm He HK Hlt. unfold binary_round_aux.
  destruct (shr_fexp_bound m e l K Hm He ltac:(lia) Hlt) as (H1 & H2 & H3).
  destruct (shr_fexp prec emax m e l) as [r1 e1]. cbn [fst snd] in H1, H2, H3.
  set (m1 := round_nearest_even (shr_m r1) (loc_of_shr_record r1)).
  assert (0 <= m1) as Hm1 by (apply round_nearest_even_nonneg; exact H1).
  assert (m1 < 2 ^ (K + 1 - e1)) as Hlt1.
  { pose proof (round_nearest_even_le (shr_m r1) (loc_of_shr_record r1)).
    replace (K + 1 - e1) with (Z.succ (K - e1)) by lia.
    rewrite Z.pow_succ_r by lia. subst m1. lia. }
  destruct (shr_fexp_bound m1 e1 loc_Exact (K + 1) Hm1 H2 ltac:(lia) Hlt1) as (G1 & G2 & G3).
  destruct (shr_fexp prec emax m1 e1 loc_Exact) as [r2 e2]. cbn [fst snd] in G1, G2, G3.
  destruct (shr_m r2) as [|p|p]; [exact I| |lia].
  replace (e2 <=? emax - prec) with true by (symmetry; apply Z.leb_le; exact G2).
  split; assumption.
Qed.

Lemma SFdiv_int_bound s1 m1 s2 m2 K :
  972 <= K <= 1023 -> Zpos m1 < 2 ^ K ->
  finite_below (K + 1)
    (SFdiv prec emax (S754_finite s1 m1 0) (S754_finite s2 m2 0)).
Proof.
  intros HK Hlt. unfold SFdiv, SFdiv_core_binary.
  rewrite Z.add_0_r, Z.add_0_r, Z.sub_0_r.
  set (e' := Z.min _ 0).
  assert (e' <= 0) as He' by (subst e'; lia).
  set (m' := match 0 - e' with Z0 => Zpos m1 | Zpos _ => _ | Zneg _ => _ end).
  assert (0 <= m' <= Zpos m1 * 2 ^ (- e')) as Hm'.
  { subst m'. destruct (0 - e') as [|p|p] eqn:E.
    - replace (- e') with 0 by lia. rewrite Z.pow_0_r. lia.
    - rewrite Z.shiftl_mul_pow2 by lia. replace (- e') with (Zpos p) by lia.
      assert (0 < 2 ^ Zpos p) by (apply Z.pow_pos_nonneg; lia). nia.
    - lia. }
  pose proof (Z.div_pos m' (Zpos m2) (proj1 Hm') eq_refl) as Hq.
  pose proof (Z.div_le_upper_bound m' (Zpos m2) m' eq_refl) as Hq'.
  unfold Z.div in Hq, Hq'. destruct (Z.div_eucl m' (Zpos m2)) as [q r].
  apply binary_round_aux_bound; auto; try lia.
  replace (K - e') with (K + - e') by lia. rewrite Z.pow_add_r by lia.
  assert (0 < 2 ^ (- e')) by (apply Z.pow_pos_nonneg; lia).
  assert (q <= m') by (apply Hq'; nia). nia.
Qed.

Lemma int_truediv_total p c K :
  c <> 0 -> 972 <= K <= 1023 -> Z.abs p < 2 ^ K ->
  exists q, int_truediv p c = Ok q /\ finite_below (K + 1) q.
Proof.
  intros Hc HK Hp. unfold int_truediv.
  destruct c as [|c|c]; [contradiction| |];
    (destruct p as [|p|p]; [eexists; split; [reflexivity|exact I]| |]);
    match goal with
    | |- context [SFdiv prec emax (S754_finite ?s1 ?m1 0) (S754_finite ?s2 ?m2 0)] =>
      pose proof (SFdiv_int_bound s1 m1 s2 m2 K HK Hp) as Hb;
      destruct (SFdiv prec emax (S754_finite s1 m1 0) (S754_finite s2 m2 0));
      try contradiction; eexists; split; try reflexivity; exact Hb
    end.
Qed.

Lemma round_half_even_div_le n d : round_half_even_div n d <= n / d + 1.
Proof.
  unfold round_half_even_div. destruct (2 * (n mod d) ?= d); try lia.
  destruct (Z.even (n / d)); lia.
Qed.

Lemma hundredths_bound m e K :
  e <= 971 -> 972 <= K -> Zpos m < 2 ^ (K - e) -> hundredths m e < 2 ^ (K + 8).
Proof.
  intros He HK Hm. unfold hundredths.
  rewrite (Z.pow_add_r 2 K 8) by lia. change (2 ^ 8) with 256.
  assert (0 < 2 ^ K) by (apply Z.pow_pos_nonneg; lia).
  destruct (Z.leb_spec 0 e) as [H0|H0].
  - replace K with ((K - e) + e) at 1 by lia. rewrite Z.pow_add_r by lia.
    assert (0 < 2 ^ e) by (apply Z.pow_pos_nonneg; lia). nia.
  - pose proof (round_half_even_div_le (100 * Zpos m) (2 ^ (- e))) as Hr.
    assert (0 < 2 ^ (- e)) as Hd by (apply Z.pow_pos_nonneg; lia).
    assert (100 * Zpos m / 2 ^ (- e) <= 100 * 2 ^ K).
    { apply Z.div_le_upper_bound; [exact Hd|].
      replace (K - e) with (K + - e) in Hm by lia. rewrite Z.pow_add_r in Hm by lia. nia. }
    lia.
Qed.

Lemma round2_total x K :
  972 <= K <= 1015 -> finite_below K x -> exists r, round2 x = Ok r.
Proof.
  intros HK Hx. unfold round2. destruct x as [s|s| |s m e]; try contradiction; eauto.
  destruct Hx as [He Hm].
  pose proof (hundredths_bound m e K He ltac:(lia) Hm) as Hh.
  destruct (hundredths m e) as [|h|h]; eauto.
  pose proof (SFdiv_int_bound s h false 100 (K + 8) ltac:(lia) Hh) as Hb.
  destruct (SFdiv prec emax (S754_finite s h 0) (S754_finite false 100 0));
    try contradiction; eauto.
Qed.

(** ** The scoring engine *)

Lemma float_lt_ge x n :
  is_nan x = false -> is_nan (float_of_Z n) = false ->
  float_lt_int x n = negb (float_ge_int x n).
Proof.
  intros Hx Hn. unfold float_lt_int, float_ge_int.
  rewrite (SFleb_negb_ltb _ _ Hn Hx). rewrite negb_involutive. reflexivity.
Qed.

Lemma float_lt_not_nan x n : float_lt_int x n = true -> is_nan x = false.
Proof. unfold float_lt_int. destruct x; simpl; try discriminate; reflexivity. Qed.

Lemma float_ge_not_nan x n : float_ge_int x n = true -> is_nan x = false.
Proof.
  unfold float_ge_int. intros H. apply SFleb_not_nan in H as [_ H]. exact H.
Qed.

Lemma float_ge_mono x n m :
  SFleb (float_of_Z m) (float_of_Z n) = true ->
  float_ge_int x n = true -> float_ge_int x m = true.
Proof. unfold float_ge_int. intros Hmn Hn. eapply SFleb_trans; eauto. Qed.

Lemma level_of_in_band score : is_nan score = false -> in_band score (level_of score).
Proof.
  intros Hx. unfold in_band, level_of.
  rewrite !(float_lt_ge score) by (exact Hx || reflexivity).
  destruct (float_ge_int score 60), (float_ge_int score 40), (float_ge_int score 20);
    simpl; tauto.
Qed.

(** The bands do not overlap. *)
Lemma in_band_unique score level : in_band score level -> level = level_of score.
Proof.
  unfold in_band, level_of. intros H.
  assert (is_nan score = false) as Hx.
  { destruct H as [[H _]|[[H _]|[[H _]|[H _]]]];
      eauto using float_ge_not_nan, float_lt_not_nan. }
  rewrite !(float_lt_ge score) in H by (exact Hx || reflexivity).
  pose proof (float_ge_mono score 60 40 eq_refl) as H64.
  pose proof (float_ge_mono score 40 20 eq_refl) as H42.
  destruct (float_ge_int score 60), (float_ge_int score 40), (float_ge_int score 20);
    simpl in H;
    try (specialize (H64 eq_refl)); try (specialize (H42 eq_refl));
    try discriminate;
    destruct H as [[H1 H]|[(H1 & H2 & H)|[(H1 & H2 & H)|[H1 H]]]];
    try discriminate; exact H.
Qed.

Lemma calculate_priority_eq impact urgency frequency controllability :
  calculate_priority impact urgency frequency controllability
  = (int_truediv (impact * urgency * frequency) controllability ≫= round2)
      ≫= fun score => Ok (score, level_of score).
Proof.
  unfold calculate_priority.
  destruct (int_truediv (impact * urgency * frequency) controllability) as [q|e];
    [|reflexivity].
  simpl. destruct (round2 q); reflexivity.
Qed.




(** ** The result monad and dicts *)

Lemma bind_Ok {A B} (m : result A) (k : A -> result B) (y : B) :
  m ≫= k = Ok y <-> exists x, m = Ok x /\ k x = Ok y.
Proof.
  destruct m as [a|e]; simpl; split.
  - intros H. exists a. auto.
  - intros (x & [= ->] & H). exact H.
  - discriminate.
  - intros (x & H & _). discriminate.
Qed.

Lemma bind_Raise {A B} (m : result A) (k : A -> result B) (e : exn) :
  m ≫= k = Raise e <-> m = Raise e \/ exists x, m = Ok x /\ k x = Raise e.
Proof.
  destruct m as [a|e']; simpl; split.
  - intros H. right. exists a. auto.
  - intros [H|(x & [= ->] & H)]; [discriminate|exact H].
  - intros [= ->]. left. reflexivity.
  - intros [[= ->]|(x & H & _)]; [reflexivity|discriminate].
Qed.

Lemma dict_get_set_eq k v d : dict_get k (dict_set k v d) = Some v.
Proof.
  induction d as [|[k' v'] d IH]; simpl.
  - rewrite String.eqb_refl. reflexivity.
  - destruct (String.eqb k k') eqn:E; simpl; rewrite E; auto.
Qed.

Lemma dict_get_set_ne k k' v d :
  k <> k' -> dict_get k' (dict_set k v d) = dict_get k' d.
Proof.
  intros Hne. induction d as [|[k0 v0] d IH]; simpl.
  - destruct (String.eqb_spec k' k); congruence.
  - destruct (String.eqb_spec k k0) as [->|Hk]; simpl.
    + destruct (String.eqb_spec k' k0); congruence.
    + destruct (String.eqb_spec k' k0); auto.
Qed.

(** ** Clamping the scores of a decoded answer *)

Lemma clamp_valid n : valid_score (Z.max 1 (Z.min 5 n)).
Proof. unfold valid_score. lia. Qed.

Lemma clamp_score_Ok key d d' :
  clamp_score key d = Ok d' ->
  exists n, int (default (PyInt 3) (dict_get key d)) = Ok n
            /\ d' = dict_set key (PyInt (Z.max 1 (Z.min 5 n))) d.
Proof.
  unfold clamp_score. intros H. apply bind_Ok in H as (n & Hn & [= <-]). eauto.
Qed.

Lemma clamp_score_ok key d d' : clamp_score key d = Ok d' -> score_ok d' key.
Proof.
  intros H. apply clamp_score_Ok in H as (n & _ & ->).
  exists (Z.max 1 (Z.min 5 n)). split; [apply dict_get_set_eq|apply clamp_valid].
Qed.

Lemma clamp_score_keeps key key' d d' :
  key <> key' -> clamp_score key d = Ok d' -> score_ok d key' -> score_ok d' key'.
Proof.
  intros Hne H (n & Hn & Hv). apply clamp_score_Ok in H as (m & _ & ->).
  exists n. rewrite dict_get_set_ne; auto.
Qed.

Lemma parse_response_ok text d : parse_response text = Ok d -> classification_ok d.
Proof.
  unfold parse_response. intros H.
  apply bind_Ok in H as (v & _ & H). unfold clamp_scores in H.
  destruct v; try discriminate H.
  apply bind_Ok in H as (d1 & H1 & H). apply bind_Ok in H as (d2 & H2 & H).
  apply bind_Ok in H as (d3 & H3 & H4).
  repeat constructor.
  - eapply clamp_score_keeps; [|exact H4|]; [discriminate|].
    eapply clamp_score_keeps; [|exact H3|]; [discriminate|].
    eapply clamp_score_keeps; [|exact H2|]; [discriminate|].
    eapply clamp_score_ok; eauto.
  - eapply clamp_score_keeps; [|exact H4|]; [discriminate|].
    eapply clamp_score_keeps; [|exact H3|]; [discriminate|].
    eapply clamp_score_ok; eauto.
  - eapply clamp_score_keeps; [|exact H4|]; [discriminate|].
    eapply clamp_score_ok; eauto.
  - eapply clamp_score_ok; eauto.
Qed.

Lemma fallback_ok : classification_ok fallback.
Proof.
  repeat constructor; exists 3; (split; [reflexivity|unfold valid_score; lia]).
Qed.

(** ** The JSON decoder raises nothing but [JSONDecodeError] and [ValueError] *)

Lemma only_caught_Ok {A} (x : A) : only_caught (Ok x).
Proof. intros e H. discriminate H. Qed.

Lemma only_caught_json_error {A} msg : only_caught (@json_error A msg).
Proof. intros e [= <-]. reflexivity. Qed.

Lemma only_caught_ValueError {A} msg : only_caught (@raise A ValueError msg).
Proof. intros e [= <-]. reflexivity. Qed.

Lemma only_caught_bind {A B} (m : result A) (k : A -> result B) :
  only_caught m -> (forall x, only_caught (k x)) -> only_caught (m ≫= k).
Proof.
  intros Hm Hk e H. apply bind_Raise in H as [H|(x & _ & H)]; [apply Hm|eapply Hk]; eauto.
Qed.

Lemma match_number_only_caught s r rest :
  match_number s = Some (r, rest) -> only_caught r.
Proof.
  unfold match_number. intros H.
  repeat (case_match; simplify_eq; try apply only_caught_Ok; try apply only_caught_ValueError).
Qed.

Ltac only_caught_step :=
  match goal with
  | |- only_caught (Ok _) => apply only_caught_Ok
  | |- only_caught (json_error _) => apply only_caught_json_error
  | |- only_caught (raise ValueError _) => apply only_caught_ValueError
  | H : forall x, only_caught (?f x) |- only_caught (?f _) => apply H
  | H : forall x y, only_caught (?f x y) |- only_caught (?f _ _) => apply H
  | H : forall x y z, only_caught (?f x y z) |- only_caught (?f _ _ _) => apply H
  | H : match_number _ = Some (?r, _) |- only_caught ?r =>
      exact (match_number_only_caught _ _ _ H)
  | |- only_caught (mbind _ _) => apply only_caught_bind; [|intros ?]
  | |- only_caught (match ?x with _ => _ end) => destruct x eqn:?
  end.

Lemma scanstring_only_caught fuel : forall acc s, only_caught (scanstring fuel acc s).
Proof.
  induction fuel as [|fuel IH]; intros acc s; simpl; repeat only_caught_step.
Qed.

#[local] Arguments scanstring : simpl never.
#[local] Arguments match_number : simpl never.

Lemma scan_only_caught fuel :
  (forall s, only_caught (scan_once fuel s))
  /\ (forall acc s, only_caught (parse_elems fuel acc s))
  /\ (forall acc s, only_caught (parse_members fuel acc s)).
Proof.
  pose proof scanstring_only_caught as Hs.
  induction fuel as [|fuel (IH1 & IH2 & IH3)];
    repeat split; intros; simpl; repeat only_caught_step.
Qed.

Lemma json_loads_only_caught s : only_caught (json_loads s).
Proof.
  unfold json_loads. pose proof (proj1 (scan_only_caught (S (String.length s)))) as H.
  repeat only_caught_step.
Qed.

(** ** The cache holds decoded live answers *)

Lemma live_result_mono w w' key d :
  gemini w' = gemini w -> prompts w `prefix_of` prompts w' ->
  live_result w key d -> live_result w' key d.
Proof.
  intros Hg [extra Hp] (n & p & text & Hn & Hs & Hk & Ht & Hd).
  exists n, p, text. rewrite Hg, Hp. repeat split; auto.
  apply lookup_app_l_Some. exact Hn.
Qed.

Lemma evolves_refl w : evolves w w.
Proof. split; [reflexivity|]. split; [reflexivity|]. auto. Qed.

Lemma evolves_trans w1 w2 w3 : evolves w1 w2 -> evolves w2 w3 -> evolves w1 w3.
Proof.
  intros (Hg1 & Hp1 & Hc1) (Hg2 & Hp2 & Hc2). split; [congruence|].
  split; [etrans; eauto|]. intros key d H.
  destruct (Hc2 key d H) as [H2|H2]; [|auto].
  destruct (Hc1 key d H2) as [H1|H1]; [auto|].
  right. eapply live_result_mono; eauto.
Qed.

Lemma evolves_cache_live w w' : evolves w w' -> cache_live w -> cache_live w'.
Proof.
  intros (Hg & Hp & Hc) Hw key d H. destruct (Hc key d H) as [H1|H1]; [|auto].
  eapply live_result_mono; eauto.
Qed.

Lemma cache_live_ok w : cache_live w -> cache_ok (classification_cache w).
Proof.
  intros Hw key d H. destruct (Hw key d H) as (n & p & text & _ & _ & _ & _ & Hd).
  eapply parse_response_ok; eauto.
Qed.

Lemma evolves_datetime_now w : evolves w (snd (datetime_now w)).
Proof. split; [reflexivity|]. split; [reflexivity|]. auto. Qed.

Lemma evolves_set_cache_delete w key :
  evolves w (set_cache (delete key (classification_cache w)) w).
Proof.
  split; [reflexivity|]. split; [reflexivity|]. simpl. intros k d H.
  left. apply lookup_delete_Some in H as [_ H]. exact H.
Qed.

Lemma evolves_clear w : evolves w (set_cache ∅ w).
Proof.
  split; [reflexivity|]. split; [reflexivity|]. simpl. intros k d H.
  rewrite lookup_empty in H. discriminate.
Qed.

Lemma evolves_generate_content p w : evolves w (snd (generate_content p w)).
Proof.
  split; [reflexivity|]. split; [|auto]. simpl. apply prefix_app_r. reflexivity.
Qed.

(** ** The classification adapter and the iterations of a run *)

(** What [classify_complaint] does, case by case. *)
Lemma classify_complaint_eq self complaint w :
  classify_complaint self complaint w =
  let key := get_cache_key self complaint in
  match classification_cache w !! key with
  | Some cached => (Ok cached, w)
  | None =>
    let w1 := snd (generate_content
                     (get_classification_prompt complaint (risk_table self)) w) in
    match gemini w (length (prompts w)) ≫= parse_response with
    | Ok d => (Ok d, set_cache (<[key := d]> (classification_cache w)) w1)
    | Raise e => if caught e then (Ok fallback, w1) else (Raise e, w1)
    end
  end.
Proof.
  unfold classify_complaint. simpl.
  destruct (classification_cache w !! get_cache_key self complaint); [reflexivity|].
  destruct (gemini w (length (prompts w)) ≫= parse_response) as [d|e]; [reflexivity|].
  destruct (caught e); reflexivity.
Qed.

Lemma classify_complaint_evolves self complaint w r w' :
  classify_complaint self complaint w = (r, w') -> evolves w w'.
Proof.
  rewrite classify_complaint_eq. cbv zeta.
  destruct (classification_cache w !! _) as [cached|] eqn:Hc.
  { intros [= <- <-]. apply evolves_refl. }
  destruct (gemini w (length (prompts w)) ≫= parse_response) as [d|e] eqn:Hr.
  - intros [= <- <-]. split; [reflexivity|]. split; [apply prefix_app_r; reflexivity|].
    simpl. intros k d' H. apply lookup_insert_Some in H as [[<- <-]|[_ H]]; [|auto].
    right. apply bind_Ok in Hr as (text & Ht & Hd).
    exists (length (prompts w)), (get_classification_prompt complaint (risk_table self)), text.
    simpl. repeat split; auto.
    apply list_lookup_middle. reflexivity.
  - destruct (caught e); intros [= <- <-]; apply evolves_generate_content.
Qed.

Lemma classify_complaint_ok self complaint w d w' :
  cache_live w -> classify_complaint self complaint w = (Ok d, w') ->
  classification_ok d.
Proof.
  intros Hw. rewrite classify_complaint_eq. cbv zeta.
  destruct (classification_cache w !! _) as [cached|] eqn:Hc.
  { intros [= <- <-]. eapply cache_live_ok; eauto. }
  destruct (gemini w (length (prompts w)) ≫= parse_response) as [d'|e] eqn:Hr.
  - intros [= <- <-]. apply bind_Ok in Hr as (text & _ & Hd).
    eapply parse_response_ok; eauto.
  - destruct (caught e); intros [= <- <-]. apply fallback_ok.
Qed.

Lemma score_arg_ok d key :
  score_ok d key ->
  exists n, dict_item key d ≫= score_arg = Ok n /\ valid_score n.
Proof.
  intros (n & Hn & Hv). exists n. unfold dict_item. rewrite Hn. simpl. auto.
Qed.

Lemma build_row_ok complaint d r :
  classification_ok d -> build_row complaint d = Ok r -> row_ok r.
Proof.
  intros Hd H. unfold classification_ok, score_keys in Hd.
  apply Forall_cons in Hd as [H1 Hd]. apply Forall_cons in Hd as [H2 Hd].
  apply Forall_cons in Hd as [H3 Hd]. apply Forall_cons in Hd as [H4 _].
  apply score_arg_ok in H1 as (n1 & E1 & V1), H2 as (n2 & E2 & V2),
    H3 as (n3 & E3 & V3), H4 as (n4 & E4 & V4).
  unfold build_row in H. rewrite E1 in H. simpl in H. rewrite E2 in H. simpl in H.
  rewrite E3 in H. simpl in H. rewrite E4 in H. simpl in H.
  apply bind_Ok in H as ([score level] & _ & H).
  apply bind_Ok in H as (rc & _ & H). apply bind_Ok in H as (rd & _ & H).
  injection H as <-. repeat split; simpl; apply V1 || apply V2 || apply V3 || apply V4.
Qed.

Lemma append_result_ok i r self :
  session_ok self -> row_ok r -> session_ok (append_result i r self).
Proof.
  intros Hs Hr. unfold session_ok, append_result. simpl.
  apply Forall_app. split; [exact Hs|]. constructor; [exact Hr|constructor].
Qed.

Lemma process_iteration_evolves self i complaint w r w' :
  process_iteration self i complaint w = (r, w') -> evolves w w'.
Proof.
  unfold process_iteration.
  destruct (classify_complaint self complaint w) as [c w1] eqn:Hc.
  intros [= _ <-]. eapply classify_complaint_evolves; eauto.
Qed.

Lemma process_iteration_ok self i complaint w self' w' :
  cache_live w -> session_ok self ->
  process_iteration self i complaint w = (Ok self', w') -> session_ok self'.
Proof.
  intros Hw Hs. unfold process_iteration.
  destruct (classify_complaint self complaint w) as [c w1] eqn:Hc.
  intros [= H _]. apply bind_Ok in H as (row & Hrow & [= <-]).
  apply bind_Ok in Hrow as (d & -> & Hrow).
  apply append_result_ok; [exact Hs|].
  eapply build_row_ok; [|exact Hrow]. eapply classify_complaint_ok; eauto.
Qed.

Lemma reprocess_iteration_evolves fb self i complaint w r w' :
  reprocess_iteration fb self i complaint w = (r, w') -> evolves w w'.
Proof.
  unfold reprocess_iteration. simpl. intros [= _ <-].
  split; [destruct (classification_cache w !! _); reflexivity|].
  split.
  - destruct (classification_cache w !! _); simpl; apply prefix_app_r; reflexivity.
  - intros key d. destruct (classification_cache w !! get_cache_key self complaint); simpl; [|auto].
    intros H. left. apply lookup_delete_Some in H as [_ H]. exact H.
Qed.

Lemma reprocess_iteration_ok fb self i complaint w self' w' :
  session_ok self ->
  reprocess_iteration fb self i complaint w = (Ok self', w') -> session_ok self'.
Proof.
  intros Hs. unfold reprocess_iteration. simpl. intros [= H _].
  apply bind_Ok in H as (row & Hrow & [= <-]).
  apply bind_Ok in Hrow as (d & Hd & Hrow).
  apply append_result_ok; [exact Hs|].
  eapply build_row_ok; [|exact Hrow].
  destruct (_ ≫= parse_response) as [d'|e] eqn:Hr.
  - injection Hd as ->. apply bind_Ok in Hr as (text & _ & Hp).
    eapply parse_response_ok; eauto.
  - destruct (caught e); [|discriminate]. injection Hd as <-. apply fallback_ok.
Qed.

Lemma iteration_evolves kind self i complaint w r w' :
  iteration kind self i complaint w = (r, w') -> evolves w w'.
Proof.
  destruct kind; simpl;
    eauto using process_iteration_evolves, reprocess_iteration_evolves.
Qed.

Lemma iteration_ok kind self i complaint w self' w' :
  cache_live w -> session_ok self ->
  iteration kind self i complaint w = (Ok self', w') -> session_ok self'.
Proof.
  destruct kind; simpl;
    eauto using process_iteration_ok, reprocess_iteration_ok.
Qed.

(** An iteration changes the results and the counter only. *)
Lemma iteration_fields kind self i complaint w self' w' :
  iteration kind self i complaint w = (Ok self', w') ->
  exists r, self' = append_result i r self.
Proof.
  destruct kind; simpl.
  - unfold reprocess_iteration. simpl. intros [= H _].
    apply bind_Ok in H as (row & _ & [= <-]). eauto.
  - unfold process_iteration. destruct (classify_complaint _ _ _).
    intros [= H _]. apply bind_Ok in H as (row & _ & [= <-]). eauto.
Qed.

(** ** The invariant of the service *)

Lemma begin_run_eq self w :
  begin_run self w =
  (set_results [] (set_start_time (Some (now w)) (set_status processing self)),
   snd (datetime_now w)).
Proof. reflexivity. Qed.

Lemma end_run_eq self w :
  end_run self w =
  (set_end_time (Some (now w)) (set_status completed self), snd (datetime_now w)).
Proof. reflexivity. Qed.

Lemma fail_run_eq e self w :
  fail_run e self w =
  (set_end_time (Some (now w))
     (set_error_message (Some (str_of_exn e)) (set_status error self)),
   snd (datetime_now w)).
Proof. reflexivity. Qed.

Lemma append_result_times i r self : times_ok self -> times_ok (append_result i r self).
Proof. intros H. exact H. Qed.

Lemma run_block_invariant t self w self' w' t' :
  cache_live w -> session_ok self -> times_ok self ->
  (is_Some (task_next t) -> is_Some (start_time self)) ->
  run_block t self w = (self', w', t') ->
  evolves w w' /\ session_ok self' /\ times_ok self'
  /\ is_Some (start_time self')
  /\ (forall t'', t' = Some t'' -> task_self t'' = task_self t).
Proof.
  intros Hw Hs Ht Hstarted. unfold run_block.
  set (start := match task_next t with
                | None => let '(self, w) := begin_run self w in (self, w, 0%nat)
                | Some i => (self, w, i)
                end).
  assert (exists self0 w0 i, start = (self0, w0, i) /\ evolves w w0
            /\ session_ok self0 /\ times_ok self0 /\ is_Some (start_time self0))
    as (self0 & w0 & i & -> & Hw0 & Hs0 & Ht0 & Hb0).
  { subst start. destruct (task_next t) as [i|].
    - exists self, w, i. repeat split; auto using evolves_refl; apply Ht; auto.
    - exists (fst (begin_run self w)), (snd (begin_run self w)), 0%nat.
      rewrite begin_run_eq. simpl. repeat split; try apply evolves_datetime_now; eauto.
      all: try constructor; try discriminate. }
  pose proof (evolves_cache_live _ _ Hw0 Hw) as Hl0.
  destruct (complaints self0 !! i) as [complaint|].
  - destruct (iteration (task_kind t) self0 i complaint w0) as [[self1|e] w1] eqn:Hit.
    + intros [= <- <- <-]. split; [|split; [|split; [|split]]].
      * eapply evolves_trans; eauto using iteration_evolves.
      * eapply iteration_ok; eauto.
      * apply iteration_fields in Hit as (r & ->). apply append_result_times. exact Ht0.
      * apply iteration_fields in Hit as (r & ->). exact Hb0.
      * intros t'' [= <-]. reflexivity.
    + rewrite fail_run_eq. intros [= <- <- <-]. split; [|split; [|split; [|split]]].
      * eapply evolves_trans; [exact Hw0|].
        eapply evolves_trans; [eapply iteration_evolves; eauto|apply evolves_datetime_now].
      * exact Hs0.
      * intros H. discriminate H.
      * exact Hb0.
      * intros t'' H. discriminate H.
  - rewrite end_run_eq. intros [= <- <- <-]. split; [|split; [|split; [|split]]].
    + eapply evolves_trans; [exact Hw0|apply evolves_datetime_now].
    + exact Hs0.
    + intros _. simpl. split; [exact Hb0|eauto].
    + exact Hb0.
    + intros t'' H. discriminate H.
Qed.

Lemma invariant_set_env st w :
  invariant st -> evolves (env st) w -> invariant (set_env w st).
Proof.
  intros (Hc & Hs & Ht & Hk) Hw. split; [|auto].
  eapply evolves_cache_live; eauto.
Qed.

Lemma invariant_add_task st a self kind :
  invariant st -> heap st !! a = Some self ->
  invariant (add_task {| task_self := a; task_kind := kind; task_next := None |} st).
Proof.
  intros (Hc & Hs & Ht & Hk) Ha. repeat split; auto. simpl.
  apply Forall_app. split; [exact Hk|]. constructor; [|constructor].
  exists self. split; [exact Ha|]. simpl. intros [x Hx]. discriminate.
Qed.

Lemma find_session_Some id st a self :
  find_session id st = Some (a, self) ->
  sessions st !! id = Some a /\ heap st !! a = Some self.
Proof.
  unfold find_session. destruct (sessions st !! id) as [a'|]; [|discriminate]. simpl.
  destruct (heap st !! a') as [s|] eqn:E; [|discriminate]. simpl.
  intros [= <- <-]. split; [reflexivity|exact E].
Qed.

Lemma task_ok_app objects extra t : task_ok objects t -> task_ok (objects ++ extra) t.
Proof.
  intros (self & H & Hs). exists self. split; [|exact Hs].
  apply lookup_app_l_Some. exact H.
Qed.

Lemma handle_invariant r st : invariant st -> invariant (handle r st).
Proof.
  intros Hinv. destruct r as [id cs t|id|id|id|id|id|id fb| |]; simpl.
  - (* upload *)
    destruct Hinv as (Hc & Hs & Ht & Hk). repeat split; simpl.
    + eapply evolves_cache_live; [apply evolves_datetime_now|exact Hc].
    + apply Forall_app. split; [exact Hs|]. repeat constructor.
    + apply Forall_app. split; [exact Ht|].
      constructor; [|constructor]. intros H. discriminate H.
    + eapply Forall_impl; [exact Hk|]. intros t0. apply task_ok_app.
  - (* start_processing *)
    unfold start_processing. destruct (find_session id st) as [[a self]|] eqn:Hf; [|exact Hinv].
    apply find_session_Some in Hf as [_ Ha].
    repeat (case_decide || case_bool_decide); simpl; auto.
    eapply invariant_add_task; eauto.
  - (* get_progress *)
    unfold get_progress. destruct (find_session id st) as [[a self]|]; [|exact Hinv].
    unfold session_progress.
    destruct (start_time self), (end_time self); simpl;
      try (apply invariant_set_env; [exact Hinv|]);
      auto using evolves_refl, evolves_datetime_now.
  - (* get_results *)
    unfold get_results. destruct (find_session id st) as [[a self]|]; [|exact Hinv].
    case_decide; [|exact Hinv].
    destruct (start_time self), (end_time self); exact Hinv.
  - (* download_results *)
    unfold download_results. destruct (find_session id st) as [[a self]|]; [|exact Hinv].
    case_decide; [|exact Hinv]. simpl.
    apply invariant_set_env; [exact Hinv|apply evolves_datetime_now].
  - (* delete_session *)
    unfold delete_session. destruct (sessions st !! id); exact Hinv.
  - (* regenerate_results *)
    unfold regenerate_results. destruct (find_session id st) as [[a self]|] eqn:Hf; [|exact Hinv].
    apply find_session_Some in Hf as [_ Ha].
    case_bool_decide; [exact Hinv|].
    destruct (String.eqb _ _); [exact Hinv|]. simpl.
    eapply invariant_add_task; eauto.
  - exact Hinv.
  - apply invariant_set_env; [exact Hinv|apply evolves_clear].
Qed.

Lemma run_task_invariant n st : invariant st -> invariant (run_task n st).
Proof.
  intros Hinv. unfold run_task.
  destruct (tasks st !! n) as [t|] eqn:Hn; [|exact Hinv].
  destruct (heap st !! task_self t) as [self|] eqn:Ha; [|exact Hinv].
  destruct Hinv as (Hc & Hs & Ht & Hk).
  assert (is_Some (task_next t) -> is_Some (start_time self)) as Hstarted.
  { pose proof (proj1 (Forall_lookup _ _) Hk n t Hn) as (self0 & H0 & Hst).
    rewrite Ha in H0. injection H0 as <-. exact Hst. }
  destruct (run_block t self (env st)) as [[self' w'] t'] eqn:Hb.
  apply run_block_invariant in Hb as (Hw & Hs' & Ht' & Hb' & Hself); auto.
  2: { eapply (proj1 (Forall_lookup _ _) Hs); eauto. }
  2: { eapply (proj1 (Forall_lookup _ _) Ht); eauto. }
  assert (forall t0, task_ok (heap st) t0 ->
                     task_ok (<[task_self t := self']> (heap st)) t0) as Hkeep.
  { intros t0 (s0 & H0 & Hst0).
    destruct (decide (task_self t0 = task_self t)) as [E|E].
    - exists self'. split; [|auto]. rewrite E. apply list_lookup_insert_eq.
      eapply lookup_lt_Some; eauto.
    - exists s0. split; [|exact Hst0]. rewrite list_lookup_insert_ne; auto. }
  repeat split; simpl.
  - eapply evolves_cache_live; eauto.
  - apply Forall_insert; auto.
  - apply Forall_insert; auto.
  - destruct t' as [t''|].
    + apply Forall_insert.
      * eapply Forall_impl; [exact Hk|exact Hkeep].
      * exists self'. rewrite (Hself t'' eq_refl). split; [|auto].
        apply list_lookup_insert_eq. eapply lookup_lt_Some; eauto.
    + apply Forall_delete. eapply Forall_impl; [exact Hk|exact Hkeep].
Qed.

Lemma initial_invariant g t0 : invariant (initial g t0).
Proof.
  split; [|repeat split; constructor].
  intros key d H. simpl in H. rewrite lookup_empty in H. discriminate.
Qed.

Lemma reachable_invariant st : reachable st -> invariant st.
Proof.
  induction 1 as [g t0|st st' _ IH Hstep].
  - apply initial_invariant.
  - destruct Hstep; auto using handle_invariant, run_task_invariant.
Qed.


(** ** Two reachable states of the service *)

Lemma mid_run_reachable : reachable mid_run.
Proof.
  unfold mid_run.
  repeat (eapply reachable_step; [|first [apply step_task | apply step_request]]).
  apply reachable_initial.
Qed.

Lemma done_run_reachable : reachable done_run.
Proof.
  unfold done_run.
  do 2 (eapply reachable_step; [|apply step_task]). exact mid_run_reachable.
Qed.

(** ** Scores are clamped *)

(** C4. In every state the service can reach, whatever the model answered,
    every classification in the cache has its four sub-scores as integers
    in [1,5], and so has every row of every session. In particular an
    answer with the scores 9, -1, 3, 3 is stored as 5, 1, 3, 3, in the
    row and in the cache. *)
Theorem stored_scores_clamped :
  (forall st, reachable st ->
     (forall key d, classification_cache (env st) !! key = Some d -> classification_ok d)
     /\ (forall a self r, heap st !! a = Some self -> r ∈ results self -> row_ok r))
  /\ (forall g, g 0%nat = Ok out_of_range_response ->
      exists self w,
        process_iteration example_session 0 "late" (env_with g) = (Ok self, w)
        /\ map row_scores (results self) = [[5; 1; 3; 3]]
        /\ map (fun kd => scores_of (snd kd)) (map_to_list (classification_cache w))
           = [[Some (PyInt 5); Some (PyInt 1); Some (PyInt 3); Some (PyInt 3)]]).
Proof.
  split.
  - intros st Hr. apply reachable_invariant in Hr as (Hc & Hs & _). split.
    + apply cache_live_ok. exact Hc.
    + intros a self r Ha Hin. pose proof (proj1 (Forall_lookup _ _) Hs a self Ha) as H.
      eapply (proj1 (Forall_forall _ _) H). exact Hin.
  - intros g Hg. unfold process_iteration. rewrite classify_complaint_eq. cbv zeta.
    change (classification_cache (env_with g)) with (∅ : gmap string dict).
    rewrite lookup_empty.
    change (gemini (env_with g) (length (prompts (env_with g)))) with (g 0%nat). rewrite Hg.
    eexists _, _. split; [vm_compute; reflexivity|]. split; vm_compute; reflexivity.
Qed.

Lemma stored_scores_clamped_witness :
  reachable done_run
  /\ (forall key d,
        classification_cache (env done_run) !! key = Some d -> classification_ok d)
  /\ (forall a self r,
        heap done_run !! a = Some self -> r ∈ results self -> row_ok r).
Proof.
  split; [exact done_run_reachable|].
  exact (proj1 stored_scores_clamped done_run done_run_reachable).
Defined.

(** ** What the cache holds *)

Lemma get_cache_key_risk_table self self' c :
  risk_table self' = risk_table self -> get_cache_key self' c = get_cache_key self c.
Proof. unfold get_cache_key. intros ->. reflexivity. Qed.

Lemma reprocess_iteration_cache fb self i c w r w' :
  reprocess_iteration fb self i c w = (r, w') ->
  classification_cache w' = delete (get_cache_key self c) (classification_cache w).
Proof.
  unfold reprocess_iteration. simpl. intros [= _ <-].
  destruct (classification_cache w !! get_cache_key self c) eqn:E; simpl; [reflexivity|].
  symmetry. apply delete_id. exact E.
Qed.

Lemma append_result_risk_table i r self :
  risk_table (append_result i r self) = risk_table self.
Proof. reflexivity. Qed.

Lemma run_loop_nil kind self i w : run_loop kind self i [] w = (self, None, w).
Proof. reflexivity. Qed.

Lemma run_loop_cons kind self i c todo w :
  run_loop kind self i (c :: todo) w =
  match iteration kind self i c w with
  | (Ok self, w) => run_loop kind self (S i) todo w
  | (Raise e, w) => (self, Some e, w)
  end.
Proof. reflexivity. Qed.

(** The feedback loop only removes entries, and it removes the entry of
    every complaint it gets to. *)
Lemma feedback_loop_cache fb todo : forall self i w self' exc w',
  run_loop (Some fb) self i todo w = (self', exc, w') ->
  risk_table self' = risk_table self
  /\ (forall key, classification_cache w !! key = None ->
                  classification_cache w' !! key = None)
  /\ (forall n c, todo !! n = Some c ->
        (n < length (results self') - length (results self)
         \/ n = length (results self') - length (results self) /\ is_Some exc)%nat ->
        classification_cache w' !! get_cache_key self c = None)
  /\ (length (results self) <= length (results self'))%nat
  /\ (exc = None -> length (results self') = (length (results self) + length todo)%nat).
Proof.
  induction todo as [|c todo IH]; intros self i w self' exc w'.
  - rewrite run_loop_nil. intros [= <- <- <-]. repeat split; auto.
    intros n c H. rewrite lookup_nil in H. discriminate.
  - rewrite run_loop_cons. change (iteration (Some fb)) with (reprocess_iteration fb).
    destruct (reprocess_iteration fb self i c w) as [[self1|e] w1] eqn:Hit.
    + intros Hloop. pose proof (reprocess_iteration_cache _ _ _ _ _ _ _ Hit) as Hc.
      apply (iteration_fields (Some fb)) in Hit as (r & ->).
      apply IH in Hloop as (Hrt & Hnone & Hdel & Hlen & Hall).
      unfold append_result in Hlen, Hall, Hdel. simpl in Hlen, Hall, Hdel.
      rewrite length_app in Hlen, Hall, Hdel. simpl in Hlen, Hall, Hdel.
      repeat split.
      * rewrite Hrt. reflexivity.
      * intros key Hk. apply Hnone. rewrite Hc. apply lookup_delete_None. auto.
      * intros [|n] c0 Hn Hcase.
        -- injection Hn as <-. apply Hnone. rewrite Hc. apply lookup_delete_eq.
        -- simpl in Hn. rewrite <- (get_cache_key_risk_table self (append_result i r self)) by reflexivity.
           apply (Hdel n c0 Hn).
           destruct Hcase as [H|[H Hs]]; [left; lia|right; split; [lia|exact Hs]].
      * lia.
      * intros E. rewrite (Hall E). simpl. lia.
    + intros [= <- <- <-]. pose proof (reprocess_iteration_cache _ _ _ _ _ _ _ Hit) as Hc.
      repeat split; auto.
      * intros key Hk. rewrite Hc. apply lookup_delete_None. auto.
      * intros n c0 Hn [Hlt|[Hz _]]; [lia|].
        rewrite Nat.sub_diag in Hz. subst n. injection Hn as <-.
        rewrite Hc. apply lookup_delete_eq.
      * discriminate.
Qed.



(** ** Results are served for completed sessions only *)

(** C9. For a session of a reachable state: when its status is not
    completed (pending, processing or error), fetching the results and
    downloading the report are both answered with the error 400 and
    leave the state as it was; when it is completed, they answer with all
    the rows of the session, in order. *)
Theorem results_only_when_completed (st : System) (id : string) (a : nat)
    (session : ProcessingSession) :
  reachable st ->
  find_session id st = Some (a, session) ->
  (status session <> completed ->
     get_results id st = (HTTPException 400 (not_complete (status session)), st)
     /\ download_results id st = (HTTPException 400 (not_complete (status session)), st))
  /\ (status session = completed ->
      (exists seconds,
         fst (get_results id st)
         = OK {| rr_session_id := id;
                 rr_total_processed := length (results session);
                 rr_results := results session;
                 rr_processing_time_seconds := seconds |})
      /\ fst (download_results id st)
         = OK (fieldnames, map csv_record (results session))).
Proof.
  intros Hr Hf. unfold get_results, download_results. rewrite Hf. split.
  - intros Hn. case_decide; [contradiction|]. split; reflexivity.
  - intros Hc. case_decide; [|contradiction]. split; [|reflexivity].
    apply reachable_invariant in Hr as (_ & _ & Ht & _).
    apply find_session_Some in Hf as [_ Ha].
    destruct (proj1 (Forall_lookup _ _) Ht a session Ha Hc) as [[t1 ->] [t2 ->]].
    eexists. reflexivity.
Qed.

Lemma results_only_when_completed_witness :
  reachable done_run
  /\ find_session "s1" done_run = Some (0%nat, done_session)
  /\ status done_session = completed
  /\ fst (download_results "s1" done_run)
     = OK (fieldnames, map csv_record (results done_session)).
Proof.
  split; [exact done_run_reachable|].
  split; [vm_compute; reflexivity|].
  split; [vm_compute; reflexivity|].
  refine (proj2 (proj2 (results_only_when_completed done_run "s1" 0 done_session
                          done_run_reachable _) _)); vm_compute; reflexivity.
Defined.

(** ** The cache key of equal risk tables *)

#[local] Instance item_le_trans : Transitive item_le.
Proof. intros x y z. unfold item_le. apply transitivity. Qed.

#[local] Instance item_le_total : Total item_le.
Proof. intros x y. unfold item_le. apply total. apply _. Qed.

Lemma sorted_items_same r1 r2 : same_row r1 r2 -> sorted_items r1 = sorted_items r2.
Proof.
  intros [Hnd Hp]. unfold sorted_items.
  apply (StronglySorted_unique_strong item_le).
  - intros x1 x2 H1 H2 Hle1 Hle2.
    assert (fst x1 = fst x2) as Hk.
    { apply (anti_symm String.le); assumption. }
    assert (x1 ∈ r1) as Hx1 by (rewrite <- (merge_sort_Permutation item_le r1); exact H1).
    assert (x2 ∈ r1) as Hx2.
    { rewrite Hp. rewrite <- (merge_sort_Permutation item_le r2). exact H2. }
    clear -Hnd Hk Hx1 Hx2. induction r1 as [|y r IH]; [inversion Hx1|].
    simpl in Hnd. apply NoDup_cons in Hnd as [Hy Hnd].
    apply elem_of_cons in Hx1 as [->|Hx1], Hx2 as [->|Hx2]; auto.
    + exfalso. apply Hy. rewrite Hk. apply list_elem_of_fmap. eauto.
    + exfalso. apply Hy. rewrite <- Hk. apply list_elem_of_fmap. eauto.
  - apply StronglySorted_merge_sort; apply _.
  - apply StronglySorted_merge_sort; apply _.
  - rewrite !merge_sort_Permutation. exact Hp.
Qed.

(** ** Answers that cannot be decoded *)

Lemma build_row_fallback complaint : build_row complaint fallback = Ok (fallback_row complaint).
Proof. vm_compute. reflexivity. Qed.

Lemma int_of_str_only_caught s : only_caught (int_of_str s).
Proof. unfold int_of_str. repeat only_caught_step. Qed.

Lemma clamp_scores_Ok d d' :
  clamp_scores (PyDict d) = Ok d' ->
  forall key, key ∈ score_keys -> exists n, score_int d key = Ok n.
Proof.
  unfold clamp_scores, score_int. intros H.
  apply bind_Ok in H as (d1 & H1 & H). apply bind_Ok in H as (d2 & H2 & H).
  apply bind_Ok in H as (d3 & H3 & H4).
  apply clamp_score_Ok in H1 as (n1 & E1 & ->), H2 as (n2 & E2 & ->),
    H3 as (n3 & E3 & ->), H4 as (n4 & E4 & _).
  repeat (rewrite dict_get_set_ne in E2 by discriminate).
  repeat (rewrite dict_get_set_ne in E3 by discriminate).
  repeat (rewrite dict_get_set_ne in E4 by discriminate).
  intros key Hk. unfold score_keys in Hk.
  repeat (apply elem_of_cons in Hk as [->|Hk]; [eauto|]).
  inversion Hk.
Qed.

Lemma clamp_scores_Raise d e :
  clamp_scores (PyDict d) = Raise e ->
  exists key, key ∈ score_keys /\ score_int d key = Raise e.
Proof.
  unfold clamp_scores, score_int, score_keys.
  assert (forall key d0, clamp_score key d0 = Raise e ->
            int (default (PyInt 3) (dict_get key d0)) = Raise e) as Hr.
  { intros key d0 H. unfold clamp_score in H.
    apply bind_Raise in H as [H|(x & _ & H)]; [exact H|discriminate H]. }
  intros H.
  apply bind_Raise in H as [H|(d1 & H1 & H)].
  { apply Hr in H. exists "impact_score". split; [set_solver|exact H]. }
  apply clamp_score_Ok in H1 as (n1 & _ & ->).
  apply bind_Raise in H as [H|(d2 & H2 & H)].
  { apply Hr in H. rewrite dict_get_set_ne in H by discriminate.
    exists "urgency_score". split; [set_solver|exact H]. }
  apply clamp_score_Ok in H2 as (n2 & _ & ->).
  apply bind_Raise in H as [H|(d3 & H3 & H)].
  { apply Hr in H. repeat (rewrite dict_get_set_ne in H by discriminate).
    exists "frequency_score". split; [set_solver|exact H]. }
  apply clamp_score_Ok in H3 as (n3 & _ & ->).
  apply Hr in H. repeat (rewrite dict_get_set_ne in H by discriminate).
  exists "controllability_score". split; [set_solver|exact H].
Qed.

(** What [reprocess_iteration] does. *)
Lemma reprocess_iteration_eq fb self i complaint w :
  reprocess_iteration fb self i complaint w =
  let key := get_cache_key self complaint in
  let prompt :=
    prompt_add (get_classification_prompt complaint (risk_table self))
               (feedback_context fb) in
  let result :=
    match gemini w (length (prompts w)) ≫= parse_response with
    | Ok result => Ok result
    | Raise e => if caught e then Ok fallback else Raise e
    end in
  (row ← result ≫= build_row complaint; Ok (append_result i row self),
   {| classification_cache := delete key (classification_cache w);
      gemini := gemini w; prompts := prompts w ++ [prompt]; now := now w |}).
Proof.
  unfold reprocess_iteration. cbv zeta.
  destruct (classification_cache w !! get_cache_key self complaint) eqn:E.
  - reflexivity.
  - unfold generate_content. rewrite (delete_id _ _ E). reflexivity.
Qed.




(** ** The cache key and the second classification *)

Lemma json_dumps_same t1 t2 : same_table t1 t2 -> json_dumps_sorted t1 = json_dumps_sorted t2.
Proof.
  intros H. unfold json_dumps_sorted. do 3 f_equal.
  induction H as [|r1 r2 t1 t2 Hr _ IH]; [reflexivity|]. simpl. f_equal; [|exact IH].
  unfold dumps_row. rewrite (sorted_items_same _ _ Hr). reflexivity.
Qed.




(** ** The start and the failure of a run *)

Lemma begin_run_fields self w :
  status (fst (begin_run self w)) = processing
  /\ start_time (fst (begin_run self w)) = Some (now w)
  /\ results (fst (begin_run self w)) = []
  /\ processed_rows (fst (begin_run self w)) = processed_rows self
  /\ end_time (fst (begin_run self w)) = end_time self
  /\ error_message (fst (begin_run self w)) = error_message self.
Proof. rewrite begin_run_eq. repeat split; reflexivity. Qed.

(** The session when the loop stops at an exception: the rows of the
    iterations that succeeded have been added, and the counter was set by
    the last of them, if any. *)
Lemma run_loop_failure kind todo : forall self i w self' e w',
  run_loop kind self i todo w = (self', Some e, w') ->
  exists rows,
    (length rows < length todo)%nat
    /\ results self' = (results self ++ rows)%list
    /\ processed_rows self'
       = (if decide (rows = []) then processed_rows self else i + length rows)%nat
    /\ status self' = status self /\ start_time self' = start_time self
    /\ complaints self' = complaints self.
Proof.
  induction todo as [|c todo IH]; intros self i w self' e w'.
  - rewrite run_loop_nil. discriminate.
  - rewrite run_loop_cons.
    destruct (iteration kind self i c w) as [[self1|e1] w1] eqn:Hit.
    + intros Hloop. apply iteration_fields in Hit as (r & ->).
      apply IH in Hloop as (rows & Hlen & Hres & Hcount & Hst & Hstart & Hcs).
      exists (r :: rows). simpl. repeat split; auto.
      * lia.
      * rewrite Hres. simpl. rewrite <- app_assoc. reflexivity.
      * rewrite Hcount. simpl. destruct (decide (rows = [])) as [->|_]; simpl; lia.
    + intros [= <- <- <-]. exists []. simpl. repeat split; auto.
      * lia.
      * rewrite app_nil_r. reflexivity.
Qed.

Lemma failed_run_state kind self w self' w' :
  run kind self w = (self', w') -> status self' = error ->
  exists e k,
    (k < length (complaints self))%nat
    /\ length (results self') = k
    /\ error_message self' = Some (str_of_exn e)
    /\ is_Some (end_time self')
    /\ processed_rows self' = (if decide (k = 0%nat) then processed_rows self else k).
Proof.
  unfold run. rewrite begin_run_eq.
  set (self0 := set_results [] _). set (w0 := snd (datetime_now w)).
  change (complaints self0) with (complaints self).
  destruct (run_loop kind self0 0 (complaints self) w0) as [[self1 [e|]] w1] eqn:Hloop.
  - rewrite fail_run_eq. intros [= <- <-] _.
    apply run_loop_failure in Hloop as (rows & Hlen & Hres & Hcount & _).
    exists e, (length rows). simpl. rewrite Hres, Hcount. simpl.
    repeat split; auto.
    destruct rows; reflexivity.
  - rewrite end_run_eq. intros [= <- <-] H. discriminate H.
Qed.

(** C5 fails on the code. A first run completes with two rows. The model
    is out of reach when the session is started again, on complaint 0: the
    session ends in error with the message and the end time, with no row,
    and with a processed counter of 2, not 0. *)
Theorem failed_retry_keeps_old_count :
  let '(first, w1) := process_complaints example_session (env_with retry_answers) in
  let '(second, w2) := process_complaints first w1 in
  (status first = completed /\ processed_rows first = 2%nat
   /\ classification_cache w1 !! get_cache_key first "late" = None)
  /\ status second = error
  /\ error_message second = Some "503 Service Unavailable"
  /\ is_Some (end_time second)
  /\ results second = []
  /\ processed_rows second = 2%nat.
Proof. vm_compute. repeat split; try reflexivity. eexists. reflexivity. Qed.

(** C7 fails on the code. When a completed session with two rows is
    started again, the start of the run sets the status to processing,
    records the start time and clears the results, and leaves the
    processed counter at 2. *)
Theorem run_start_keeps_processed_count :
  let '(first, w1) := process_complaints example_session (env_with retry_answers) in
  let '(restarted, _) := begin_run first w1 in
  (status first = completed /\ length (results first) = 2%nat
   /\ processed_rows first = 2%nat)
  /\ status restarted = processing
  /\ start_time restarted = Some (now w1)
  /\ results restarted = []
  /\ processed_rows restarted = 2%nat.
Proof. vm_compute. repeat split; reflexivity. Qed.

(** ** Runs in flight *)

Lemma start_processing_rejects_second_run id st a session :
  find_session id st = Some (a, session) -> status session = processing ->
  start_processing id st = (HTTPException 400 "Processing already in progress", st).
Proof.
  intros Hf Hs. unfold start_processing. rewrite Hf. case_decide; [reflexivity|contradiction].
Qed.

(** C2 fails on the code. In a reachable state whose session is processing
    with one run in flight, the start request is rejected as already in
    progress, and the feedback request is accepted and puts a second run
    in flight on the same session. *)
Theorem regenerate_accepted_while_processing :
  reachable mid_run
  /\ (exists session,
        find_session "s1" mid_run = Some (0%nat, session)
        /\ status session = processing /\ length (results session) = 1%nat)
  /\ length (runs_in_flight 0 mid_run) = 1%nat
  /\ fst (start_processing "s1" mid_run)
     = HTTPException 400 "Processing already in progress"
  /\ fst (regenerate_results "s1" "be stricter" mid_run) = OK "be stricter"
  /\ length (runs_in_flight 0 (snd (regenerate_results "s1" "be stricter" mid_run)))
     = 2%nat.
Proof.
  split.
  - exact mid_run_reachable.
  - split; [eexists; vm_compute; repeat split; reflexivity|].
    vm_compute. repeat split; reflexivity.
Qed.

(** ** Feedback runs *)

Lemma reprocess_iteration_feedback fb1 fb2 self i c w1 w2 :
  same_calls w1 w2 ->
  fst (reprocess_iteration fb1 self i c w1) = fst (reprocess_iteration fb2 self i c w2)
  /\ same_calls (snd (reprocess_iteration fb1 self i c w1))
                (snd (reprocess_iteration fb2 self i c w2)).
Proof.
  intros (Hg & Hp & Hn). rewrite !reprocess_iteration_eq. cbv zeta. simpl.
  rewrite Hg, Hp. split; [reflexivity|]. repeat split; simpl; auto.
  rewrite !length_app. simpl. lia.
Qed.

Lemma feedback_loop_same fb1 fb2 todo : forall self i w1 w2,
  same_calls w1 w2 ->
  fst (run_loop (Some fb1) self i todo w1) = fst (run_loop (Some fb2) self i todo w2)
  /\ same_calls (snd (run_loop (Some fb1) self i todo w1))
                (snd (run_loop (Some fb2) self i todo w2)).
Proof.
  induction todo as [|c todo IH]; intros self i w1 w2 Hw.
  - rewrite !run_loop_nil. auto.
  - rewrite !run_loop_cons.
    change (iteration (Some fb1)) with (reprocess_iteration fb1).
    change (iteration (Some fb2)) with (reprocess_iteration fb2).
    destruct (reprocess_iteration_feedback fb1 fb2 self i c w1 w2 Hw) as [Hr Hw'].
    destruct (reprocess_iteration fb1 self i c w1) as [r1 w1'].
    destruct (reprocess_iteration fb2 self i c w2) as [r2 w2'].
    simpl in Hr, Hw'. subst r2. destruct r1 as [self1|e]; [apply IH; exact Hw'|].
    simpl. auto.
Qed.

(** The session after a feedback run does not depend on the feedback
    text, as long as the model gives the same answers. *)
Lemma feedback_leaves_no_trace fb1 fb2 self w :
  fst (reprocess_with_feedback fb1 self w) = fst (reprocess_with_feedback fb2 self w).
Proof.
  unfold reprocess_with_feedback, run. rewrite begin_run_eq.
  set (self0 := set_results [] _). set (w0 := snd (datetime_now w)).
  destruct (feedback_loop_same fb1 fb2 (complaints self0) self0 0 w0 w0) as [Hr Hw].
  { repeat split. }
  destruct (run_loop (Some fb1) self0 0 (complaints self0) w0) as [[s1 x1] w1].
  destruct (run_loop (Some fb2) self0 0 (complaints self0) w0) as [[s2 x2] w2].
  simpl in Hr, Hw. injection Hr as -> ->. destruct Hw as (_ & _ & Hn).
  destruct x2; rewrite ?fail_run_eq, ?end_run_eq; simpl; rewrite Hn; reflexivity.
Qed.

Lemma regenerate_results_heap id fb st :
  heap (snd (regenerate_results id fb st)) = heap st.
Proof.
  unfold regenerate_results. destruct (find_session id st) as [[a s]|]; [|reflexivity].
  case_bool_decide; [reflexivity|]. destruct (String.eqb _ _); reflexivity.
Qed.




(** * Part 6. Further properties *)

(** ** Sound sessions *)

Lemma build_row_consistent c d r :
  build_row c d = Ok r -> row_consistent r /\ complaint r = c.
Proof.
  unfold build_row. intros H.
  apply bind_Ok in H as (i & _ & H). apply bind_Ok in H as (u & _ & H).
  apply bind_Ok in H as (f & _ & H). apply bind_Ok in H as (k & _ & H).
  apply bind_Ok in H as ([score level] & Hp & H).
  apply bind_Ok in H as (rc & _ & H). apply bind_Ok in H as (rd & _ & H).
  injection H as <-. split; [exact Hp|reflexivity].
Qed.

(** What an iteration that succeeds adds to the session. *)
Lemma iteration_row kind self i c w self' w' :
  iteration kind self i c w = (Ok self', w') ->
  exists r, self' = append_result i r self /\ row_consistent r /\ complaint r = c.
Proof.
  destruct kind as [fb|]; simpl.
  - unfold reprocess_iteration. simpl. intros [= H _].
    apply bind_Ok in H as (row & Hrow & [= <-]).
    apply bind_Ok in Hrow as (d & _ & Hrow).
    apply build_row_consistent in Hrow as [H1 H2]. eauto.
  - unfold process_iteration. destruct (classify_complaint self c w) as [cl w1].
    intros [= H _]. apply bind_Ok in H as (row & Hrow & [= <-]).
    apply bind_Ok in Hrow as (d & _ & Hrow).
    apply build_row_consistent in Hrow as [H1 H2]. eauto.
Qed.

Lemma begin_run_sound self w : session_sound self -> session_sound (fst (begin_run self w)).
Proof.
  intros (H1 & H2 & H3 & H4 & H5). rewrite begin_run_eq.
  split; [constructor|]. split; [exact H2|]. split; [exact H3|].
  split; intros H; discriminate H.
Qed.

Lemma append_result_sound i r self c :
  session_sound self -> status self <> pending -> complaints self !! i = Some c ->
  row_consistent r -> session_sound (append_result i r self).
Proof.
  intros (H1 & H2 & H3 & H4 & H5) Hp Hi Hr.
  split; [|split; [|split; [|split]]]; simpl.
  - apply Forall_app. split; [exact H1|]. constructor; [exact Hr|constructor].
  - exact H2.
  - rewrite H2. apply lookup_lt_Some in Hi. lia.
  - intros H. contradiction.
  - exact H5.
Qed.

Lemma end_run_sound self w : session_sound self -> session_sound (fst (end_run self w)).
Proof.
  intros (H1 & H2 & H3 & H4 & H5). rewrite end_run_eq.
  split; [exact H1|]. split; [exact H2|]. split; [exact H3|].
  split; intros H; discriminate H.
Qed.

Lemma fail_run_sound e self w : session_sound self -> session_sound (fst (fail_run e self w)).
Proof.
  intros (H1 & H2 & H3 & H4 & H5). rewrite fail_run_eq.
  split; [exact H1|]. split; [exact H2|]. split; [exact H3|].
  split; [intros H; discriminate H|]. intros _. simpl. eauto.
Qed.

Lemma run_block_sound t self w self' w' t' :
  session_sound self ->
  (is_Some (task_next t) -> status self <> pending) ->
  run_block t self w = (self', w', t') ->
  session_sound self'
  /\ status self' <> pending
  /\ match t' with
     | Some t'' => task_self t'' = task_self t /\ is_Some (task_next t'')
     | None => status self' <> processing
     end.
Proof.
  intros Hs Hstarted. unfold run_block.
  set (start := match task_next t with
                | None => let '(self, w) := begin_run self w in (self, w, 0%nat)
                | Some i => (self, w, i)
                end).
  assert (exists self0 w0 i, start = (self0, w0, i)
            /\ session_sound self0 /\ status self0 <> pending)
    as (self0 & w0 & i & -> & Hs0 & Hp0).
  { subst start. destruct (task_next t) as [i|].
    - exists self, w, i. split; [reflexivity|]. split; [exact Hs|]. apply Hstarted. eauto.
    - exists (fst (begin_run self w)), (snd (begin_run self w)), 0%nat.
      split; [rewrite begin_run_eq; reflexivity|].
      split; [apply begin_run_sound; exact Hs|]. rewrite begin_run_eq. discriminate. }
  destruct (complaints self0 !! i) as [c|] eqn:Hi.
  - destruct (iteration (task_kind t) self0 i c w0) as [[self1|e] w1] eqn:Hit.
    + intros [= <- <- <-]. apply iteration_row in Hit as (r & -> & Hr & _).
      split; [eapply append_result_sound; eauto|]. split; [exact Hp0|]. simpl. eauto.
    + pose proof (fail_run_sound e self0 w1 Hs0) as Hf. revert Hf.
      rewrite fail_run_eq. intros Hf [= <- <- <-].
      split; [exact Hf|]. split; simpl; discriminate.
  - pose proof (end_run_sound self0 w0 Hs0) as Hf. revert Hf.
    rewrite end_run_eq. intros Hf [= <- <- <-].
    split; [exact Hf|]. split; simpl; discriminate.
Qed.

Lemma initial_sound g t0 : sound (initial g t0).
Proof.
  split; [constructor|]. split; [|split; [|split]]; simpl.
  - intros a self H. rewrite lookup_nil in H. discriminate.
  - intros t self H. inversion H.
  - intros t H. inversion H.
  - intros id a H. rewrite lookup_empty in H. discriminate.
Qed.

Lemma sound_add_task st a self kind :
  sound st -> heap st !! a = Some self ->
  sound (add_task {| task_self := a; task_kind := kind; task_next := None |} st).
Proof.
  intros (Hs & Hp & Hk & Ht & Hv) Ha.
  split; [exact Hs|]. split; [|split; [|split; [|exact Hv]]]; simpl.
  - intros a0 s0 H0 Hst. destruct (Hp a0 s0 H0 Hst) as (t & Hin & E & Hn).
    exists t. split; [|auto]. simpl. apply elem_of_app. auto.
  - intros t s0 Hin Hn H0. apply elem_of_app in Hin as [Hin|Hin]; [eauto|].
    apply list_elem_of_singleton in Hin. subst t. destruct Hn as [x Hx]. discriminate.
  - intros t Hin. apply elem_of_app in Hin as [Hin|Hin]; [eauto|].
    apply list_elem_of_singleton in Hin. subst t. simpl. eapply lookup_lt_Some; eauto.
Qed.

Lemma handle_sound r st : sound st -> sound (handle r st).
Proof.
  intros Hinv. destruct r as [id cs t|id|id|id|id|id|id fb| |]; simpl.
  - (* upload *)
    destruct Hinv as (Hs & Hp & Hk & Ht & Hv).
    split; [|split; [|split; [|split]]]; simpl.
    + apply Forall_app. split; [exact Hs|]. constructor; [|constructor].
      split; [constructor|]. split; [reflexivity|]. split; [simpl; lia|].
      split; [intros _; repeat split|intros H; discriminate H].
    + intros a self Ha Hst. apply lookup_app_Some in Ha as [Ha|[Hlen Ha]].
      * destruct (Hp a self Ha Hst) as (t0 & H0). exists t0. exact H0.
      * destruct (a - length (heap st))%nat; simpl in Ha; [|discriminate Ha].
        injection Ha as <-. simpl in Hst. discriminate Hst.
    + intros t0 self Hin Hn Ha. apply lookup_app_Some in Ha as [Ha|[Hlen Ha]]; [eauto|].
      apply Ht in Hin. lia.
    + intros t0 Hin. rewrite length_app. apply Ht in Hin. lia.
    + intros id0 a H. rewrite length_app. simpl.
      apply lookup_insert_Some in H as [[_ <-]|[_ H]]; [lia|]. apply Hv in H. lia.
  - (* start_processing *)
    unfold start_processing. destruct (find_session id st) as [[a self]|] eqn:Hf; [|exact Hinv].
    apply find_session_Some in Hf as [_ Ha].
    repeat (case_decide || case_bool_decide); simpl; auto.
    eapply sound_add_task; eauto.
  - (* get_progress *)
    unfold get_progress. destruct (find_session id st) as [[a self]|]; [|exact Hinv].
    destruct (session_progress self (env st)). exact Hinv.
  - (* get_results *)
    unfold get_results. destruct (find_session id st) as [[a self]|]; [|exact Hinv].
    case_decide; [|exact Hinv].
    destruct (start_time self), (end_time self); exact Hinv.
  - (* download_results *)
    unfold download_results. destruct (find_session id st) as [[a self]|]; [|exact Hinv].
    case_decide; exact Hinv.
  - (* delete_session *)
    unfold delete_session. destruct (sessions st !! id); [|exact Hinv].
    destruct Hinv as (Hs & Hp & Hk & Ht & Hv).
    split; [exact Hs|]. split; [exact Hp|]. split; [exact Hk|]. split; [exact Ht|]. simpl.
    intros id0 a H. apply lookup_delete_Some in H as [_ H]. eauto.
  - (* regenerate_results *)
    unfold regenerate_results. destruct (find_session id st) as [[a self]|] eqn:Hf; [|exact Hinv].
    apply find_session_Some in Hf as [_ Ha].
    case_bool_decide; [exact Hinv|].
    destruct (String.eqb _ _); [exact Hinv|]. simpl.
    eapply sound_add_task; eauto.
  - exact Hinv.
  - exact Hinv.
Qed.

Lemma run_task_sound n st : sound st -> sound (run_task n st).
Proof.
  intros Hinv. unfold run_task.
  destruct (tasks st !! n) as [t|] eqn:Hn; [|exact Hinv].
  destruct (heap st !! task_self t) as [self|] eqn:Ha; [|exact Hinv].
  destruct Hinv as (Hs & Hp & Hk & Ht & Hv).
  assert (t ∈ tasks st) as Hin by (eapply list_elem_of_lookup_2; eauto).
  destruct (run_block t self (env st)) as [[self' w'] t'] eqn:Hb.
  apply run_block_sound in Hb as (Hs' & Hp' & Ht'); cycle 1.
  { eapply (proj1 (Forall_lookup _ _) Hs); eauto. }
  { intros Hsome. eapply Hk; eauto. }
  pose proof (lookup_lt_Some _ _ _ Ha) as Hlt.
  (* a task on another object is still there *)
  assert (forall t0, t0 ∈ tasks st -> task_self t0 <> task_self t ->
            t0 ∈ match t' with
                 | Some t'' => <[n := t'']> (tasks st)
                 | None => delete n (tasks st)
                 end) as Hother.
  { intros t0 Hin0 Hne. apply list_elem_of_lookup in Hin0 as [m Hm].
    assert (m <> n) as Hmn by (intros ->; rewrite Hn in Hm; injection Hm as ->; auto).
    destruct t' as [t''|].
    - eapply list_elem_of_lookup_2. rewrite list_lookup_insert_ne; eauto.
    - destruct (decide (m < n)%nat).
      + eapply list_elem_of_lookup_2. rewrite list_lookup_delete_lt; eauto.
      + eapply (list_elem_of_lookup_2 _ (pred m)). rewrite list_lookup_delete_ge by lia.
        replace (S (pred m)) with m by lia. exact Hm. }
  (* a task of the new list is an old one or the resumed one *)
  assert (forall t0, t0 ∈ match t' with
                          | Some t'' => <[n := t'']> (tasks st)
                          | None => delete n (tasks st)
                          end ->
            t0 ∈ tasks st \/ t' = Some t0) as Hfrom.
  { intros t0 Hin0. destruct t' as [t''|].
    - apply list_elem_of_lookup in Hin0 as [m Hm].
      destruct (decide (m = n)) as [->|Hmn].
      + rewrite list_lookup_insert_eq in Hm by (eapply lookup_lt_Some; eauto).
        injection Hm as <-. auto.
      + rewrite list_lookup_insert_ne in Hm by auto. left.
        eapply list_elem_of_lookup_2; eauto.
    - left. apply list_elem_of_lookup in Hin0 as [m Hm].
      destruct (decide (m < n)%nat).
      + rewrite list_lookup_delete_lt in Hm by auto. eapply list_elem_of_lookup_2; eauto.
      + rewrite list_lookup_delete_ge in Hm by lia. eapply list_elem_of_lookup_2; eauto. }
  split; [|split; [|split; [|split]]]; simpl.
  - apply Forall_insert; auto.
  - intros a s0 H0 Hst. destruct (decide (a = task_self t)) as [->|Hne].
    + rewrite list_lookup_insert_eq in H0 by exact Hlt. injection H0 as <-.
      destruct t' as [t''|]; [|contradiction].
      destruct Ht' as [E Hsome]. exists t''. split; [|auto].
      eapply list_elem_of_lookup_2. apply list_lookup_insert_eq.
      eapply lookup_lt_Some; eauto.
    + rewrite list_lookup_insert_ne in H0 by auto.
      destruct (Hp a s0 H0 Hst) as (t0 & Hin0 & E & Hsome).
      exists t0. split; [|auto]. apply Hother; [exact Hin0|congruence].
  - intros t0 s0 Hin0 Hsome H0.
    destruct (decide (task_self t0 = task_self t)) as [E|Hne].
    + rewrite E, list_lookup_insert_eq in H0 by exact Hlt. injection H0 as <-. exact Hp'.
    + rewrite list_lookup_insert_ne in H0 by auto.
      destruct (Hfrom t0 Hin0) as [Hold|Hnew]; [eauto|].
      subst t'. destruct Ht' as [E _]. contradiction.
  - intros t0 Hin0. rewrite length_insert.
    destruct (Hfrom t0 Hin0) as [Hold|Hnew]; [eauto|].
    subst t'. destruct Ht' as [E _]. rewrite E. exact Hlt.
  - intros id a H. rewrite length_insert. eauto.
Qed.

Lemma reachable_sound st : reachable st -> sound st.
Proof.
  induction 1 as [g t0|st st' _ IH Hstep].
  - apply initial_sound.
  - destruct Hstep; auto using handle_sound, run_task_sound.
Qed.

Lemma uploaded_reachable : reachable uploaded.
Proof.
  unfold uploaded. eapply reachable_step; [|apply step_request]. apply reachable_initial.
Qed.

Lemma failed_rerun_reachable : reachable failed_rerun.
Proof.
  unfold failed_rerun.
  eapply reachable_step; [|apply step_task].
  eapply reachable_step; [|apply step_request].
  exact done_run_reachable.
Qed.

Lemma calculate_priority_level i u f c score level :
  calculate_priority i u f c = Ok (score, level) -> level ∈ priority_levels.
Proof.
  rewrite calculate_priority_eq. intros H.
  apply bind_Ok in H as (s & _ & [= _ <-]).
  unfold level_of, priority_levels.
  destruct (float_ge_int s 60); [set_solver|].
  destruct (float_ge_int s 40); [set_solver|].
  destruct (float_ge_int s 20); set_solver.
Qed.

(** X6. In every state the service can reach, the priority score
    and level of every stored row are those [calculate_priority] gives for
    the four scores of the row, and the level is one of the four levels. *)
Theorem stored_priority_matches_scores (st : System) (a : nat)
    (self : ProcessingSession) (r : ResultRow) :
  reachable st -> heap st !! a = Some self -> r ∈ results self ->
  calculate_priority (impact_score r) (urgency_score r) (frequency_score r)
                     (controllability_score r)
  = Ok (priority_score r, priority_level r)
  /\ priority_level r ∈ priority_levels.
Proof.
  intros Hr Ha Hin. apply reachable_sound in Hr as (Hs & _).
  pose proof (proj1 (Forall_lookup _ _) Hs a self Ha) as (Hrows & _).
  pose proof (proj1 (Forall_forall _ _) Hrows r Hin) as Hc.
  split; [exact Hc|]. eapply calculate_priority_level. exact Hc.
Qed.

Lemma stored_priority_matches_scores_witness :
  reachable done_run /\ heap done_run !! 0%nat = Some done_session
  /\ fallback_row "late" ∈ results done_session
  /\ calculate_priority 3 3 3 3 = Ok (float_of_Z 9, "P4 - Low").
Proof.
  assert (heap done_run !! 0%nat = Some done_session) as Ha by (vm_compute; reflexivity).
  assert (fallback_row "late" ∈ results done_session) as Hin.
  { apply (list_elem_of_lookup_2 _ 0%nat). vm_compute. reflexivity. }
  split; [exact done_run_reachable|]. split; [exact Ha|]. split; [exact Hin|].
  exact (proj1 (stored_priority_matches_scores done_run 0 done_session
                  (fallback_row "late") done_run_reachable Ha Hin)).
Defined.


(** X4. In every state the service can reach, [total_rows] of a
    session is the number of its complaints and [processed_rows] never
    exceeds it, whatever runs were started on the session. *)
Theorem progress_within_total (st : System) (a : nat) (self : ProcessingSession) :
  reachable st -> heap st !! a = Some self ->
  total_rows self = length (complaints self)
  /\ (processed_rows self <= total_rows self)%nat.
Proof.
  intros Hr Ha. apply reachable_sound in Hr as (Hs & _).
  pose proof (proj1 (Forall_lookup _ _) Hs a self Ha) as (_ & H2 & H3 & _). auto.
Qed.

Lemma progress_within_total_witness :
  reachable mid_run
  /\ exists self, heap mid_run !! 0%nat = Some self
       /\ total_rows self = 2%nat /\ processed_rows self = 1%nat
       /\ total_rows self = length (complaints self)
       /\ (processed_rows self <= total_rows self)%nat.
Proof.
  split; [exact mid_run_reachable|]. eexists.
  split; [vm_compute; reflexivity|]. split; [reflexivity|]. split; [reflexivity|].
  apply (progress_within_total mid_run 0); [exact mid_run_reachable|].
  vm_compute. reflexivity.
Defined.


(** X5. In every state the service can reach: a pending session
    has no result, no processed row, no timestamp and no error message; a
    session whose status is processing has a coroutine in flight that has
    started; a session in error has an error message and an end time; a
    completed session has both timestamps. *)
Theorem status_tells_the_history (st : System) (a : nat) (self : ProcessingSession) :
  reachable st -> heap st !! a = Some self ->
  (status self = pending -> untouched self)
  /\ (status self = processing -> has_run_in_flight st a)
  /\ (status self = error -> is_Some (error_message self) /\ is_Some (end_time self))
  /\ (status self = completed -> is_Some (start_time self) /\ is_Some (end_time self)).
Proof.
  intros Hr Ha. pose proof (reachable_invariant st Hr) as (_ & _ & Ht & _).
  apply reachable_sound in Hr as (Hs & Hp & _).
  pose proof (proj1 (Forall_lookup _ _) Hs a self Ha) as (_ & _ & _ & H4 & H5).
  split; [exact H4|]. split; [apply Hp; exact Ha|]. split; [exact H5|].
  exact (proj1 (Forall_lookup _ _) Ht a self Ha).
Qed.

Lemma status_tells_the_history_witness :
  (reachable mid_run
   /\ exists self, heap mid_run !! 0%nat = Some self /\ status self = processing
                   /\ has_run_in_flight mid_run 0)
  /\ (reachable failed_rerun
      /\ heap failed_rerun !! 0%nat = Some failed_session
      /\ status failed_session = error
      /\ is_Some (error_message failed_session) /\ is_Some (end_time failed_session)).
Proof.
  split.
  - split; [exact mid_run_reachable|]. eexists.
    split; [vm_compute; reflexivity|]. split; [reflexivity|].
    refine (proj1 (proj2 (status_tells_the_history mid_run 0 _ mid_run_reachable _)) _);
      vm_compute; reflexivity.
  - split; [exact failed_rerun_reachable|].
    split; [vm_compute; reflexivity|]. split; [vm_compute; reflexivity|].
    refine (proj1 (proj2 (proj2 (status_tells_the_history failed_rerun 0 failed_session
                                   failed_rerun_reachable _))) _);
      vm_compute; reflexivity.
Defined.


(** ** A whole run *)

(** The loop appends one row per complaint it handles, in order, and
    changes nothing else but the counter. *)
Lemma run_loop_rows kind todo : forall self i w self' exc w',
  run_loop kind self i todo w = (self', exc, w') ->
  exists rows p,
    self' = set_processed_rows p (set_results (results self ++ rows)%list self)
    /\ map complaint rows = take (length rows) todo
    /\ (exc = None -> length rows = length todo)
    /\ (is_Some exc -> (length rows < length todo)%nat).
Proof.
  induction todo as [|c todo IH]; intros self i w self' exc w'.
  - rewrite run_loop_nil. intros [= <- <- <-]. exists [], (processed_rows self).
    rewrite app_nil_r. split; [destruct self; reflexivity|].
    split; [reflexivity|]. split; [reflexivity|]. intros [x Hx]. discriminate.
  - rewrite run_loop_cons.
    destruct (iteration kind self i c w) as [[self1|e] w1] eqn:Hit.
    + intros Hloop. apply iteration_row in Hit as (r & -> & _ & Hc).
      apply IH in Hloop as (rows & p & -> & Hmap & Hnone & Hsome).
      exists (r :: rows), p. split.
      { unfold set_processed_rows, set_results, append_result. simpl.
        rewrite <- app_assoc. reflexivity. }
      simpl. rewrite Hc, Hmap. split; [reflexivity|].
      split; [intros E; rewrite (Hnone E); reflexivity|].
      intros E. apply Hsome in E. lia.
    + intros [= <- <- <-]. exists [], (processed_rows self).
      rewrite app_nil_r. split; [destruct self; reflexivity|].
      split; [reflexivity|]. split; [discriminate|]. intros _. simpl. lia.
Qed.


(** ** Calls of the model *)

Lemma classify_complaint_calls self c w :
  let w' := snd (classify_complaint self c w) in
  (forall key d, classification_cache w !! key = Some d ->
                 classification_cache w' !! key = Some d)
  /\ gemini w' = gemini w /\ now w' = now w
  /\ match classification_cache w !! get_cache_key self c with
     | Some _ => prompts w' = prompts w
     | None =>
       prompts w' = (prompts w ++ [get_classification_prompt c (risk_table self)])%list
     end.
Proof.
  rewrite classify_complaint_eq. cbv zeta.
  destruct (classification_cache w !! get_cache_key self c) as [cached|] eqn:Hc; simpl.
  { repeat split; auto. }
  destruct (gemini w (length (prompts w)) ≫= parse_response) as [d|e]; simpl.
  - repeat split. intros key d0 H. rewrite lookup_insert_ne; [exact H|].
    intros <-. congruence.
  - destruct (caught e); simpl; repeat split; auto.
Qed.

Lemma process_iteration_env self i c w :
  snd (process_iteration self i c w) = snd (classify_complaint self c w).
Proof.
  unfold process_iteration. destruct (classify_complaint self c w). reflexivity.
Qed.

Lemma process_loop_calls todo : forall self i w,
  let w' := snd (run_loop None self i todo w) in
  (forall key d, classification_cache w !! key = Some d ->
                 classification_cache w' !! key = Some d)
  /\ gemini w' = gemini w
  /\ exists new, prompts w' = (prompts w ++ new)%list
       /\ (length new <= length todo)%nat
       /\ Forall (fun p => prompt_suffix p = "") new
       /\ ((forall c, c ∈ todo ->
              is_Some (classification_cache w !! get_cache_key self c)) -> new = []).
Proof.
  induction todo as [|c todo IH]; intros self i w.
  - rewrite run_loop_nil. simpl. repeat split; auto.
    exists []. rewrite app_nil_r. repeat split; auto.
  - rewrite run_loop_cons. change (iteration None) with process_iteration.
    pose proof (process_iteration_env self i c w) as Henv.
    pose proof (classify_complaint_calls self c w) as (Hkeep & Hg & _ & Hp).
    destruct (process_iteration self i c w) as [[self1|e] w1] eqn:Hit;
      simpl in Henv; subst w1.
    + apply (iteration_fields None) in Hit as (r & ->).
      specialize (IH (append_result i r self) (S i) (snd (classify_complaint self c w))).
      destruct IH as (Hkeep' & Hg' & new & Hnew & Hlen & Hsuf & Hwarm).
      cbv zeta. split; [auto|]. split; [congruence|].
      destruct (classification_cache w !! get_cache_key self c) as [cached|] eqn:Hc.
      * exists new. rewrite Hnew, Hp. repeat split; auto. simpl. lia.
        intros Hall. apply Hwarm. intros c0 Hin.
        destruct (Hall c0) as [d Hd]; [right; exact Hin|].
        exists d. apply Hkeep.
        rewrite (get_cache_key_risk_table self (append_result i r self)) by reflexivity.
        exact Hd.
      * exists (get_classification_prompt c (risk_table self) :: new).
        rewrite Hnew, Hp, <- app_assoc. repeat split; simpl; auto; try lia.
        intros Hall. destruct (Hall c) as [d Hd]; [left|]. congruence.
    + cbv zeta. simpl. split; [auto|]. split; [auto|].
      destruct (classification_cache w !! get_cache_key self c) as [cached|] eqn:Hc.
      * exists []. rewrite Hp, app_nil_r. repeat split; auto. simpl. lia.
      * exists [get_classification_prompt c (risk_table self)].
        rewrite Hp. repeat split; simpl; auto; try lia.
        intros Hall. destruct (Hall c) as [d Hd]; [left|]. congruence.
Qed.



Lemma feedback_loop_calls fb todo : forall self i w self' exc w',
  run_loop (Some fb) self i todo w = (self', exc, w') ->
  exists new,
    prompts w' = (prompts w ++ new)%list
    /\ Forall (fun p => prompt_suffix p = feedback_context fb
                        /\ prompt_risk_table p = risk_table self) new
    /\ map prompt_complaint new = take (length new) todo
    /\ length new
       = (length (results self') - length (results self)
          + match exc with Some _ => 1 | None => 0 end)%nat
    /\ (length (results self) <= length (results self'))%nat.
Proof.
  induction todo as [|c todo IH]; intros self i w self' exc w'.
  - rewrite run_loop_nil. intros [= <- <- <-]. exists []. rewrite app_nil_r.
    repeat split; auto. simpl. lia.
  - rewrite run_loop_cons. change (iteration (Some fb)) with (reprocess_iteration fb).
    rewrite reprocess_iteration_eq. cbv zeta.
    set (p := prompt_add _ _).
    set (w1 := {| classification_cache := _; gemini := _; prompts := _; now := _ |}).
    destruct (_ ≫= _) as [self1|e] eqn:Hit.
    + apply bind_Ok in Hit as (row & _ & [= <-]). intros Hloop.
      apply IH in Hloop as (new & Hnew & Hsuf & Hmap & Hlen & Hle).
      unfold append_result in Hlen, Hle. simpl in Hlen, Hle.
      rewrite length_app in Hlen, Hle. simpl in Hlen, Hle.
      exists (p :: new). rewrite Hnew. subst w1. simpl. rewrite <- app_assoc.
      split; [reflexivity|]. split; [constructor; [split; reflexivity|exact Hsuf]|].
      split; [rewrite Hmap; reflexivity|]. split; lia.
    + intros [= <- <- <-]. exists [p]. subst w1. simpl.
      split; [reflexivity|]. split; [repeat constructor|].
      split; [reflexivity|]. split; lia.
Qed.


(** ** Requests *)

Lemma strip_front_blank back s : is_blank s = true -> strip_front back s = "".
Proof.
  induction s as [|a s IH]; simpl; [reflexivity|].
  intros H. apply andb_true_iff in H as [Ha Hs]. rewrite Ha. auto.
Qed.

Lemma strip_blank s : is_blank s = true -> strip s = "".
Proof. intros H. unfold strip. rewrite (strip_front_blank false s H). reflexivity. Qed.

(** X11. For a session of a reachable state: feedback on a
    session that is still pending is rejected with "No results to
    regenerate"; feedback that has ASCII whitespace only is rejected with
    "Please provide feedback" when the session has results; and feedback
    of whitespace only never changes the state, so it starts no run. *)
Theorem regenerate_needs_results_and_feedback (st : System) (id feedback : string)
    (a : nat) (session : ProcessingSession) :
  reachable st -> find_session id st = Some (a, session) ->
  (status session = pending ->
     regenerate_results id feedback st
     = (HTTPException 400 "No results to regenerate", st))
  /\ (is_blank feedback = true -> results session <> [] ->
        regenerate_results id feedback st
        = (HTTPException 400 "Please provide feedback", st))
  /\ (is_blank feedback = true -> snd (regenerate_results id feedback st) = st).
Proof.
  intros Hr Hf. unfold regenerate_results. rewrite Hf.
  apply find_session_Some in Hf as [_ Ha].
  apply reachable_sound in Hr as (Hs & _).
  pose proof (proj1 (Forall_lookup _ _) Hs a session Ha) as (_ & _ & _ & H4 & _).
  split; [|split].
  - intros Hp. destruct (H4 Hp) as (E & _). rewrite E. reflexivity.
  - intros Hb Hres. rewrite (strip_blank _ Hb). case_bool_decide; [contradiction|reflexivity].
  - intros Hb. rewrite (strip_blank _ Hb). case_bool_decide; reflexivity.
Qed.

Lemma regenerate_needs_results_and_feedback_witness :
  (reachable uploaded
   /\ exists session,
        find_session "s1" uploaded = Some (0%nat, session)
        /\ status session = pending
        /\ regenerate_results "s1" "be stricter" uploaded
           = (HTTPException 400 "No results to regenerate", uploaded))
  /\ (reachable done_run
      /\ find_session "s1" done_run = Some (0%nat, done_session)
      /\ is_blank "  " = true /\ results done_session <> []
      /\ regenerate_results "s1" "  " done_run
         = (HTTPException 400 "Please provide feedback", done_run)).
Proof.
  split.
  - split; [exact uploaded_reachable|]. eexists.
    split; [vm_compute; reflexivity|]. split; [reflexivity|].
    refine (proj1 (regenerate_needs_results_and_feedback uploaded "s1" "be stricter" 0 _
                     uploaded_reachable _) _); vm_compute; reflexivity.
  - assert (find_session "s1" done_run = Some (0%nat, done_session)) as Hf
        by (vm_compute; reflexivity).
    assert (results done_session <> []) as Hres by (vm_compute; discriminate).
    split; [exact done_run_reachable|]. split; [exact Hf|].
    split; [reflexivity|]. split; [exact Hres|].
    exact (proj1 (proj2 (regenerate_needs_results_and_feedback done_run "s1" "  " 0
                           done_session done_run_reachable Hf)) eq_refl Hres).
Defined.

Lemma run_task_forget id n st : run_task n (forget id st) = forget id (run_task n st).
Proof.
  unfold run_task, forget. simpl.
  destruct (tasks st !! n) as [t|]; [|reflexivity].
  destruct (heap st !! task_self t) as [self|]; [|reflexivity].
  destruct (run_block t self (env st)) as [[self' w'] t']. reflexivity.
Qed.

(** X12. Deleting an unknown id is answered with 404 and changes
    nothing. Deleting a known id removes the id only: the other ids are
    found as before, every request on the deleted id is answered with 404,
    and the coroutines in flight on the session go on as they would have
    without the deletion. *)
Theorem delete_session_forgets_the_id (st : System) (id : string) :
  (sessions st !! id = None ->
     delete_session id st = (not_found, st))
  /\ (is_Some (sessions st !! id) ->
      delete_session id st = (OK tt, forget id st)
      /\ (forall id', id' <> id ->
            find_session id' (forget id st) = find_session id' st)
      /\ get_progress id (forget id st) = (not_found, forget id st)
      /\ get_results id (forget id st) = (not_found, forget id st)
      /\ download_results id (forget id st) = (not_found, forget id st)
      /\ start_processing id (forget id st) = (not_found, forget id st)
      /\ (forall feedback,
            regenerate_results id feedback (forget id st) = (not_found, forget id st))
      /\ delete_session id (forget id st) = (not_found, forget id st)
      /\ (forall n, run_task n (forget id st) = forget id (run_task n st))).
Proof.
  split.
  - intros H. unfold delete_session. rewrite H. reflexivity.
  - intros [a Ha].
    assert (find_session id (forget id st) = None) as Hnone.
    { unfold find_session, forget. simpl. rewrite lookup_delete_eq. reflexivity. }
    split; [unfold delete_session; rewrite Ha; reflexivity|].
    split.
    { intros id' Hne. unfold find_session, forget. simpl.
      rewrite lookup_delete_ne by auto. reflexivity. }
    unfold get_progress, get_results, download_results, start_processing,
      regenerate_results. rewrite Hnone.
    repeat (split; [reflexivity|]).
    split; [|intros n; apply run_task_forget].
    unfold delete_session, forget. simpl. rewrite lookup_delete_eq. reflexivity.
Qed.

Lemma delete_session_forgets_the_id_witness :
  is_Some (sessions done_run !! "s1")
  /\ delete_session "s1" done_run = (OK tt, forget "s1" done_run)
  /\ get_results "s1" (forget "s1" done_run) = (not_found, forget "s1" done_run)
  /\ delete_session "s2" done_run = (not_found, done_run).
Proof.
  assert (is_Some (sessions done_run !! "s1")) as H by (vm_compute; eauto).
  split; [exact H|].
  destruct (proj2 (delete_session_forgets_the_id done_run "s1") H)
    as (H1 & _ & _ & H4 & _).
  split; [exact H1|]. split; [exact H4|].
  apply (proj1 (delete_session_forgets_the_id done_run "s2")).
  vm_compute. reflexivity.
Defined.


(** X3. Right after an upload the session is found under its id:
    its progress is pending with no processed row, no elapsed time and no
    error; starting it is rejected with "No complaints to process" when
    the complaint list is empty, else with "No risk table loaded" when the
    risk table is empty, and else puts one run on the new session and
    answers with the number of complaints; results are refused and
    feedback is rejected with "No results to regenerate"; the sessions
    stored under other ids are found as before. *)
Theorem uploaded_session_is_pending (id : string) (cs : list string)
    (t : list row) (st : System) :
  let st1 := snd (upload_files id cs t st) in
  fst (upload_files id cs t st)
  = OK {| up_session_id := id; up_complaints_count := length cs;
          up_risk_table_loaded := bool_decide (t <> []) |}
  /\ fst (get_progress id st1)
     = OK {| pr_status := "pending"; pr_total_rows := length cs;
             pr_processed_rows := 0; pr_elapsed_seconds := 0;
             pr_error_message := None |}
  /\ start_processing id st1
     = (if bool_decide (cs = []) then
          (HTTPException 400 "No complaints to process", st1)
        else if bool_decide (t = []) then
          (HTTPException 400 "No risk table loaded", st1)
        else
          (OK (length cs),
           add_task {| task_self := length (heap st); task_kind := None;
                       task_next := None |} st1))
  /\ get_results id st1
     = (HTTPException 400 "Processing not complete. Current status: pending", st1)
  /\ (forall feedback,
        regenerate_results id feedback st1
        = (HTTPException 400 "No results to regenerate", st1))
  /\ (forall id' a session,
        id' <> id -> find_session id' st = Some (a, session) ->
        find_session id' st1 = Some (a, session)).
Proof.
  set (session := {| session_id := id; created_at := now (env st); complaints := cs;
                     risk_table := t; results := []; status := pending;
                     total_rows := length cs; processed_rows := 0;
                     start_time := None; end_time := None; error_message := None |}).
  assert (find_session id (snd (upload_files id cs t st))
          = Some (length (heap st), session)) as Hf.
  { unfold find_session, upload_files. simpl. rewrite lookup_insert_eq. simpl.
    rewrite lookup_app_r by lia. rewrite Nat.sub_diag. reflexivity. }
  cbv zeta. split.
  { unfold upload_files. simpl. do 2 f_equal.
    destruct t; reflexivity. }
  unfold get_progress, start_processing, get_results, regenerate_results.
  rewrite Hf. split; [reflexivity|]. split.
  { case_decide; [discriminate|]. reflexivity. }
  split; [reflexivity|]. split; [reflexivity|].
  intros id' a s Hne Hold. apply find_session_Some in Hold as [Hid Ha].
  unfold find_session, upload_files. simpl.
  rewrite lookup_insert_ne by auto. rewrite Hid. simpl.
  rewrite (lookup_app_l_Some _ _ _ _ Ha). reflexivity.
Qed.

Lemma uploaded_session_is_pending_witness :
  find_session "s1" done_run = Some (0%nat, done_session)
  /\ find_session "s1" (snd (upload_files "s2" ["slow"] example_table done_run))
     = Some (0%nat, done_session).
Proof.
  assert (find_session "s1" done_run = Some (0%nat, done_session)) as Hf
      by (vm_compute; reflexivity).
  split; [exact Hf|].
  destruct (uploaded_session_is_pending "s2" ["slow"] example_table done_run)
    as (_ & _ & _ & _ & _ & H).
  apply H; [discriminate|exact Hf].
Defined.



(** ** Priority levels of clamped scores *)

Lemma valid_score_range n : valid_score n -> In n score_range.
Proof. unfold valid_score, score_range. simpl. lia. Qed.

Lemma levels_exact_on_range_true : levels_exact_on_range = true.
Proof. vm_compute. reflexivity. Qed.

Lemma valid_priority_level i u f c :
  valid_score i -> valid_score u -> valid_score f -> valid_score c ->
  priority_level_of i u f c = Some (exact_level (i * u * f) c).
Proof.
  intros Hi Hu Hf Hc. pose proof levels_exact_on_range_true as H.
  unfold levels_exact_on_range in H.
  pose proof (proj1 (forallb_forall _ _) H i (valid_score_range i Hi)) as H1.
  pose proof (proj1 (forallb_forall _ _) H1 u (valid_score_range u Hu)) as H2.
  pose proof (proj1 (forallb_forall _ _) H2 f (valid_score_range f Hf)) as H3.
  pose proof (proj1 (forallb_forall _ _) H3 c (valid_score_range c Hc)) as H4.
  simpl in H4. destruct (priority_level_of i u f c) as [level|]; [|discriminate].
  apply String.eqb_eq in H4. rewrite H4. reflexivity.
Qed.

(** X14. For scores from 1 to 5 [calculate_priority] raises
    nothing, and rounding the score to two decimals moves no score across
    a threshold: the level is the one given by comparing
    impact * urgency * frequency with 60, 40 and 20 times the
    controllability. *)
Theorem valid_scores_level_is_exact (i u f c : Z) :
  valid_score i -> valid_score u -> valid_score f -> valid_score c ->
  exists score,
    calculate_priority i u f c = Ok (score, exact_level (i * u * f) c).
Proof.
  intros Hi Hu Hf Hc. pose proof (valid_priority_level i u f c Hi Hu Hf Hc) as H.
  unfold priority_level_of in H.
  destruct (calculate_priority i u f c) as [[score level]|e]; [|discriminate].
  injection H as ->. eauto.
Qed.

Lemma valid_scores_level_is_exact_witness :
  valid_score 5 /\ valid_score 4 /\ valid_score 3 /\ valid_score 1
  /\ exists score, calculate_priority 5 4 3 1 = Ok (score, "P1 - Critical").
Proof.
  unfold valid_score. repeat (split; [lia|]).
  apply (valid_scores_level_is_exact 5 4 3 1); unfold valid_score; lia.
Defined.

Lemma exact_level_rank p c p' c' :
  0 < c' <= c -> p <= p' ->
  (level_rank (exact_level p' c') <= level_rank (exact_level p c))%nat.
Proof.
  intros Hc Hp. unfold exact_level.
  destruct (Z.leb_spec (60 * c) p), (Z.leb_spec (60 * c') p'); try lia;
    try (vm_compute; lia);
  destruct (Z.leb_spec (40 * c) p), (Z.leb_spec (40 * c') p'); try lia;
    try (vm_compute; lia);
  destruct (Z.leb_spec (20 * c) p), (Z.leb_spec (20 * c') p'); try lia;
    vm_compute; lia.
Qed.

(** X15. For scores from 1 to 5, raising the impact, the
    urgency or the frequency, or lowering the controllability, never
    gives a less urgent level. *)
Theorem valid_scores_level_is_monotone (i u f c i' u' f' c' : Z)
    (level level' : string) :
  valid_score i -> valid_score u -> valid_score f -> valid_score c ->
  valid_score i' -> valid_score u' -> valid_score f' -> valid_score c' ->
  i <= i' -> u <= u' -> f <= f' -> c' <= c ->
  priority_level_of i u f c = Some level ->
  priority_level_of i' u' f' c' = Some level' ->
  (level_rank level' <= level_rank level)%nat.
Proof.
  intros Hi Hu Hf Hc Hi' Hu' Hf' Hc' Li Lu Lf Lc.
  rewrite (valid_priority_level i u f c), (valid_priority_level i' u' f' c') by assumption.
  intros [= <-] [= <-]. unfold valid_score in *.
  apply exact_level_rank; [lia|]. 
  assert (i * u <= i' * u') by nia. nia.
Qed.

Lemma valid_scores_level_is_monotone_witness :
  priority_level_of 2 2 2 2 = Some "P4 - Low"
  /\ priority_level_of 5 4 3 1 = Some "P1 - Critical"
  /\ (level_rank "P1 - Critical" <= level_rank "P4 - Low")%nat.
Proof.
  split; [vm_compute; reflexivity|]. split; [vm_compute; reflexivity|].
  apply (valid_scores_level_is_monotone 2 2 2 2 5 4 3 1);
    unfold valid_score; try lia; vm_compute; reflexivity.
Defined.

(** ** Strings *)

Lemma string_app_cons a (r s : string) : String a r ++ s = String a (r ++ s).
Proof. reflexivity. Qed.

Lemma string_app_nil_l (s : string) : "" ++ s = s.
Proof. reflexivity. Qed.

Lemma string_app_nil_r (s : string) : s ++ "" = s.
Proof.
  induction s as [|a r IH]; [reflexivity|]. rewrite string_app_cons. f_equal. exact IH.
Qed.

Lemma string_app_assoc (s1 s2 s3 : string) : (s1 ++ s2) ++ s3 = s1 ++ (s2 ++ s3).
Proof.
  induction s1 as [|a r IH]; [reflexivity|]. rewrite !string_app_cons. f_equal. exact IH.
Qed.

Lemma string_app_length (s1 s2 : string) :
  String.length (s1 ++ s2) = (String.length s1 + String.length s2)%nat.
Proof.
  induction s1 as [|a r IH]; [reflexivity|]. rewrite string_app_cons. simpl.
  f_equal. exact IH.
Qed.

Lemma rev_string_app acc s : rev_string acc s = reverse s ++ acc.
Proof.
  unfold reverse. revert acc. induction s as [|a s IH]; intros acc; simpl; [reflexivity|].
  rewrite (IH (String a acc)), (IH (String a "")), string_app_assoc. reflexivity.
Qed.

Lemma reverse_cons a s : reverse (String a s) = reverse s ++ String a "".
Proof. unfold reverse at 1. simpl. apply rev_string_app. Qed.

Lemma reverse_app s1 s2 : reverse (s1 ++ s2) = reverse s2 ++ reverse s1.
Proof.
  induction s1 as [|a s IH].
  - change (reverse "") with "". rewrite string_app_nil_r. reflexivity.
  - rewrite string_app_cons, !reverse_cons, IH, string_app_assoc. reflexivity.
Qed.

Lemma reverse_involutive s : reverse (reverse s) = s.
Proof.
  induction s as [|a s IH]; [reflexivity|].
  rewrite reverse_cons, reverse_app, IH. reflexivity.
Qed.

Lemma reverse_length s : String.length (reverse s) = String.length s.
Proof.
  induction s as [|a s IH]; [reflexivity|].
  rewrite reverse_cons, string_app_length, IH. simpl. lia.
Qed.

Lemma startswith_app p s : startswith (p ++ s) p = true.
Proof.
  unfold startswith. induction p as [|a p IH]; [destruct s; reflexivity|].
  rewrite string_app_cons. simpl. destruct (ascii_dec a a); [exact IH|contradiction].
Qed.

Lemma endswith_app s p : endswith (s ++ p) p = true.
Proof. unfold endswith. rewrite reverse_app. apply startswith_app. Qed.

Lemma drop_app p s : drop (String.length p) (p ++ s) = s.
Proof.
  induction p as [|a p IH]; [destruct s; reflexivity|]. rewrite string_app_cons. exact IH.
Qed.

Lemma slice_to_minus_app s p : slice_to_minus (String.length p) (s ++ p) = s.
Proof.
  unfold slice_to_minus. rewrite reverse_app, <- (reverse_length p), drop_app.
  apply reverse_involutive.
Qed.

(** ** Whitespace *)

Lemma strip_front_fix back s : no_lead back s = true -> strip_front back s = s.
Proof.
  destruct s as [|a [|b [|c s]]]; simpl; [reflexivity| | |].
  - intros H. rewrite andb_true_r in H. apply negb_true_iff in H. rewrite H. reflexivity.
  - intros H. apply andb_true_iff in H as [H1 H2]. rewrite andb_true_r in H2.
    apply negb_true_iff in H1, H2. rewrite H1, H2. reflexivity.
  - intros H. apply andb_true_iff in H as [H1 H2]. apply andb_true_iff in H2 as [H2 H3].
    apply negb_true_iff in H1, H2, H3. rewrite H1, H2, H3. reflexivity.
Qed.

(** What [strip_front] returns is the end of its argument, and it does
    not begin with whitespace. *)
Lemma strip_front_spec back n : forall s, (String.length s <= n)%nat ->
  no_lead back (strip_front back s) = true
  /\ exists x, s = x ++ strip_front back s.
Proof.
  induction n as [|n IH]; intros s Hn.
  { destruct s; [|simpl in Hn; lia]. split; [reflexivity|]. exists "". reflexivity. }
  destruct s as [|a s1]; [split; [reflexivity|exists ""; reflexivity]|].
  simpl in Hn. simpl strip_front.
  destruct (space1 (code a)) eqn:E1.
  { destruct (IH s1 ltac:(lia)) as [H1 [x Hx]]. split; [exact H1|].
    exists (String a x). rewrite string_app_cons, <- Hx. reflexivity. }
  destruct s1 as [|b s2].
  { split; [simpl; rewrite E1; reflexivity|exists ""; reflexivity]. }
  simpl in Hn.
  destruct (if back then space2 (code b) (code a) else space2 (code a) (code b)) eqn:E2.
  { destruct (IH s2 ltac:(lia)) as [H1 [x Hx]]. split; [exact H1|].
    exists (String a (String b x)). rewrite !string_app_cons, <- Hx. reflexivity. }
  destruct s2 as [|c s3].
  { split; [simpl; rewrite E1, E2; reflexivity|exists ""; reflexivity]. }
  simpl in Hn.
  destruct (if back then space3 (code c) (code b) (code a)
            else space3 (code a) (code b) (code c)) eqn:E3.
  { destruct (IH s3 ltac:(lia)) as [H1 [x Hx]]. split; [exact H1|].
    exists (String a (String b (String c x))). rewrite !string_app_cons, <- Hx.
    reflexivity. }
  split; [simpl; rewrite E1, E2, E3; reflexivity|exists ""; reflexivity].
Qed.

Lemma no_lead_prefix back s x : no_lead back (s ++ x) = true -> no_lead back s = true.
Proof.
  destruct s as [|a [|b [|c s]]]; rewrite ?string_app_cons, ?string_app_nil_l; simpl;
    [reflexivity| | |].
  - intros H. apply andb_true_iff in H as [H1 _]. rewrite H1. reflexivity.
  - intros H. apply andb_true_iff in H as [H1 H2]. rewrite H1. simpl.
    destruct x; [exact H2|]. apply andb_true_iff in H2 as [H2 _]. rewrite H2. reflexivity.
  - intros H. exact H.
Qed.

Lemma strip_spec s :
  no_lead false (strip s) = true /\ no_lead true (reverse (strip s)) = true
  /\ exists x y, s = x ++ strip s ++ y.
Proof.
  unfold strip.
  destruct (strip_front_spec false _ s (le_n _)) as [H1 [x Hx]].
  set (u := strip_front false s) in *.
  destruct (strip_front_spec true _ (reverse u) (le_n _)) as [H2 [y Hy]].
  set (v := strip_front true (reverse u)) in *.
  assert (u = reverse v ++ reverse y) as Hu.
  { rewrite <- (reverse_involutive u), Hy, reverse_app. reflexivity. }
  split; [|split].
  - apply (no_lead_prefix false _ (reverse y)). rewrite <- Hu. exact H1.
  - rewrite reverse_involutive. exact H2.
  - exists x, (reverse y). rewrite <- Hu. exact Hx.
Qed.

Lemma strip_fix s :
  no_lead false s = true -> no_lead true (reverse s) = true -> strip s = s.
Proof.
  intros H1 H2. unfold strip. rewrite (strip_front_fix false s H1).
  rewrite (strip_front_fix true _ H2). apply reverse_involutive.
Qed.

Lemma strip_idempotent s : strip (strip s) = strip s.
Proof. destruct (strip_spec s) as (H1 & H2 & _). apply strip_fix; assumption. Qed.

Lemma strip_front_app_blank back ws s :
  is_blank ws = true -> strip_front back (ws ++ s) = strip_front back s.
Proof.
  induction ws as [|a ws IH]; [reflexivity|]. simpl is_blank. intros H.
  apply andb_true_iff in H as [Ha Hws]. rewrite string_app_cons. simpl. rewrite Ha. auto.
Qed.

Lemma is_blank_app s1 s2 : is_blank (s1 ++ s2) = is_blank s1 && is_blank s2.
Proof.
  induction s1 as [|a s IH]; [reflexivity|]. rewrite string_app_cons. simpl.
  rewrite IH, andb_assoc. reflexivity.
Qed.

Lemma is_blank_reverse s : is_blank (reverse s) = is_blank s.
Proof.
  induction s as [|a s IH]; [reflexivity|].
  rewrite reverse_cons, is_blank_app, IH. simpl. rewrite andb_true_r. apply andb_comm.
Qed.

(** Whitespace around a stripped text is removed. *)
Lemma strip_app_blank ws1 s ws2 :
  is_blank ws1 = true -> is_blank ws2 = true -> s <> "" ->
  no_lead false s = true -> no_lead true (reverse s) = true ->
  strip (ws1 ++ s ++ ws2) = s.
Proof.
  intros H1 H2 Hne Hs Hr. unfold strip. rewrite (strip_front_app_blank false ws1 _ H1).
  assert (strip_front false (s ++ ws2) = s ++ ws2) as ->.
  { destruct s as [|a [|b [|c s]]]; [contradiction| | |];
      rewrite ?string_app_cons, ?string_app_nil_l.
    - simpl in Hs |- *. rewrite andb_true_r in Hs. apply negb_true_iff in Hs. rewrite Hs.
      destruct ws2 as [|w ws2]; [reflexivity|].
      simpl in H2. apply andb_true_iff in H2 as [Hw _].
      assert (space2 (code a) (code w) = false) as ->.
      { unfold space1 in Hw. unfold space2.
        destruct (code a =? 194); [|reflexivity]. simpl.
        destruct (Z.eqb_spec (code w) 133); [lia|].
        destruct (Z.eqb_spec (code w) 160); [lia|]. reflexivity. }
      destruct ws2 as [|w2 ws2]; [reflexivity|].
      assert (space3 (code a) (code w) (code w2) = false) as ->; [|reflexivity].
      unfold space1 in Hw. unfold space3.
      destruct (Z.eqb_spec (code w) 154); [lia|].
      destruct (Z.eqb_spec (code w) 128); [lia|].
      destruct (Z.eqb_spec (code w) 129); [lia|].
      rewrite !andb_false_r. reflexivity.
    - simpl in Hs |- *. apply andb_true_iff in Hs as [Hs1 Hs2]. rewrite andb_true_r in Hs2.
      apply negb_true_iff in Hs1, Hs2. rewrite Hs1, Hs2.
      destruct ws2 as [|w ws2]; [reflexivity|].
      simpl in H2. apply andb_true_iff in H2 as [Hw _].
      assert (space3 (code a) (code b) (code w) = false) as ->; [|reflexivity].
      unfold space1 in Hw. unfold space3.
      destruct (Z.eqb_spec (code w) 128); [lia|].
      destruct (Z.eqb_spec (code w) 159); [lia|].
      destruct (Z.leb_spec 128 (code w)); [lia|].
      destruct (Z.eqb_spec (code w) 168); [lia|].
      destruct (Z.eqb_spec (code w) 169); [lia|].
      destruct (Z.eqb_spec (code w) 175); [lia|].
      simpl. rewrite !andb_false_r. reflexivity.
    - apply strip_front_fix. exact Hs. }
  rewrite reverse_app, strip_front_app_blank by (rewrite is_blank_reverse; exact H2).
  rewrite (strip_front_fix true _ Hr). apply reverse_involutive.
Qed.

(** ** The markdown fence of an answer *)

Lemma startswith_cons s a p :
  startswith s (String a p) = true -> exists r, s = String a r /\ startswith r p = true.
Proof.
  unfold startswith. destruct s as [|b r]; simpl; [discriminate|].
  destruct (ascii_dec a b) as [->|]; [eauto|discriminate].
Qed.

Lemma braced_spec body :
  braced body ->
  (exists r, body = String "{" r)
  /\ (exists r, reverse body = String "}" r)
  /\ body <> "" /\ no_lead false body = true /\ no_lead true (reverse body) = true.
Proof.
  intros [H1 H2]. apply startswith_cons in H1 as (r & -> & _).
  unfold endswith in H2. change (reverse "}") with "}" in H2.
  apply startswith_cons in H2 as (r' & Hr & _).
  split; [eauto|]. split; [eauto|]. split; [discriminate|]. split.
  - destruct r as [|b [|c r]]; reflexivity.
  - rewrite Hr. destruct r' as [|b [|c r']]; simpl; try reflexivity.
    + unfold space2. rewrite andb_false_r. reflexivity.
    + unfold space2, space3. simpl. rewrite !andb_false_r. reflexivity.
Qed.

(** After whitespace and a brace comes no fence. *)
Lemma no_fence_ahead ws body x a p :
  is_blank ws = true -> braced body -> space1 (code a) = false -> a <> "{"%char ->
  startswith (ws ++ body ++ x) (String a p) = false.
Proof.
  intros Hws Hb Ha Hne. destruct (braced_spec body Hb) as ((r & ->) & _).
  unfold startswith. destruct ws as [|w ws].
  - rewrite string_app_nil_l, string_app_cons. simpl.
    destruct (ascii_dec a "{"); [contradiction|reflexivity].
  - rewrite string_app_cons. simpl. simpl in Hws. apply andb_true_iff in Hws as [Hw _].
    destruct (ascii_dec a w) as [->|]; [congruence|reflexivity].
Qed.

Lemma endswith_brace body p a :
  braced body -> a <> "}"%char -> endswith body (p ++ String a "") = false.
Proof.
  intros Hb Hne. destruct (braced_spec body Hb) as (_ & (r & Hr) & _).
  unfold endswith. rewrite reverse_app, Hr. change (reverse (String a "")) with (String a "").
  rewrite string_app_cons. unfold startswith. simpl.
  destruct (ascii_dec a "}"); [contradiction|reflexivity].
Qed.

Lemma clean_fenced lang ws1 body ws2 :
  is_blank ws1 = true -> is_blank ws2 = true -> braced body ->
  (lang = "json" \/ lang = "") ->
  let text := "```" ++ lang ++ ws1 ++ body ++ ws2 ++ "```" in
  no_lead false text = true /\ no_lead true (reverse text) = true /\ text <> ""
  /\ strip
       (let t := if startswith text "```json" then slice_from 7 text else text in
        let t := if startswith t "```" then slice_from 3 t else t in
        if endswith t "```" then slice_to_minus 3 t else t)
     = body.
Proof.
  intros H1 H2 Hb Hlang. destruct (braced_spec body Hb) as (_ & _ & Hne & Hs & Hr).
  cbv zeta.
  assert (reverse ("```" ++ lang ++ ws1 ++ body ++ ws2 ++ "```")
          = "```" ++ reverse ("```" ++ lang ++ ws1 ++ body ++ ws2)) as Hrev.
  { rewrite <- (reverse_app _ "```"). f_equal.
    rewrite !string_app_assoc. reflexivity. }
  split; [reflexivity|]. split; [rewrite Hrev; reflexivity|]. split; [discriminate|].
  assert (startswith (ws1 ++ body ++ ws2 ++ "```") "```" = false) as Hno.
  { apply no_fence_ahead; auto; discriminate. }
  assert (endswith (ws1 ++ body ++ ws2 ++ "```") "```" = true) as Hend.
  { replace (ws1 ++ body ++ ws2 ++ "```") with ((ws1 ++ body ++ ws2) ++ "```")
      by (rewrite !string_app_assoc; reflexivity).
    apply endswith_app. }
  assert (slice_to_minus 3 (ws1 ++ body ++ ws2 ++ "```") = ws1 ++ body ++ ws2) as Hcut.
  { replace (ws1 ++ body ++ ws2 ++ "```") with ((ws1 ++ body ++ ws2) ++ "```")
      by (rewrite !string_app_assoc; reflexivity).
    apply (slice_to_minus_app _ "```"). }
  destruct Hlang as [-> | ->].
  - change ("```" ++ "json" ++ ws1 ++ body ++ ws2 ++ "```")
      with ("```json" ++ ws1 ++ body ++ ws2 ++ "```").
    rewrite startswith_app.
    change (slice_from 7 ("```json" ++ ws1 ++ body ++ ws2 ++ "```"))
      with (drop (String.length "```json") ("```json" ++ ws1 ++ body ++ ws2 ++ "```")).
    rewrite drop_app, Hno, Hend, Hcut. apply strip_app_blank; auto.
  - rewrite string_app_nil_l.
    assert (startswith ("```" ++ ws1 ++ body ++ ws2 ++ "```") "```json" = false) as ->.
    { change (startswith ("```" ++ ws1 ++ body ++ ws2 ++ "```") "```json")
        with (startswith (ws1 ++ body ++ ws2 ++ "```") "json").
      apply no_fence_ahead; auto; discriminate. }
    rewrite startswith_app.
    change (slice_from 3 ("```" ++ ws1 ++ body ++ ws2 ++ "```"))
      with (drop (String.length "```") ("```" ++ ws1 ++ body ++ ws2 ++ "```")).
    rewrite drop_app, Hend, Hcut. apply strip_app_blank; auto.
Qed.

(** X16. An answer that is the text of a JSON object (it begins
    and ends with a brace) inside a markdown fence, opened by three
    backquotes with or without the word json, with any ASCII whitespace
    around the fence and around the object, is cleaned to the object
    itself, as is the object with whitespace around it and no fence; so
    the fenced answer is decoded like the bare object. *)
Theorem fenced_answer_is_unwrapped (ws0 ws1 body ws2 ws3 : string) :
  is_blank ws0 = true -> is_blank ws1 = true -> is_blank ws2 = true ->
  is_blank ws3 = true -> braced body ->
  clean_response (ws0 ++ ("```json" ++ ws1 ++ body ++ ws2 ++ "```") ++ ws3) = body
  /\ clean_response (ws0 ++ ("```" ++ ws1 ++ body ++ ws2 ++ "```") ++ ws3) = body
  /\ clean_response (ws0 ++ body ++ ws3) = body
  /\ parse_response (ws0 ++ ("```json" ++ ws1 ++ body ++ ws2 ++ "```") ++ ws3)
     = parse_response body.
Proof.
  intros H0 H1 H2 H3 Hb.
  destruct (clean_fenced "json" ws1 body ws2 H1 H2 Hb (or_introl eq_refl))
    as (Ha & Hb' & Hc & Hd).
  destruct (clean_fenced "" ws1 body ws2 H1 H2 Hb (or_intror eq_refl))
    as (Ha' & Hb'' & Hc' & Hd').
  cbv zeta in Hd, Hd'. rewrite string_app_nil_l in Ha', Hb'', Hc', Hd'.
  change ("```" ++ "json" ++ ws1 ++ body ++ ws2 ++ "```")
    with ("```json" ++ ws1 ++ body ++ ws2 ++ "```") in Ha, Hb', Hc, Hd.
  destruct (braced_spec body Hb) as ((r & Hr) & _ & Hne & Hs & Hrv).
  assert (clean_response body = body) as Hbare.
  { unfold clean_response. cbv zeta. rewrite (strip_fix body Hs Hrv).
    assert (startswith body "```json" = false) as ->.
    { rewrite Hr. unfold startswith. reflexivity. }
    assert (startswith body "```" = false) as ->.
    { rewrite Hr. unfold startswith. reflexivity. }
    assert (endswith body "```" = false) as ->.
    { apply (endswith_brace body "``" "`" Hb). discriminate. }
    apply strip_fix; assumption. }
  assert (clean_response (ws0 ++ ("```json" ++ ws1 ++ body ++ ws2 ++ "```") ++ ws3)
          = body) as Hjson.
  { unfold clean_response. cbv zeta.
    rewrite (strip_app_blank ws0 _ ws3) by assumption. exact Hd. }
  split; [exact Hjson|]. split; [|split].
  - unfold clean_response. cbv zeta.
    rewrite (strip_app_blank ws0 _ ws3) by assumption. exact Hd'.
  - unfold clean_response in Hbare |- *. cbv zeta in Hbare |- *.
    rewrite (strip_app_blank ws0 body ws3) by assumption.
    rewrite (strip_fix body Hs Hrv) in Hbare. exact Hbare.
  - unfold parse_response. rewrite Hjson, Hbare. reflexivity.
Qed.

Lemma fenced_answer_is_unwrapped_witness :
  braced out_of_range_response
  /\ clean_response
       (" " ++ ("```json" ++ String (chr 10) "" ++ out_of_range_response
                ++ String (chr 10) "" ++ "```") ++ String (chr 10) "")
     = out_of_range_response.
Proof.
  assert (braced out_of_range_response) as Hb by (split; vm_compute; reflexivity).
  split; [exact Hb|].
  apply (fenced_answer_is_unwrapped " " (String (chr 10) "") out_of_range_response
           (String (chr 10) "") (String (chr 10) "")); try reflexivity. exact Hb.
Defined.

(** ** The fields of a decoded answer *)

Lemma dict_set_same k v d : dict_get k d = Some v -> dict_set k v d = d.
Proof.
  induction d as [|[k' v'] d IH]; simpl; [discriminate|].
  destruct (String.eqb k k'); [intros [= ->]; reflexivity|].
  intros H. rewrite (IH H). reflexivity.
Qed.

Lemma clamp_score_fix key d :
  score_ok d key -> clamp_score key d = Ok d.
Proof.
  intros (n & Hn & Hv). unfold clamp_score. rewrite Hn. simpl.
  unfold valid_score in Hv. replace (Z.max 1 (Z.min 5 n)) with n by lia.
  rewrite (dict_set_same _ _ _ Hn). reflexivity.
Qed.

(** X17. When an answer is decoded, the JSON text was an
    object, every field but the four scores (the risk code and the
    description among them) is returned as it was in the answer, and
    clamping the result again changes nothing. *)
Theorem parsed_answer_keeps_other_fields (text : string) (d : dict) :
  parse_response text = Ok d ->
  (exists d0,
     json_loads (clean_response text) = Ok (PyDict d0)
     /\ forall key, key ∉ score_keys -> dict_get key d = dict_get key d0)
  /\ clamp_scores (PyDict d) = Ok d.
Proof.
  intros H. pose proof (parse_response_ok text d H) as Hok.
  split.
  - unfold parse_response in H. apply bind_Ok in H as (v & Hv & H).
    destruct v as [| | | | | |d0]; try discriminate H. exists d0. split; [exact Hv|].
    unfold clamp_scores in H.
    apply bind_Ok in H as (d1 & H1 & H). apply bind_Ok in H as (d2 & H2 & H).
    apply bind_Ok in H as (d3 & H3 & H4).
    apply clamp_score_Ok in H1 as (n1 & _ & ->), H2 as (n2 & _ & ->),
      H3 as (n3 & _ & ->), H4 as (n4 & _ & ->).
    intros key Hkey. unfold score_keys in Hkey.
    rewrite !dict_get_set_ne; [reflexivity| | | |]; intros <-; apply Hkey; set_solver.
  - unfold classification_ok, score_keys in Hok.
    apply Forall_cons in Hok as [H1 Hok]. apply Forall_cons in Hok as [H2 Hok].
    apply Forall_cons in Hok as [H3 Hok]. apply Forall_cons in Hok as [H4 _].
    unfold clamp_scores. rewrite (clamp_score_fix _ _ H1). simpl.
    rewrite (clamp_score_fix _ _ H2). simpl. rewrite (clamp_score_fix _ _ H3). simpl.
    apply clamp_score_fix. exact H4.
Qed.

Lemma parsed_answer_keeps_other_fields_witness :
  exists d,
    parse_response out_of_range_response = Ok d
    /\ clamp_scores (PyDict d) = Ok d.
Proof.
  eexists. split; [vm_compute; reflexivity|].
  eapply (proj2 (parsed_answer_keeps_other_fields out_of_range_response _ _)).
  Unshelve. vm_compute. reflexivity.
Defined.

(** ** The layer-1 counter *)



(** ** The complaints of an upload *)


Lemma complaint_of_row_Some row c :
  complaint_of_row row = Some c -> c <> "" /\ strip c = c.
Proof.
  unfold complaint_of_row. destruct row as [|cell more]; [discriminate|].
  destruct (String.eqb_spec (strip cell) ""); [discriminate|].
  intros [= <-]. split; [assumption|apply strip_idempotent].
Qed.

Lemma omap_complaints rows :
  Forall (fun c => c <> "" /\ strip c = c
                   /\ exists row, row ∈ rows /\ complaint_of_row row = Some c)
         (omap complaint_of_row rows).
Proof.
  apply Forall_forall. intros c Hc. apply list_elem_of_omap in Hc as (row & Hin & Hrow).
  destruct (complaint_of_row_Some row c Hrow) as [H1 H2].
  split; [exact H1|]. split; [exact H2|]. exists row. split; assumption.
Qed.

Lemma omap_length {A B} (f : A -> option B) (l : list A) :
  (length (omap f l) <= length l)%nat.
Proof.
  induction l as [|x l IH]; csimpl; [lia|]. destruct (f x); simpl; lia.
Qed.

(** X1. Whatever the rows of the complaints file (with an ASCII first
    cell), every complaint that [upload_files] stores is the stripped
    first cell of a row of the file, is not empty and has no whitespace
    left at its ends; the complaints are those of all the rows, or of all
    but the first, in the order of the file; and the session stored under
    the new id holds exactly these complaints, with [total_rows] their
    number. *)
Theorem stored_complaints_are_stripped (rows : list (list string)) (cs : list string) :
  complaints_of_rows rows = Some cs ->
  Forall (fun c => c <> "" /\ strip c = c
                   /\ exists row, row ∈ rows /\ complaint_of_row row = Some c) cs
  /\ (cs = omap complaint_of_row rows \/ cs = omap complaint_of_row (tail rows))
  /\ (length cs <= length rows)%nat
  /\ forall id t st,
       exists a session,
         upload_rows id rows t st
         = Some (upload_files id cs t st)
         /\ find_session id (snd (upload_files id cs t st)) = Some (a, session)
         /\ complaints session = cs /\ total_rows session = length cs.
Proof.
  intros H.
  assert (cs = omap complaint_of_row rows \/ cs = omap complaint_of_row (tail rows)) as Hcs.
  { unfold complaints_of_rows in H. destruct rows as [|row0 rest]; [injection H as <-; auto|].
    destruct (is_ascii _); [|discriminate]. injection H as <-.
    destruct (looks_like_header _); auto. }
  split; [|split; [exact Hcs|split]].
  - destruct Hcs as [-> | ->]; [apply omap_complaints|].
    eapply Forall_impl; [apply omap_complaints|]. simpl.
    intros c (H1 & H2 & row & Hin & Hrow). repeat split; auto.
    exists row. split; [|exact Hrow]. destruct rows; [inversion Hin|right; exact Hin].
  - destruct Hcs as [-> | ->].
    + apply omap_length.
    + etrans; [apply omap_length|]. destruct rows; simpl; lia.
  - intros id t st.
    exists (length (heap st)),
      {| session_id := id; created_at := now (env st); complaints := cs;
         risk_table := t; results := []; status := pending;
         total_rows := length cs; processed_rows := 0;
         start_time := None; end_time := None; error_message := None |}.
    split; [unfold upload_rows; rewrite H; reflexivity|].
    split; [|split; reflexivity].
    unfold find_session, upload_files. simpl. rewrite lookup_insert_eq. simpl.
    rewrite lookup_app_r by lia. rewrite Nat.sub_diag. reflexivity.
Qed.

Lemma stored_complaints_are_stripped_witness :
  complaints_of_rows example_rows = Some ["late"; "rude"]
  /\ Forall (fun c => c <> "" /\ strip c = c
                      /\ exists row, row ∈ example_rows
                                     /\ complaint_of_row row = Some c)
            ["late"; "rude"].
Proof.
  assert (complaints_of_rows example_rows = Some ["late"; "rude"]) as H
      by (vm_compute; reflexivity).
  split; [exact H|].
  exact (proj1 (stored_complaints_are_stripped example_rows _ H)).
Defined.

Lemma code_chr z : 0 <= z < 256 -> code (chr z) = z.
Proof.
  intros H. unfold code, chr. rewrite N_ascii_embedding; lia.
Qed.

Lemma code_bound a : 0 <= code a < 256.
Proof. unfold code. pose proof (N_ascii_bounded a). lia. Qed.

Lemma lower_length s : String.length (lower s) = String.length s.
Proof. induction s as [|a s IH]; simpl; [reflexivity|]. rewrite IH. reflexivity. Qed.

Lemma any_digit_lower s : any_digit (lower s) = any_digit s.
Proof.
  induction s as [|a s IH]; simpl; [reflexivity|]. rewrite IH. f_equal.
  unfold is_digit. pose proof (code_bound a).
  destruct (Z.leb_spec 65 (code a)), (Z.leb_spec (code a) 90); simpl; try reflexivity.
  rewrite code_chr by lia.
  destruct (Z.leb_spec 48 (code a + 32)), (Z.leb_spec (code a + 32) 57),
    (Z.leb_spec 48 (code a)), (Z.leb_spec (code a) 57); simpl; try reflexivity; lia.
Qed.

Lemma any_digit_app s1 s2 : any_digit (s1 ++ s2) = any_digit s1 || any_digit s2.
Proof.
  induction s1 as [|a s IH]; [reflexivity|]. rewrite string_app_cons. simpl.
  rewrite IH, orb_assoc. reflexivity.
Qed.

Lemma strip_shorter s :
  (String.length (strip s) <= String.length s)%nat
  /\ (any_digit s = false -> any_digit (strip s) = false).
Proof.
  destruct (strip_spec s) as (_ & _ & x & y & Hs). split.
  - rewrite Hs at 2. rewrite !string_app_length. lia.
  - intros H. rewrite Hs, !any_digit_app in H.
    apply orb_false_iff in H as [_ H]. apply orb_false_iff in H as [H _]. exact H.
Qed.

(** X2. A first row whose first cell is ASCII, has fewer than 30
    characters and no digit is taken for a header: it is not stored,
    whatever it says, and the complaints are those of the other rows. *)
Theorem short_first_row_is_dropped (cell : string) (more : list string)
    (rest : list (list string)) :
  is_ascii cell = true -> (String.length cell < 30)%nat -> any_digit cell = false ->
  complaints_of_rows ((cell :: more) :: rest) = Some (omap complaint_of_row rest).
Proof.
  intros Ha Hlen Hd. unfold complaints_of_rows. rewrite Ha.
  assert (looks_like_header (strip (lower cell)) = true) as ->; [|reflexivity].
  unfold looks_like_header. apply orb_true_iff. right.
  destruct (strip_shorter (lower cell)) as [H1 H2].
  rewrite lower_length in H1. rewrite H2 by (rewrite any_digit_lower; exact Hd).
  rewrite andb_true_r. apply Nat.ltb_lt. lia.
Qed.

Lemma short_first_row_is_dropped_witness :
  is_ascii "Late delivery" = true
  /\ (String.length "Late delivery" < 30)%nat
  /\ any_digit "Late delivery" = false
  /\ complaints_of_rows [["Late delivery"]; ["rude"]] = Some ["rude"].
Proof.
  split; [reflexivity|]. split; [simpl; lia|]. split; [reflexivity|].
  apply (short_first_row_is_dropped "Late delivery" [] [["rude"]]);
    [reflexivity|simpl; lia|reflexivity].
Defined.
